(** * Winestreamproxy helper module ([lutris/util/wine/discordipc.py])

    A shallow embedding of the release-acquisition and deployment code:
    the cached fetch of the release metadata, the download and extraction
    of the release archive, and the symlink swap that activates it.

    Python functions that only compute are Rocq functions returning a
    [result] (a value or a raised exception); functions that touch the
    file system, the clock or the network are state transformers over a
    [world].  The operating system is modelled by a directory tree with
    symbolic links, resolved component by component the way the kernel
    does. *)

From Stdlib Require Import String Ascii List ZArith QArith Qabs Bool Lia.
Import ListNotations.
Local Open Scope string_scope.
Local Open Scope list_scope.

Set Warnings "-register-all".

(* ================================================================== *)
(** * Python exceptions and results *)

Inductive pyclass :=
| Exception
| OSError | FileNotFoundError | FileExistsError | IsADirectoryError
| NotADirectoryError | PermissionError
| ValueError | JSONDecodeError
| KeyError | TypeError | RuntimeError
| HTTPError | TarError.

Definition pyclass_eqb (a b : pyclass) : bool :=
  match a, b with
  | Exception, Exception | OSError, OSError
  | FileNotFoundError, FileNotFoundError | FileExistsError, FileExistsError
  | IsADirectoryError, IsADirectoryError
  | NotADirectoryError, NotADirectoryError
  | PermissionError, PermissionError | ValueError, ValueError
  | JSONDecodeError, JSONDecodeError | KeyError, KeyError
  | TypeError, TypeError | RuntimeError, RuntimeError
  | HTTPError, HTTPError | TarError, TarError => true
  | _, _ => false
  end.

(** The direct base class, as in the Python class hierarchy. *)
Definition base_class (c : pyclass) : option pyclass :=
  match c with
  | Exception => None
  | FileNotFoundError | FileExistsError | IsADirectoryError
  | NotADirectoryError | PermissionError => Some OSError
  | JSONDecodeError => Some ValueError
  | _ => Some Exception
  end.

(** [issubclass c handler]: what an [except handler:] clause tests. *)
Definition issubclass (c handler : pyclass) : bool :=
  pyclass_eqb c handler
  || match base_class c with
     | None => false
     | Some b =>
         pyclass_eqb b handler
         || match base_class b with
            | None => false
            | Some b' => pyclass_eqb b' handler
            end
     end.

Record exn := mkExn { exn_class : pyclass; exn_msg : string }.

Inductive result (A : Type) :=
| Return (a : A)
| Raise (e : exn).
Arguments Return {A} a.
Arguments Raise {A} e.

Definition rbind {A B} (r : result A) (k : A -> result B) : result B :=
  match r with
  | Return a => k a
  | Raise e => Raise e
  end.

Definition is_raise {A} (r : result A) : bool :=
  match r with Raise _ => true | Return _ => false end.

(* ================================================================== *)
(** * Regular expressions ([re.fullmatch]) *)

Module Regex.

Inductive re :=
| Nothing
| Epsilon
| Lit (c : ascii)            (* a literal character, e.g. [\.] *)
| AnyButNewline              (* [.] without DOTALL *)
| NoneOf (c : ascii)         (* [[^c]] *)
| Cat (r s : re)
| Alt (r s : re)
| Star (r : re).

Definition Opt (r : re) : re := Alt Epsilon r.
Definition Plus (r : re) : re := Cat r (Star r).

Fixpoint lit (s : string) : re :=
  match s with
  | EmptyString => Epsilon
  | String c s' => Cat (Lit c) (lit s')
  end.

Fixpoint nullable (r : re) : bool :=
  match r with
  | Nothing | Lit _ | AnyButNewline | NoneOf _ => false
  | Epsilon | Star _ => true
  | Cat r s => nullable r && nullable s
  | Alt r s => nullable r || nullable s
  end.

Definition newline : ascii := "010"%char.

Definition cat (r s : re) : re :=
  match r, s with
  | Nothing, _ | _, Nothing => Nothing
  | Epsilon, _ => s
  | _, _ => Cat r s
  end.

Definition alt (r s : re) : re :=
  match r, s with
  | Nothing, _ => s
  | _, Nothing => r
  | _, _ => Alt r s
  end.

(** Brzozowski derivative of [r] by the character [a]. *)
Fixpoint deriv (a : ascii) (r : re) : re :=
  match r with
  | Nothing | Epsilon => Nothing
  | Lit c => if Ascii.eqb a c then Epsilon else Nothing
  | AnyButNewline => if Ascii.eqb a newline then Nothing else Epsilon
  | NoneOf c => if Ascii.eqb a c then Nothing else Epsilon
  | Cat r s =>
      if nullable r
      then alt (cat (deriv a r) s) (deriv a s)
      else cat (deriv a r) s
  | Alt r s => alt (deriv a r) (deriv a s)
  | Star r => cat (deriv a r) (Star r)
  end.

Fixpoint fullmatch (r : re) (s : string) : bool :=
  match s with
  | EmptyString => nullable r
  | String a s' => fullmatch (deriv a r) s'
  end.

End Regex.

(* ================================================================== *)
(** * JSON documents as Python values *)

(** What [json.load] returns: [None], [bool], a number, [str], [list] or
    [dict].  A [dict] keeps its insertion order. *)
Inductive json :=
| JNull
| JBool (b : bool)
| JNum (q : Q)
| JStr (s : string)
| JArr (l : list json)
| JObj (m : list (string * json)).

Fixpoint assoc {A} (k : string) (m : list (string * A)) : option A :=
  match m with
  | [] => None
  | (k', v) :: m' => if String.eqb k k' then Some v else assoc k m'
  end.

(** [obj[key]] for a string key. *)
Definition py_getitem (obj : json) (key : string) : result json :=
  match obj with
  | JObj m =>
      match assoc key m with
      | Some v => Return v
      | None => Raise (mkExn KeyError key)
      end
  | JArr _ => Raise (mkExn TypeError "list indices must be integers or slices, not str")
  | JStr _ => Raise (mkExn TypeError "string indices must be integers, not 'str'")
  | _ => Raise (mkExn TypeError "object is not subscriptable")
  end.

Fixpoint chars (s : string) : list json :=
  match s with
  | EmptyString => []
  | String c s' => JStr (String c EmptyString) :: chars s'
  end.

(** The items a [for x in obj] loop visits. *)
Definition py_iter (obj : json) : result (list json) :=
  match obj with
  | JArr l => Return l
  | JObj m => Return (map (fun kv => JStr (fst kv)) m)
  | JStr s => Return (chars s)
  | _ => Raise (mkExn TypeError "object is not iterable")
  end.

(** [pattern.fullmatch(x)]: only a [str] can be matched. *)
Definition re_fullmatch (r : Regex.re) (x : json) : result bool :=
  match x with
  | JStr s => Return (Regex.fullmatch r s)
  | _ => Raise (mkExn TypeError "expected string or bytes-like object")
  end.

(** ['extracted.' + x]. *)
Definition py_str_concat (s : string) (x : json) : result string :=
  match x with
  | JStr t => Return (s ++ t)%string
  | _ => Raise (mkExn TypeError "can only concatenate str to str")
  end.

(* ================================================================== *)
(** * [os.path]: path strings *)

Definition slash : ascii := "/"%char.

Definition os_path_isabs (p : string) : bool := prefix "/" p.

Fixpoint endswith_slash (p : string) : bool :=
  match p with
  | EmptyString => false
  | String c EmptyString => Ascii.eqb c slash
  | String _ p' => endswith_slash p'
  end.

(** [os.path.join(a, b)] for two arguments. *)
Definition os_path_join (a b : string) : string :=
  if os_path_isabs b then b
  else if (String.eqb a "" || endswith_slash a)%bool then (a ++ b)%string
  else (a ++ "/" ++ b)%string.

(** [(p[:i], p[i:])] with [i = p.rfind('/') + 1]. *)
Fixpoint rsplit (p : string) : string * string :=
  match p with
  | EmptyString => ("", "")
  | String c r =>
      match rsplit r with
      | (EmptyString, t) =>
          if Ascii.eqb c slash then ("/", t) else ("", String c t)
      | (h, t) => (String c h, t)
      end
  end.

Fixpoint all_slashes (p : string) : bool :=
  match p with
  | EmptyString => true
  | String c r => Ascii.eqb c slash && all_slashes r
  end.

Fixpoint rstrip_slashes (p : string) : string :=
  match p with
  | EmptyString => ""
  | String c r =>
      match rstrip_slashes r with
      | EmptyString => if Ascii.eqb c slash then "" else String c ""
      | r' => String c r'
      end
  end.

Definition os_path_dirname (p : string) : string :=
  let head := fst (rsplit p) in
  if (negb (String.eqb head "") && negb (all_slashes head))%bool
  then rstrip_slashes head
  else head.

Definition os_path_basename (p : string) : string := snd (rsplit p).

(** [p.split('/')]. *)
Fixpoint split_slash (p : string) : list string :=
  match p with
  | EmptyString => [""]
  | String c r =>
      if Ascii.eqb c slash then "" :: split_slash r
      else match split_slash r with
           | x :: xs => String c x :: xs
           | [] => [String c ""]
           end
  end.

(** The path components the kernel walks: empty ones are skipped. *)
Definition components (p : string) : list string :=
  filter (fun c => negb (String.eqb c "")) (split_slash p).

Fixpoint join_components (cs : list string) : string :=
  match cs with
  | [] => ""
  | c :: cs' => ("/" ++ c ++ join_components cs')%string
  end.

(** The absolute path string of a canonical location. *)
Definition path_of (cs : list string) : string :=
  match cs with
  | [] => "/"
  | _ => join_components cs
  end.

(* ================================================================== *)
(** * The file system

    A directory tree.  A [location] is the list of names leading from the
    root to an object, never through a symbolic link, so it identifies the
    object the way an inode number does.  Path strings are resolved to
    locations by [walk], which follows symbolic links. *)

Inductive node :=
| File (content : string) (mtime : Q) (mode : Z)
| Symlink (target : string)
| Dir (mode : Z) (entries : list (string * node)).

Definition location := list string.

Inductive kind :=
| KFile
| KLink (target : string)
| KDir.

Definition kind_of (n : node) : kind :=
  match n with
  | File _ _ _ => KFile
  | Symlink t => KLink t
  | Dir _ _ => KDir
  end.

(** [stat] mode bits. *)
Definition S_IRUSR : Z := 256.
Definition S_IWUSR : Z := 128.
Definition S_IXUSR : Z := 64.
Definition S_IRGRP : Z := 32.
Definition S_IXGRP : Z := 8.
Definition S_IROTH : Z := 4.
Definition S_IXOTH : Z := 1.

Inductive errno :=
| ENOENT | ENOTDIR | EISDIR | EEXIST | ENOTEMPTY | ELOOP | EACCES | EINVAL.

(** The outcome of a system call. *)
Inductive sys (A : Type) :=
| Ok (a : A)
| Err (e : errno).
Arguments Ok {A} a.
Arguments Err {A} e.

Definition sbind {A B} (r : sys A) (k : A -> sys B) : sys B :=
  match r with
  | Ok a => k a
  | Err e => Err e
  end.

Module FS.

Fixpoint assoc_set {A} (k : string) (v : A) (m : list (string * A))
  : list (string * A) :=
  match m with
  | [] => [(k, v)]
  | (k', v') :: m' =>
      if String.eqb k k' then (k, v) :: m' else (k', v') :: assoc_set k v m'
  end.

Fixpoint assoc_del {A} (k : string) (m : list (string * A))
  : list (string * A) :=
  match m with
  | [] => []
  | (k', v') :: m' =>
      if String.eqb k k' then assoc_del k m' else (k', v') :: assoc_del k m'
  end.

(** The object at a location. *)
Fixpoint get (p : location) (n : node) : option node :=
  match p with
  | [] => Some n
  | c :: p' =>
      match n with
      | Dir _ es =>
          match assoc c es with
          | Some ch => get p' ch
          | None => None
          end
      | _ => None
      end
  end.

(** Replace the object at a location by its image under [f]. *)
Fixpoint alter (p : location) (f : node -> node) (n : node) : node :=
  match p with
  | [] => f n
  | c :: p' =>
      match n with
      | Dir m es =>
          match assoc c es with
          | Some ch => Dir m (assoc_set c (alter p' f ch) es)
          | None => n
          end
      | _ => n
      end
  end.

Definition peek (root : node) (p : location) : option kind :=
  option_map kind_of (get p root).

Definition put_entry (name : string) (x : node) (d : node) : node :=
  match d with
  | Dir m es => Dir m (assoc_set name x es)
  | _ => d
  end.

Definition del_entry (name : string) (d : node) : node :=
  match d with
  | Dir m es => Dir m (assoc_del name es)
  | _ => d
  end.

(** Create or replace the entry [name] of the directory at [d]. *)
Definition put (d : location) (name : string) (x : node) (root : node) : node :=
  alter d (put_entry name x) root.

(** Remove the entry [name] (with everything below it) from the
    directory at [d]. *)
Definition del (d : location) (name : string) (root : node) : node :=
  alter d (del_entry name) root.

Definition set_mode (mode : Z) (n : node) : node :=
  match n with
  | File c t _ => File c t mode
  | Dir _ es => Dir mode es
  | Symlink t => Symlink t
  end.

(** ** Path resolution *)

Inductive step :=
| Done (l : location)
| Fail (e : errno)
| Follow (cur : location) (cs : list string).

(** Walk the components [cs] from the directory at [cur] up to the first
    symbolic link. *)
Fixpoint walk1 (root : node) (cur : location) (cs : list string) : step :=
  match cs with
  | [] => Done cur
  | c :: rest =>
      if String.eqb c "." then walk1 root cur rest
      else if String.eqb c ".." then walk1 root (removelast cur) rest
      else
        match peek root (cur ++ [c]) with
        | None => Fail ENOENT
        | Some KDir => walk1 root (cur ++ [c]) rest
        | Some KFile =>
            match rest with
            | [] => Done (cur ++ [c])
            | _ => Fail ENOTDIR
            end
        | Some (KLink t) =>
            Follow (if os_path_isabs t then [] else cur) (components t ++ rest)
        end
  end.

(** Follow at most [links] symbolic links. *)
Fixpoint walk (links : nat) (root : node) (cur : location) (cs : list string)
  : sys location :=
  match walk1 root cur cs with
  | Done l => Ok l
  | Fail e => Err e
  | Follow cur' cs' =>
      match links with
      | O => Err ELOOP
      | S n => walk n root cur' cs'
      end
  end.

Definition MAXSYMLINKS : nat := 40.

(** The location a path names, following every symbolic link
    ([stat]).  Relative paths start at the root. *)
Definition stat_loc (root : node) (path : string) : sys location :=
  if String.eqb path "" then Err ENOENT
  else walk MAXSYMLINKS root [] (components path).

Definition is_dots (c : string) : bool :=
  (String.eqb c "." || String.eqb c "..")%bool.

(** The directory and the name of the last component of a path; the
    directory is resolved, the name is not looked up. *)
Definition parent_loc (root : node) (path : string) : sys (location * string) :=
  match rev (components path) with
  | [] => Err (if String.eqb path "" then ENOENT else EEXIST)
  | c :: rinit =>
      if is_dots c then Err EINVAL
      else
        sbind (walk MAXSYMLINKS root [] (rev rinit)) (fun d =>
        match peek root d with
        | Some KDir => Ok (d, c)
        | _ => Err ENOTDIR
        end)
  end.

(** A path that ends in a dot component, or has no component, names a
    directory. *)
Definition stat_dir (root : node) (path : string) : sys location :=
  sbind (stat_loc root path) (fun l =>
  match peek root l with
  | Some KDir => Ok l
  | _ => Err ENOTDIR
  end).

(** The location a path names, not following a symbolic link in the
    last component ([lstat]). *)
Definition lstat_loc (root : node) (path : string) : sys location :=
  match rev (components path) with
  | [] => stat_dir root path
  | c :: _ =>
      if is_dots c then stat_dir root path
      else
        sbind (parent_loc root path) (fun dn =>
        match peek root (fst dn ++ [snd dn]) with
        | Some _ => Ok (fst dn ++ [snd dn])
        | None => Err ENOENT
        end)
  end.

Definition lstat (root : node) (path : string) : sys kind :=
  sbind (lstat_loc root path) (fun l =>
  match peek root l with
  | Some k => Ok k
  | None => Err ENOENT
  end).

(** ** System calls *)

Definition readlink (path : string) (root : node) : sys string :=
  sbind (lstat_loc root path) (fun l =>
  match get l root with
  | Some (Symlink t) => Ok t
  | _ => Err EINVAL
  end).

(** [unlink(2)]: removes a file or a symbolic link, never a directory. *)
Definition unlink (path : string) (root : node) : sys node :=
  sbind (lstat_loc root path) (fun l =>
  match l, peek root l with
  | _, Some KDir | [], _ => Err EISDIR
  | _ :: _, Some _ => Ok (del (removelast l) (last l "") root)
  | _ :: _, None => Err ENOENT
  end).

Definition symlink (target path : string) (root : node) : sys node :=
  sbind (parent_loc root path) (fun dn =>
  match peek root (fst dn ++ [snd dn]) with
  | Some _ => Err EEXIST
  | None => Ok (put (fst dn) (snd dn) (Symlink target) root)
  end).

Definition mkdir (path : string) (mode : Z) (root : node) : sys node :=
  sbind (parent_loc root path) (fun dn =>
  match peek root (fst dn ++ [snd dn]) with
  | Some _ => Err EEXIST
  | None => Ok (put (fst dn) (snd dn) (Dir mode []) root)
  end).

Definition chmod (path : string) (mode : Z) (root : node) : sys node :=
  sbind (stat_loc root path) (fun l => Ok (alter l (set_mode mode) root)).

Fixpoint is_prefix (p q : location) : bool :=
  match p, q with
  | [], _ => true
  | a :: p', b :: q' => String.eqb a b && is_prefix p' q'
  | _ :: _, [] => false
  end.

Definition location_eqb (p q : location) : bool :=
  (is_prefix p q && is_prefix q p)%bool.

(** [rename(2)]. *)
Definition rename (src dst : string) (root : node) : sys node :=
  sbind (lstat_loc root src) (fun ls =>
  sbind (parent_loc root dst) (fun dn =>
  let ld := fst dn ++ [snd dn] in
  match ls, get ls root with
  | [], _ | _, None => Err EINVAL
  | _ :: _, Some x =>
      if location_eqb ls ld then Ok root
      else if is_prefix ls ld then Err EINVAL
      else
        let move := put (fst dn) (snd dn) x (del (removelast ls) (last ls "") root) in
        match get ld root, x with
        | None, _ => Ok move
        | Some (Dir _ []), Dir _ _ => Ok move
        | Some (Dir _ (_ :: _)), Dir _ _ => Err ENOTEMPTY
        | Some _, Dir _ _ => Err ENOTDIR
        | Some (Dir _ _), _ => Err EISDIR
        | Some _, _ => Ok move
        end
  end)).

(** [open(path, 'r')] followed by reading: the content and the [fstat]
    modification time. *)
Definition open_read (path : string) (root : node) : sys (string * Q) :=
  sbind (stat_loc root path) (fun l =>
  match get l root with
  | Some (File c t mode) =>
      if Z.eqb (Z.land mode S_IRUSR) 0 then Err EACCES else Ok (c, t)
  | Some (Dir _ _) => Err EISDIR
  | _ => Err ENOENT
  end).

Definition exists_ (path : string) (root : node) : bool :=
  match stat_loc root path with
  | Ok _ => true
  | Err _ => false
  end.

Definition isdir (path : string) (root : node) : bool :=
  match stat_loc root path with
  | Ok l => match peek root l with Some KDir => true | _ => false end
  | Err _ => false
  end.

(** [os.path.samefile]: both paths are [stat]ed. *)
Definition samefile (a b : string) (root : node) : sys bool :=
  sbind (stat_loc root a) (fun la =>
  sbind (stat_loc root b) (fun lb =>
  Ok (location_eqb la lb))).

(** [os.path.realpath]: like [walk], but a component that does not
    exist is kept as it is. *)
Fixpoint real1 (root : node) (cur : location) (cs : list string) : step :=
  match cs with
  | [] => Done cur
  | c :: rest =>
      if String.eqb c "." then real1 root cur rest
      else if String.eqb c ".." then real1 root (removelast cur) rest
      else
        match peek root (cur ++ [c]) with
        | Some (KLink t) =>
            Follow (if os_path_isabs t then [] else cur) (components t ++ rest)
        | _ => real1 root (cur ++ [c]) rest
        end
  end.

Fixpoint real (links : nat) (root : node) (cur : location) (cs : list string)
  : location :=
  match real1 root cur cs with
  | Done l => l
  | Fail _ => cur ++ cs
  | Follow cur' cs' =>
      match links with
      | O => cur' ++ cs'
      | S n => real n root cur' cs'
      end
  end.

Definition realpath (path : string) (root : node) : string :=
  path_of (real MAXSYMLINKS root [] (components path)).

(** The directory and the name at which [open(path, 'wb')] finds or
    creates the file: a symbolic link in the last component is
    followed. *)
Fixpoint creat_loc (links : nat) (root : node) (cur : location)
    (cs : list string) {struct links} : sys (location * string) :=
  match rev cs with
  | [] => Err EISDIR
  | c :: rinit =>
      if is_dots c
      then sbind (walk MAXSYMLINKS root cur cs) (fun _ => Err EISDIR)
      else
        sbind (walk MAXSYMLINKS root cur (rev rinit)) (fun d =>
        match peek root d with
        | Some KDir =>
            match peek root (d ++ [c]), links with
            | Some (KLink t), S n =>
                creat_loc n root (if os_path_isabs t then [] else d)
                  (components t)
            | Some (KLink _), O => Err ELOOP
            | _, _ => Ok (d, c)
            end
        | _ => Err ENOTDIR
        end)
  end.

(** [open(path, 'wb')], [write(content)] and [close], then
    [os.chmod(path, mode)] and [os.utime(path, (mtime, mtime))]: the
    file is created, or replaced when it is there and can be written;
    the three calls name the same file, so the last two cannot fail
    once the first has succeeded. *)
Definition write_file (path content : string) (mtime : Q) (mode : Z)
    (root : node) : sys node :=
  if String.eqb path "" then Err ENOENT
  else
    sbind (creat_loc MAXSYMLINKS root [] (components path)) (fun dn =>
    match get (fst dn ++ [snd dn]) root with
    | Some (Dir _ _) => Err EISDIR
    | Some (File _ _ m) =>
        if Z.eqb (Z.land m S_IWUSR) 0 then Err EACCES
        else Ok (put (fst dn) (snd dn) (File content mtime mode) root)
    | _ => Ok (put (fst dn) (snd dn) (File content mtime mode) root)
    end).

End FS.

(* ================================================================== *)
(** * The world and the effect monad *)

Inductive event :=
| EvGet (url : string)              (* an HTTP GET was issued *)
| EvExtract (dest : string)         (* an archive was unpacked *)
| EvRemoveFolder (path : string).   (* [remove_folder] was called *)

Record world := mkWorld {
  fs : node;                          (* the root directory *)
  clock : Q;                          (* [time.time()], in seconds *)
  remote : string -> option string;   (* what a GET of a URL answers *)
  rng : list N;                       (* the draws of [tempfile]'s name generator *)
  log : list event                    (* the events so far, latest first *)
}.

Definition set_fs (r : node) (w : world) : world :=
  mkWorld r (clock w) (remote w) (rng w) (log w).

Definition set_rng (g : list N) (w : world) : world :=
  mkWorld (fs w) (clock w) (remote w) g (log w).

Definition add_event (e : event) (w : world) : world :=
  mkWorld (fs w) (clock w) (remote w) (rng w) (e :: log w).

Definition M (A : Type) : Type := world -> result A * world.

Definition ret {A} (a : A) : M A := fun w => (Return a, w).

Definition raise {A} (e : exn) : M A := fun w => (Raise e, w).

Definition bind {A B} (m : M A) (k : A -> M B) : M B :=
  fun w =>
    match m w with
    | (Return a, w') => k a w'
    | (Raise e, w') => (Raise e, w')
    end.

Declare Scope py_scope.
Delimit Scope py_scope with py.
Notation "x <- m ;; k" := (bind m (fun x => k))
  (at level 61, m at next level, right associativity) : py_scope.
Notation "m ;; k" := (bind m (fun _ => k))
  (at level 61, right associativity) : py_scope.
Local Open Scope py_scope.

Definition lift {A} (r : result A) : M A := fun w => (r, w).

(** [try: body except ...: handler], the handler choosing by class. *)
Definition try_except {A} (body : M A) (handler : exn -> M A) : M A :=
  fun w =>
    match body w with
    | (Raise e, w') => handler e w'
    | r => r
    end.

(** The idiom
    [flag = True; try: body; flag = False; finally: if flag: cleanup]:
    the cleanup runs exactly when the body raised, and an exception of
    the cleanup replaces the one of the body. *)
Definition try_finally_unless_done (body : M unit) (cleanup : M unit) : M unit :=
  fun w =>
    match body w with
    | (Return _, w') => (Return tt, w')
    | (Raise e, w') =>
        match cleanup w' with
        | (Return _, w'') => (Raise e, w'')
        | (Raise e', w'') => (Raise e', w'')
        end
    end.

Definition errno_class (e : errno) : pyclass :=
  match e with
  | ENOENT => FileNotFoundError
  | ENOTDIR => NotADirectoryError
  | EISDIR => IsADirectoryError
  | EEXIST => FileExistsError
  | EACCES => PermissionError
  | ENOTEMPTY | ELOOP | EINVAL => OSError
  end.

Definition os_error (e : errno) (path : string) : exn :=
  mkExn (errno_class e) path.

(** A system call that only reads the file system. *)
Definition sys_read {A} (call : node -> sys A) (path : string) : M A :=
  fun w =>
    match call (fs w) with
    | Ok a => (Return a, w)
    | Err e => (Raise (os_error e path), w)
    end.

(** A system call that changes the file system. *)
Definition sys_write (call : node -> sys node) (path : string) : M unit :=
  fun w =>
    match call (fs w) with
    | Ok r => (Return tt, set_fs r w)
    | Err e => (Raise (os_error e path), w)
    end.

(** ** [os], [os.path], [time] *)

Definition os_readlink (path : string) : M string :=
  sys_read (FS.readlink path) path.
Definition os_remove (path : string) : M unit :=
  sys_write (FS.unlink path) path.
Definition os_unlink (path : string) : M unit :=
  sys_write (FS.unlink path) path.
Definition os_symlink (target path : string) : M unit :=
  sys_write (FS.symlink target path) path.
Definition os_rename (src dst : string) : M unit :=
  sys_write (FS.rename src dst) src.
Definition os_chmod (path : string) (mode : Z) : M unit :=
  sys_write (FS.chmod path mode) path.
Definition os_mkdir (path : string) (mode : Z) : M unit :=
  sys_write (FS.mkdir path mode) path.
Definition os_path_exists (path : string) : M bool :=
  fun w => (Return (FS.exists_ path (fs w)), w).
Definition os_path_lexists (path : string) : M bool :=
  fun w =>
    (Return (match FS.lstat (fs w) path with Ok _ => true | Err _ => false end),
     w).
Definition os_path_isdir (path : string) : M bool :=
  fun w => (Return (FS.isdir path (fs w)), w).
Definition os_path_samefile (a b : string) : M bool :=
  sys_read (FS.samefile a b) a.
Definition os_path_realpath (path : string) : M string :=
  fun w => (Return (FS.realpath path (fs w)), w).
Definition time_time : M Q :=
  fun w => (Return (clock w), w).

(** [os.makedirs(name, exist_ok=True)], following the library's
    recursion on [os.path.split]; [fuel] bounds the length of [name]. *)
Fixpoint os_makedirs_fuel (fuel : nat) (name : string) : M unit :=
  let head0 := os_path_dirname name in
  let tail0 := os_path_basename name in
  let head := if String.eqb tail0 "" then os_path_dirname head0 else head0 in
  let tail := if String.eqb tail0 "" then os_path_basename head0 else tail0 in
  let leaf : M unit :=
    try_except (os_mkdir name 511)
      (fun e =>
         if issubclass (exn_class e) OSError
         then isd <- os_path_isdir name ;;
              if isd then ret tt else raise e
         else raise e) in
  ex <- os_path_exists head ;;
  if (negb (String.eqb head "") && negb (String.eqb tail "") && negb ex)%bool
  then
    match fuel with
    | O => raise (mkExn RuntimeError "maximum recursion depth exceeded")
    | S fuel' =>
        try_except (os_makedirs_fuel fuel' head)
          (fun e => if issubclass (exn_class e) FileExistsError
                    then ret tt else raise e) ;;
        if String.eqb tail "." then ret tt else leaf
    end
  else leaf.

Definition os_makedirs (name : string) : M unit :=
  os_makedirs_fuel (String.length name) name.

(** [open(path, 'r')]: the handle carries what will be read and the
    [st_mtime] that [os.fstat] reports. *)
Record text_file := { file_text : string; file_mtime : Q }.

Definition py_open_r (path : string) : M text_file :=
  r <- sys_read (FS.open_read path) path ;;
  ret {| file_text := fst r; file_mtime := snd r |}.

(** ** [tempfile] *)

Definition tmp_alphabet : string := "abcdefghijklmnopqrstuvwxyz0123456789_".

Definition tmp_char (n : N) : ascii :=
  match String.get (N.to_nat (n mod 37)) tmp_alphabet with
  | Some c => c
  | None => "a"%char
  end.

Fixpoint tmp_chars (k : nat) (seed : N) : string :=
  match k with
  | O => ""
  | S k' => String (tmp_char seed) (tmp_chars k' (seed / 37))
  end.

(** One draw of the name generator: eight characters. *)
Definition tmp_name (seed : N) : string := tmp_chars 8 seed.

Definition TMP_MAX : nat := 100 * 100.

(** Try the candidate names in turn until [create] does not answer
    [EEXIST]. *)
Fixpoint tmp_loop {A} (tries : nat) (dir pre : string)
    (create : string -> node -> sys (A * node)) : M (A * string) :=
  match tries with
  | O => raise (mkExn FileExistsError "No usable temporary name found")
  | S tries' =>
      fun w =>
        match rng w with
        | [] => (Raise (mkExn FileExistsError "No usable temporary name found"), w)
        | seed :: g =>
            let file := os_path_join dir (pre ++ tmp_name seed)%string in
            match create file (fs w) with
            | Ok (a, r) => (Return (a, file), set_rng g (set_fs r w))
            | Err EEXIST => tmp_loop tries' dir pre create (set_rng g w)
            | Err e => (Raise (os_error e file), set_rng g w)
            end
        end
  end.

(** [tempfile.mkdtemp(dir=dir, prefix=pre)]: a new directory, mode 0o700. *)
Definition tempfile_mkdtemp (dir pre : string) : M string :=
  r <- tmp_loop TMP_MAX dir pre
         (fun file root =>
            match FS.mkdir file 448 root with
            | Ok r => Ok (tt, r)
            | Err e => Err e
            end) ;;
  ret (snd r).

(** [tempfile.mkstemp(dir=dir, prefix=pre)]: a new empty file, mode 0o600,
    opened; the descriptor is the location of the file. *)
Definition tempfile_mkstemp (dir pre : string) : M (location * string) :=
  fun w =>
    tmp_loop TMP_MAX dir pre
      (fun file root =>
         sbind (FS.parent_loc root file) (fun dn =>
         match FS.peek root (fst dn ++ [snd dn]) with
         | Some _ => Err EEXIST
         | None =>
             Ok (fst dn ++ [snd dn],
                 FS.put (fst dn) (snd dn) (File "" (clock w) 384) root)
         end)) w.

(** [file.write(content)] on a descriptor. *)
Definition fd_write (fd : location) (content : string) : M unit :=
  fun w =>
    (Return tt,
     set_fs (FS.alter fd
               (fun n => match n with
                         | File _ _ mode => File content (clock w) mode
                         | _ => n
                         end) (fs w)) w).

(** [os.chmod(fd, mode)] on a descriptor. *)
Definition os_fchmod (fd : location) (mode : Z) : M unit :=
  fun w => (Return tt, set_fs (FS.alter fd (FS.set_mode mode) (fs w)) w).

(* ================================================================== *)
(** * The module [discordipc] *)

(** What [tarfile] reads from an archive: its members in the order of
    the archive, each a regular file or a directory under the name the
    archive gives it, and whether the data is complete or ends after
    these members.  (Links, devices and FIFOs are not modelled.) *)
Inductive tar_member :=
| TarFile (name content : string) (mtime : Q) (mode : Z)
| TarDir (name : string) (mode : Z).

Definition tar_name (m : tar_member) : string :=
  match m with
  | TarFile name _ _ _ => name
  | TarDir name _ => name
  end.

Record archive := {
  members : list tar_member;
  intact : bool
}.

(** The directories among the members, with their modes. *)
Fixpoint tar_directories (ms : list tar_member) : list (string * Z) :=
  match ms with
  | [] => []
  | TarDir name mode :: ms' => (name, mode) :: tar_directories ms'
  | TarFile _ _ _ _ :: ms' => tar_directories ms'
  end.

(** [directories.sort(key=lambda a: a.name)]: a stable sort. *)
Fixpoint insert_by_name (d : string * Z) (l : list (string * Z))
  : list (string * Z) :=
  match l with
  | [] => [d]
  | x :: l' =>
      if String.ltb (fst d) (fst x) then d :: l else x :: insert_by_name d l'
  end.

Definition sort_by_name (l : list (string * Z)) : list (string * Z) :=
  fold_left (fun acc d => insert_by_name d acc) l [].

Section Discordipc.

(** [lutris.settings.RUNTIME_DIR]. *)
Variable RUNTIME_DIR : string.

(** The JSON parser ([json.loads], [json.load], [Request.json]):
    [None] when the text is not a JSON document. *)
Variable json_loads : string -> option json.

(** The archive decoder ([tarfile.open]): [None] when the bytes are not
    an archive. *)
Variable tar_decode : string -> option archive.

(** ** Collaborators outside this module *)

Definition json_load (file : text_file) : M json :=
  match json_loads (file_text file) with
  | Some data => ret data
  | None => raise (mkExn JSONDecodeError "Expecting value")
  end.

(** [json.loads(x)] of a Python value: only a [str] is parsed. *)
Definition py_json_loads (x : json) : M json :=
  match x with
  | JStr s =>
      match json_loads s with
      | Some data => ret data
      | None => raise (mkExn JSONDecodeError "Expecting value")
      end
  | _ => raise (mkExn TypeError "the JSON object must be str, bytes or bytearray")
  end.

(** Modelled from the spec: [lutris.util.http.Request(url).get()], the
    transport capability [GET(url) -> bytes]; it raises when the
    transfer fails.  The result is the [content] of the response. *)
Definition request_get (url : string) : M string :=
  fun w =>
    match remote w url with
    | Some content => (Return content, add_event (EvGet url) w)
    | None => (Raise (mkExn HTTPError url), add_event (EvGet url) w)
    end.

(** [Request(url)] for the value found in the release info: a URL is a
    string. *)
Definition request_get_py (url : json) : M string :=
  match url with
  | JStr u => request_get u
  | _ => raise (mkExn TypeError "url must be a string")
  end.

(** Modelled from the spec: [Request.json], the parsed [content]. *)
Definition request_json (content : string) : M json :=
  match json_loads content with
  | Some data => ret data
  | None => raise (mkExn JSONDecodeError "Expecting value")
  end.

(** [tarfile.open(fileobj=file)]. *)
Definition tarfile_open (content : string) : M archive :=
  match tar_decode content with
  | Some tar => ret tar
  | None => raise (mkExn TarError "file could not be opened successfully")
  end.

(** [os.mkdir(path, mode)] for a caller that tells [FileExistsError]
    from the other errors: the call answers EEXIST exactly when the path
    names something, also when the path ends in a dot component. *)
Definition tar_mkdir (path : string) (mode : Z) : M unit :=
  there <- os_path_lexists path ;;
  if there then raise (os_error EEXIST path) else os_mkdir path mode.

(** [os.makedirs(name)], with [exist_ok] left False. *)
Fixpoint tar_makedirs_fuel (fuel : nat) (name : string) : M unit :=
  let head0 := os_path_dirname name in
  let tail0 := os_path_basename name in
  let head := if String.eqb tail0 "" then os_path_dirname head0 else head0 in
  let tail := if String.eqb tail0 "" then os_path_basename head0 else tail0 in
  ex <- os_path_exists head ;;
  if (negb (String.eqb head "") && negb (String.eqb tail "") && negb ex)%bool
  then
    match fuel with
    | O => raise (mkExn RuntimeError "maximum recursion depth exceeded")
    | S fuel' =>
        try_except (tar_makedirs_fuel fuel' head)
          (fun e => if issubclass (exn_class e) FileExistsError
                    then ret tt else raise e) ;;
        if String.eqb tail "." then ret tt else tar_mkdir name 511
    end
  else tar_mkdir name 511.

Definition tar_makedirs (name : string) : M unit :=
  tar_makedirs_fuel (String.length name) name.

(** [TarFile.extract(member, path)] as [extractall] calls it, with no
    filter: the name of the member is joined to [path] and the file
    system resolves the result, so an absolute name, a name with [..]
    or a name below a symbolic link is written where it leads.  Missing
    directories above the target are made first; a regular file is
    written over what is there; for a directory [FileExistsError] is
    passed over. *)
Definition tar_extract_member (path : string) (m : tar_member) : M unit :=
  let targetpath := rstrip_slashes (os_path_join path (tar_name m)) in
  let upperdirs := os_path_dirname targetpath in
  there <- os_path_exists upperdirs ;;
  (if (negb (String.eqb upperdirs "") && negb there)%bool
   then tar_makedirs upperdirs
   else ret tt) ;;
  match m with
  | TarFile _ content mtime mode =>
      sys_write (FS.write_file targetpath content mtime mode) targetpath
  | TarDir _ _ =>
      try_except (tar_mkdir targetpath 448)
        (fun e => if issubclass (exn_class e) FileExistsError
                  then ret tt else raise e)
  end.

Fixpoint tar_extract_members (path : string) (ms : list tar_member) : M unit :=
  match ms with
  | [] => ret tt
  | m :: ms' => tar_extract_member path m ;; tar_extract_members path ms'
  end.

(** The second pass of [extractall]: the modes of the directories; an
    error is reported and not raised. *)
Fixpoint tar_set_modes (path : string) (dirs : list (string * Z)) : M unit :=
  match dirs with
  | [] => ret tt
  | d :: dirs' =>
      try_except (os_chmod (os_path_join path (fst d)) (snd d))
        (fun _ => ret tt) ;;
      tar_set_modes path dirs'
  end.

(** [tar.extractall(path)]: the members in turn, then the modes of the
    directories in reverse order of their names; an error of the file
    system stops the extraction, and a damaged archive raises after the
    members that could be read. *)
Definition tar_extractall (tar : archive) (path : string) : M unit :=
  fun w =>
    (tar_extract_members path (members tar) ;;
     if intact tar
     then tar_set_modes path (rev (sort_by_name (tar_directories (members tar))))
     else raise (mkExn TarError "unexpected end of data"))
    (add_event (EvExtract path) w).

(** Modelled from the spec: [lutris.util.system.remove_folder], which
    removes a directory with everything below it.  A directory that is
    already gone counts as removed; anything that is not a directory
    (or is the root) makes the removal fail. *)
Definition remove_folder (path : string) : M unit :=
  fun w =>
    let w := add_event (EvRemoveFolder path) w in
    match FS.lstat_loc (fs w) path with
    | Err ENOENT => (Return tt, w)
    | Err e => (Raise (os_error e path), w)
    | Ok l =>
        match l, FS.peek (fs w) l with
        | _ :: _, Some KDir =>
            (Return tt, set_fs (FS.del (removelast l) (last l "") (fs w)) w)
        | _, _ => (Raise (os_error ENOTDIR path), w)
        end
    end.

(** ** class WinestreamproxyPaths *)

Definition runtime_subdir : string :=
  os_path_join RUNTIME_DIR "winestreamproxy".

Definition latest_release_json_path : string :=
  os_path_join runtime_subdir "latest.json".

Definition latest_release_path : string :=
  os_path_join runtime_subdir "latest".

Definition exe_path : string :=
  os_path_join (os_path_join runtime_subdir "latest") "winestreamproxy.exe.so".

(** ** class WinestreamproxyUrls *)

Definition _RELEASES_URL : string :=
  "https://api.github.com/repos/openglfreak/winestreamproxy/releases".

Definition releases_url : string := _RELEASES_URL.

Definition latest_release_url : string := (releases_url ++ "/latest")%string.

(** ** class WinestreamproxyUtils *)

Definition safe_write_file (path content : string) : M unit :=
  tmp <- tempfile_mkstemp (os_path_dirname path)
           ("." ++ os_path_basename path)%string ;;
  let temp_fd := fst tmp in
  let temp_path := snd tmp in
  try_finally_unless_done
    (fd_write temp_fd content ;;
     os_fchmod temp_fd
       (Z.lor S_IRUSR (Z.lor S_IWUSR (Z.lor S_IRGRP S_IROTH))) ;;
     os_rename temp_path path)
    (os_unlink temp_path).

Definition download_and_extract_tar_file (url : json) (extract_to : string)
  : M unit :=
  temp_dir <- tempfile_mkdtemp (os_path_dirname extract_to)
                ("." ++ os_path_basename extract_to)%string ;;
  try_finally_unless_done
    (content <- request_get_py url ;;
     tar <- tarfile_open content ;;
     tar_extractall tar temp_dir ;;
     os_chmod temp_dir
       (Z.lor S_IRUSR (Z.lor S_IWUSR (Z.lor S_IXUSR
         (Z.lor S_IRGRP (Z.lor S_IXGRP (Z.lor S_IROTH S_IXOTH)))))) ;;
     os_rename temp_dir extract_to)
    (remove_folder temp_dir).

Definition try_readlink (path : string) : M (option string) :=
  try_except
    (dest <- os_readlink path ;;
     ret (Some (if os_path_isabs dest then dest
                else os_path_join (os_path_dirname path) dest)))
    (fun e => if issubclass (exn_class e) FileNotFoundError
              then ret None else raise e).

Definition remove_if_exists (path : string) : M unit :=
  try_except (os_remove path)
    (fun e => if issubclass (exn_class e) FileNotFoundError
              then ret tt else raise e).

(** ** class Winestreamproxy *)

Definition _CACHE_TIME : Q := inject_Z 86400.

(** [^winestreamproxy-.*\.x86_64\.tar(?:\.[^\.]+)?$] *)
Definition _ASSET_NAME_REGEX : Regex.re :=
  Regex.Cat (Regex.lit "winestreamproxy-")
    (Regex.Cat (Regex.Star Regex.AnyButNewline)
       (Regex.Cat (Regex.lit ".x86_64.tar")
          (Regex.Opt (Regex.Cat (Regex.Lit ".")
                        (Regex.Plus (Regex.NoneOf "."))))))%char.

(** The loop of [_get_download_url_from_json] over the assets. *)
Fixpoint find_asset_url (assets : list json) : result json :=
  match assets with
  | [] => Raise (mkExn ValueError "Could not find download url in release info")
  | asset :: rest =>
      rbind (py_getitem asset "name") (fun name =>
      rbind (re_fullmatch _ASSET_NAME_REGEX name) (fun hit =>
      if hit then py_getitem asset "browser_download_url"
      else find_asset_url rest))
  end.

Definition _get_download_url_from_json (data : json) : result json :=
  rbind (py_getitem data "assets") (fun assets =>
  rbind (py_iter assets) find_asset_url).

(** Validates the json info returned by GitHub for a release.  The
    function has no [return] statement: its value is [None]. *)
Definition _validate_release_info (data : json) : result json :=
  rbind (py_getitem data "tag_name") (fun _ =>
  rbind (_get_download_url_from_json data) (fun _ =>
  Return JNull)).

Definition Qltb (a b : Q) : bool := negb (Qle_bool b a).

(** Lines 154-163: the cached document when the file can be opened and
    is younger than [_CACHE_TIME]; [None] when the code falls through
    to the download. *)
Definition read_cache_if_fresh (local_path : string) : M (option json) :=
  try_except
    (file <- py_open_r local_path ;;
     now <- time_time ;;
     if Qltb (Qabs (now - file_mtime file)) _CACHE_TIME
     then data <- json_load file ;; ret (Some data)
     else ret None)
    (fun e => if issubclass (exn_class e) FileNotFoundError then ret None
              else if issubclass (exn_class e) OSError then ret None
              else raise e).

(** Lines 167-172: the body of the [try] that fetches, validates and
    stores the release info. *)
Definition fetch_validate_store (local_path : string) : M json :=
  content <- request_get latest_release_url ;;
  parsed <- request_json content ;;
  data <- lift (_validate_release_info parsed) ;;
  safe_write_file local_path content ;;
  ret data.

(** Lines 177-186: the fallback to the cached file after the failure
    [exception]. *)
Definition read_stale_cache (local_path : string) (exception : exn) : M json :=
  try_except
    (file <- py_open_r local_path ;;
     json_load file)
    (fun e => if issubclass (exn_class e) FileNotFoundError then raise exception
              else if issubclass (exn_class e) OSError then raise exception
              else raise e).

Definition _download_latest_release_json : M json :=
  let local_path := latest_release_json_path in
  cached <- read_cache_if_fresh local_path ;;
  match cached with
  | Some data => ret data
  | None =>
      os_makedirs (os_path_dirname local_path) ;;
      try_except (fetch_validate_store local_path)
        (fun exception => read_stale_cache local_path exception)
  end.

Definition truthy (s : option string) : bool :=
  match s with
  | Some s => negb (String.eqb s "")
  | None => false
  end.

Definition option_string_eqb (a : option string) (b : string) : bool :=
  match a with
  | Some a => String.eqb a b
  | None => false
  end.

(** Lines 195-199 of [download]: fetch and unpack the release unless
    its directory exists. *)
Definition download_install (latest_release_info : json) (extract_to : string)
  : M unit :=
  present <- os_path_exists extract_to ;;
  if negb present then
    download_url <- lift (_get_download_url_from_json latest_release_info) ;;
    os_makedirs (os_path_dirname latest_release_path) ;;
    download_and_extract_tar_file download_url extract_to
  else ret tt.

(** Lines 211-217 of [download]: remove the directory the link used to
    name. *)
Definition download_collect (old_dir : option string)
    (old_dir_realpath extract_to : string) : M unit :=
  doomed <-
    (if truthy old_dir then
       same <- os_path_samefile old_dir_realpath extract_to ;;
       if negb same then
         inside <- os_path_samefile (os_path_dirname old_dir_realpath)
                     runtime_subdir ;;
         ret (inside && prefix "extracted." (os_path_basename old_dir_realpath))%bool
       else ret false
     else ret false) ;;
  if doomed then
    try_except (remove_folder old_dir_realpath) (fun _ => ret tt)
  else ret tt.

(** Lines 201-217 of [download]: point the link [latest] at
    [extract_to], then collect the directory it named before. *)
Definition download_promote (tag_name extract_to : string) : M unit :=
  old_dir <- try_readlink latest_release_path ;;
  if option_string_eqb old_dir extract_to then ret tt
  else
    old_dir_realpath <-
      (match old_dir with
       | Some d => if truthy old_dir then os_path_realpath d else ret ""
       | None => ret ""   (* the variable stays unbound and is not read *)
       end) ;;
    let temp_link := (latest_release_path ++ "." ++ tag_name)%string in
    remove_if_exists temp_link ;;
    os_symlink extract_to temp_link ;;
    os_rename temp_link latest_release_path ;;
    download_collect old_dir old_dir_realpath extract_to.

(** Lines 191-217 of [download], from the parsed release info on. *)
Definition download_from (latest_release_info : json) : M unit :=
  tag <- lift (py_getitem latest_release_info "tag_name") ;;
  name <- lift (py_str_concat "extracted." tag) ;;
  let tag_name := match tag with JStr s => s | _ => "" end in
  let extract_to := os_path_join (os_path_dirname latest_release_path) name in
  download_install latest_release_info extract_to ;;
  download_promote tag_name extract_to.

Definition download : M unit :=
  raw <- _download_latest_release_json ;;
  latest_release_info <- py_json_loads raw ;;
  download_from latest_release_info.

Definition get_wrapper_path : string :=
  os_path_join latest_release_path "wrapper.sh".

Definition get_environment_variables (xdg_runtime_dir : string)
  : list (string * string) :=
  [("WINESTREAMPROXY_PIPE_NAME", "discord-ipc-0");
   ("WINESTREAMPROXY_SOCKET_PATH", os_path_join xdg_runtime_dir "discord-ipc-0");
   ("WINESTREAMPROXY_SYSTEM", "true")].

End Discordipc.

(* ================================================================== *)
(** * Vocabulary of the statements *)

(** An asset whose name is a string the pattern matches in full. *)
Definition asset_matches (asset : json) : bool :=
  match py_getitem asset "name" with
  | Return (JStr s) => Regex.fullmatch _ASSET_NAME_REGEX s
  | _ => false
  end.

(** The release info lists at least one such asset. *)
Definition has_matching_asset (data : json) : bool :=
  match py_getitem data "assets" with
  | Return assets =>
      match py_iter assets with
      | Return l => existsb asset_matches l
      | Raise _ => false
      end
  | Raise _ => false
  end.

(** [root'] has every object of [root], of the same kind, at the same
    location (it may have more). *)
Definition extends (root root' : node) : Prop :=
  forall (q : location) (k : kind),
    FS.peek root q = Some k -> FS.peek root' q = Some k.

Fixpoint no_slash (s : string) : bool :=
  match s with
  | EmptyString => true
  | String c r => negb (Ascii.eqb c slash) && no_slash r
  end.

(** Every initial segment of the location [p] is a directory. *)
Definition spine (root : node) (p : location) : Prop :=
  forall i : nat, FS.peek root (firstn i p) = Some KDir.

(** No directory of [root] is lost in [root']. *)
Definition keeps_dirs (root root' : node) : Prop :=
  forall q : location,
    FS.peek root q = Some KDir -> FS.peek root' q = Some KDir.

Definition no_dots (cs : list string) : bool :=
  forallb (fun c => negb (FS.is_dots c)) cs.

(** The components of [path] are the names of nested directories: no
    symbolic link and no dot component on the way. *)
Definition plain_directory (root : node) (path : string) : Prop :=
  no_dots (components path) = true /\ spine root (components path).

Definition no_dotdot (cs : list string) : bool :=
  forallb (fun c => negb (String.eqb c "..")) cs.

(** A member name that stays below the directory it is joined to: a
    relative path without a [..] component. *)
Definition confined_name (name : string) : bool :=
  (negb (os_path_isabs name) && no_dotdot (components name))%bool.

(** An archive all of whose members have such names. *)
Definition confined (tar : archive) : bool :=
  forallb (fun m => confined_name (tar_name m)) (members tar).

(** A tree without symbolic links. *)
Definition linkfree (x : node) : Prop :=
  forall (q : location) (t : string), FS.peek x q <> Some (KLink t).

(** The file system [r] is [root] with a directory without links as the
    entry [n] of the directory at [d]. *)
Definition staging (root : node) (d : location) (n : string) (r : node)
  : Prop :=
  exists x, kind_of x = KDir /\ linkfree x /\ r = FS.put d n x root.

(** A path that leads into the directory [T] and has no [..] after
    it. *)
Definition inside (T path : string) : Prop :=
  exists cs, components path = components T ++ cs /\ no_dotdot cs = true.

(** A computation that leaves the file system as [root] with such a
    directory. *)
Definition keeps_staging (root : node) (d : location) (n : string)
    {A : Type} (m : M A) : Prop :=
  forall w, staging root d n (fs w) -> staging root d n (fs (snd (m w))).

(** The events of [w'] that [w] does not have yet. *)
Definition new_events (w w' : world) (evs : list event) : Prop :=
  log w' = evs ++ log w.

(** A computation only adds events to the log. *)
Definition grows {A : Type} (m : M A) : Prop :=
  forall w : world, exists evs : list event, new_events w (snd (m w)) evs.

Definition is_network_or_extraction (e : event) : bool :=
  match e with
  | EvGet _ | EvExtract _ => true
  | EvRemoveFolder _ => false
  end.

(* ================================================================== *)
(** * Concrete worlds

    A runtime directory [/data/runtime], a table standing for the JSON
    parser and one for the archive decoder, and file systems built around
    the directory [/data/runtime/winestreamproxy]. *)

Module Demo.

Definition RUNTIME_DIR : string := "/data/runtime".

Definition archive_url : string := "https://example.org/v1.2.0.tar.gz".

(** The release info of the scenario: one asset named
    [winestreamproxy-x86_64.tar.gz]. *)
Definition scenario_doc : json :=
  JObj [("tag_name", JStr "v1.2.0");
        ("assets",
         JArr [JObj [("name", JStr "winestreamproxy-x86_64.tar.gz");
                     ("browser_download_url", JStr archive_url)]])].

(** A release info whose asset name has the shape the pattern asks for. *)
Definition release_doc : json :=
  JObj [("tag_name", JStr "v1.2.0");
        ("assets",
         JArr [JObj [("name", JStr "winestreamproxy-1.2.0.x86_64.tar.gz");
                     ("browser_download_url", JStr archive_url)]])].

(** The same with an empty tag. *)
Definition empty_tag_doc : json :=
  JObj [("tag_name", JStr "");
        ("assets",
         JArr [JObj [("name", JStr "winestreamproxy-1.2.0.x86_64.tar.gz");
                     ("browser_download_url", JStr archive_url)]])].

(** The raw texts are named, not spelled out. *)
Definition scenario_text : string := "<scenario release info>".
Definition release_text : string := "<release info v1.2.0>".
Definition empty_tag_text : string := "<release info with empty tag>".

Definition json_loads (text : string) : option json :=
  if String.eqb text scenario_text then Some scenario_doc
  else if String.eqb text release_text then Some release_doc
  else if String.eqb text empty_tag_text then Some empty_tag_doc
  else None.

Definition tarball : string := "<tarball v1.2.0>".

Definition tar_decode (bytes : string) : option archive :=
  if String.eqb bytes tarball
  then Some {| members := [TarFile "wrapper.sh" "#!/bin/sh" 0 493;
                           TarFile "winestreamproxy.exe.so" "ELF" 0 493];
               intact := true |}
  else if String.eqb bytes "<truncated tarball>"
  then Some {| members := [TarFile "wrapper.sh" "#!/bin/sh" 0 493];
               intact := false |}
  else if String.eqb bytes "<truncated tarball with a name that leaves>"
  then Some {| members :=
                 [TarFile "../extracted.v1.2.0/wrapper.sh" "#!/bin/sh" 0 493];
               intact := false |}
  else None.

(** A file system whose directory [/data/runtime/winestreamproxy] holds
    [entries]. *)
Definition root_with (entries : list (string * node)) : node :=
  Dir 493
    [("data",
      Dir 493 [("runtime", Dir 493 [("winestreamproxy", Dir 493 entries)])])].

(** The release API answers [text]; the archive can be downloaded. *)
Definition online (text : string) (url : string) : option string :=
  if String.eqb url latest_release_url then Some text
  else if String.eqb url archive_url then Some tarball
  else None.

Definition offline (url : string) : option string := None.

Definition world_with (net : string -> option string)
    (entries : list (string * node)) : world :=
  mkWorld (root_with entries) 100000 net [5%N; 77%N; 1234567%N] [].

Definition subdir (name : string) : string :=
  ("/data/runtime/winestreamproxy/" ++ name)%string.

End Demo.

(* ================================================================== *)
(** * Laws of path strings *)

Module PathLaws.

Local Open Scope string_scope.

Example join_ex1 : os_path_join "/a/b" "c" = "/a/b/c".
Proof. reflexivity. Qed.
Example join_ex2 : os_path_join "/a/b/" "c" = "/a/b/c".
Proof. reflexivity. Qed.
Example join_ex3 : os_path_join "/a/b" "/c" = "/c".
Proof. reflexivity. Qed.
Example dirname_ex1 : os_path_dirname "/a/b/c" = "/a/b".
Proof. reflexivity. Qed.
Example dirname_ex2 : os_path_dirname "/a" = "/".
Proof. reflexivity. Qed.
Example dirname_ex3 : os_path_dirname "a" = "".
Proof. reflexivity. Qed.
Example dirname_ex4 : os_path_dirname "/a//b" = "/a".
Proof. reflexivity. Qed.
Example basename_ex1 : os_path_basename "/a/b/c.d" = "c.d".
Proof. reflexivity. Qed.
Example basename_ex2 : os_path_basename "/a/b/" = "".
Proof. reflexivity. Qed.
Example components_ex : components "/a//b/./c/" = ["a"; "b"; "."; "c"].
Proof. reflexivity. Qed.

Example asset_name_matches :
  Regex.fullmatch _ASSET_NAME_REGEX "winestreamproxy-1.2.0.x86_64.tar.gz" = true.
Proof. reflexivity. Qed.
Example asset_name_without_extension :
  Regex.fullmatch _ASSET_NAME_REGEX "winestreamproxy-1.2.0.x86_64.tar" = true.
Proof. reflexivity. Qed.
Example asset_name_two_extensions :
  Regex.fullmatch _ASSET_NAME_REGEX "winestreamproxy-1.2.0.x86_64.tar.gz.sig"
  = false.
Proof. reflexivity. Qed.
Example asset_name_scenario :
  Regex.fullmatch _ASSET_NAME_REGEX "winestreamproxy-x86_64.tar.gz" = false.
Proof. reflexivity. Qed.

Lemma app_nil_r (s : string) : s ++ "" = s.
Proof. induction s as [|c s IH]; cbn; [reflexivity|now rewrite IH]. Qed.

Lemma app_assoc (a b c : string) : (a ++ b) ++ c = a ++ (b ++ c).
Proof. induction a as [|x a IH]; cbn; [reflexivity|now rewrite IH]. Qed.

Lemma split_slash_nonempty (s : string) : split_slash s <> [].
Proof.
  destruct s as [|c r]; cbn; [discriminate|].
  destruct (Ascii.eqb c slash); [discriminate|].
  destruct (split_slash r); discriminate.
Qed.

Lemma split_slash_app (a b : string) :
  split_slash (a ++ String slash b) = (split_slash a ++ split_slash b)%list.
Proof.
  induction a as [|c a IH]; cbn.
  - reflexivity.
  - destruct (Ascii.eqb c slash); rewrite IH; [reflexivity|].
    destruct (split_slash a) eqn:E; [|reflexivity].
    now destruct (split_slash_nonempty a).
Qed.

Lemma split_slash_plain (b : string) :
  no_slash b = true -> split_slash b = [b].
Proof.
  induction b as [|c b IH]; cbn; [reflexivity|].
  intros H. apply andb_true_iff in H. destruct H as [H1 H2].
  apply negb_true_iff in H1. now rewrite H1, (IH H2).
Qed.

Lemma components_app (a b : string) :
  components (a ++ String slash b) = (components a ++ components b)%list.
Proof. unfold components. now rewrite split_slash_app, filter_app. Qed.

Lemma components_plain (b : string) :
  no_slash b = true -> b <> "" -> components b = [b].
Proof.
  intros H Hne. unfold components. rewrite (split_slash_plain b H).
  destruct b; [congruence|reflexivity].
Qed.

Lemma components_snoc_slash (a : string) :
  components (a ++ "/") = components a.
Proof.
  change (a ++ "/") with (a ++ String slash "").
  rewrite components_app. cbn. apply List.app_nil_r.
Qed.

Lemma endswith_slash_inv (a : string) :
  endswith_slash a = true -> exists a', a = a' ++ "/".
Proof.
  induction a as [|c a IH]; [discriminate|].
  destruct a as [|c' a'].
  - cbn. intros H. apply Ascii.eqb_eq in H. subst c. now exists "".
  - intros H. destruct (IH H) as [x Hx]. exists (String c x).
    cbn. now rewrite <- Hx.
Qed.

Lemma endswith_slash_snoc (a : string) : endswith_slash (a ++ "/") = true.
Proof.
  induction a as [|c a IH]; [reflexivity|].
  cbn [append]. destruct (a ++ "/") eqn:E.
  - now destruct a.
  - exact IH.
Qed.

Lemma no_slash_not_abs (b : string) :
  no_slash b = true -> b <> "" -> os_path_isabs b = false.
Proof.
  unfold os_path_isabs. destruct b as [|c b]; [congruence|].
  cbn [no_slash prefix].
  intros H _. apply andb_true_iff in H. destruct H as [H _].
  apply negb_true_iff in H.
  destruct (ascii_dec "/" c) as [<-|]; [|reflexivity].
  discriminate.
Qed.

(** The components of [os.path.join(a, b)] for a plain name [b]. *)
Lemma components_join (a b : string) :
  no_slash b = true -> b <> "" ->
  components (os_path_join a b) = (components a ++ [b])%list.
Proof.
  intros Hb Hne. unfold os_path_join. rewrite (no_slash_not_abs b Hb Hne).
  destruct (String.eqb a "") eqn:Ea; cbn [orb].
  - apply String.eqb_eq in Ea. subst a. cbn. now apply components_plain.
  - destruct (endswith_slash a) eqn:Es.
    + destruct (endswith_slash_inv a Es) as [a' ->].
      rewrite components_snoc_slash, app_assoc. cbn [append].
      now rewrite components_app, (components_plain b Hb Hne).
    + cbn [append]. now rewrite components_app, (components_plain b Hb Hne).
Qed.

Lemma rsplit_spec (p : string) :
  p = fst (rsplit p) ++ snd (rsplit p)
  /\ no_slash (snd (rsplit p)) = true
  /\ (fst (rsplit p) = "" \/ exists h', fst (rsplit p) = h' ++ "/").
Proof.
  induction p as [|c r IH]; cbn; [auto|].
  destruct (rsplit r) as [h t]. cbn in IH. destruct IH as (E & Ht & Hh).
  destruct h as [|ch h'].
  - destruct (Ascii.eqb c slash) eqn:Ec; cbn.
    + apply Ascii.eqb_eq in Ec. subst c. cbn in E. subst r.
      repeat split; [exact Ht|]. right. now exists "".
    + cbn in E. subst r. repeat split; [|now left].
      now rewrite Ec.
  - cbn. split; [now rewrite E|]. split; [exact Ht|]. right.
    destruct Hh as [Hh|[x Hx]]; [discriminate|].
    exists (String c x). cbn. now rewrite Hx.
Qed.

Lemma all_slashes_components (s : string) :
  all_slashes s = true -> components s = [].
Proof.
  induction s as [|c s IH]; [reflexivity|]. cbn [all_slashes].
  intros H. apply andb_true_iff in H. destruct H as [Hc Hs].
  apply Ascii.eqb_eq in Hc. subst c.
  change (String slash s) with ("" ++ String slash s).
  rewrite components_app, (IH Hs). reflexivity.
Qed.

Lemma components_app_slashes (x s : string) :
  all_slashes s = true -> components (x ++ s) = components x.
Proof.
  destruct s as [|c s]; [now rewrite app_nil_r|]. cbn [all_slashes].
  intros H. apply andb_true_iff in H. destruct H as [Hc Hs].
  apply Ascii.eqb_eq in Hc. subst c.
  rewrite components_app, (all_slashes_components s Hs).
  apply List.app_nil_r.
Qed.

Lemma rstrip_slashes_decomp (h : string) :
  exists s, all_slashes s = true /\ h = rstrip_slashes h ++ s.
Proof.
  induction h as [|c r IH]; [now exists ""|].
  destruct IH as (s & Hs & E). cbn [rstrip_slashes].
  destruct (rstrip_slashes r) as [|c' r'] eqn:Er.
  - cbn in E. subst r. destruct (Ascii.eqb c slash) eqn:Ec.
    + exists (String c s). cbn. now rewrite Ec.
    + exists s. now split.
  - exists s. split; [exact Hs|]. cbn. cbn in E. now rewrite <- E.
Qed.

Lemma components_rstrip (h : string) :
  components (rstrip_slashes h) = components h.
Proof.
  destruct (rstrip_slashes_decomp h) as (s & Hs & E).
  rewrite E at 2. now rewrite components_app_slashes.
Qed.

(** A path with a last component [b] has the components of its
    [dirname], then [b]. *)
Lemma components_dirname_basename (p : string) :
  os_path_basename p <> "" ->
  components p
  = (components (os_path_dirname p) ++ [os_path_basename p])%list.
Proof.
  unfold os_path_basename, os_path_dirname.
  destruct (rsplit_spec p) as (E & Ht & Hh).
  set (h := fst (rsplit p)) in *. set (t := snd (rsplit p)) in *.
  intros Hne.
  assert (Hd : components
                 (if (negb (String.eqb h "") && negb (all_slashes h))%bool
                  then rstrip_slashes h else h) = components h).
  { destruct (negb (String.eqb h "") && negb (all_slashes h))%bool;
      [apply components_rstrip|reflexivity]. }
  rewrite Hd, E.
  destruct Hh as [->|[h' ->]].
  - cbn. now apply components_plain.
  - rewrite components_snoc_slash, app_assoc. cbn [append].
    now rewrite components_app, (components_plain t Ht Hne).
Qed.

Lemma rsplit_plain (t : string) : no_slash t = true -> rsplit t = ("", t).
Proof.
  induction t as [|c t IH]; [reflexivity|]. cbn.
  intros H. apply andb_true_iff in H. destruct H as [Hc Ht].
  apply negb_true_iff in Hc. now rewrite (IH Ht), Hc.
Qed.

Lemma rsplit_app (h t : string) :
  no_slash t = true ->
  h = "" \/ endswith_slash h = true ->
  rsplit (h ++ t) = (h, t).
Proof.
  intros Ht. induction h as [|c h IH]; intros Hh; [now apply rsplit_plain|].
  destruct Hh as [Hh|Hh]; [discriminate|].
  cbn [append rsplit]. destruct h as [|c' h'].
  - cbn in Hh. apply Ascii.eqb_eq in Hh. subst c. cbn [append].
    now rewrite (rsplit_plain t Ht).
  - now rewrite IH by (right; exact Hh).
Qed.

Lemma basename_join (a b : string) :
  no_slash b = true -> b <> "" ->
  os_path_basename (os_path_join a b) = b.
Proof.
  intros Hb Hne. unfold os_path_basename, os_path_join.
  rewrite (no_slash_not_abs b Hb Hne).
  destruct (String.eqb a "") eqn:Ea; cbn [orb].
  - apply String.eqb_eq in Ea. subst a. cbn [append].
    now rewrite (rsplit_plain b Hb).
  - destruct (endswith_slash a) eqn:Es.
    + now rewrite rsplit_app by auto.
    + rewrite <- app_assoc. rewrite rsplit_app; auto.
      right. apply endswith_slash_snoc.
Qed.

Lemma components_dirname_join (a b : string) :
  no_slash b = true -> b <> "" ->
  components (os_path_dirname (os_path_join a b)) = components a.
Proof.
  intros Hb Hne.
  pose proof (components_dirname_basename (os_path_join a b)) as H.
  rewrite (basename_join a b Hb Hne), (components_join a b Hb Hne) in H.
  specialize (H Hne). now apply app_inj_tail in H.
Qed.

End PathLaws.

(* ================================================================== *)
(** * Laws of the file system *)

Module FSLaws.
Import FS.

Section Assoc.
Variable A : Type.
Implicit Types (m : list (string * A)) (k : string) (v : A).

Lemma assoc_set_same k v m : assoc k (assoc_set k v m) = Some v.
Proof.
  induction m as [|[k' v'] m IH]; cbn.
  - now rewrite String.eqb_refl.
  - destruct (String.eqb k k') eqn:E; cbn.
    + now rewrite String.eqb_refl.
    + now rewrite E.
Qed.

Lemma assoc_set_other k k' v m :
  k <> k' -> assoc k' (assoc_set k v m) = assoc k' m.
Proof.
  intros Hne. induction m as [|[k0 v0] m IH]; cbn.
  - apply not_eq_sym, String.eqb_neq in Hne. now rewrite Hne.
  - destruct (String.eqb k k0) eqn:E; cbn.
    + apply String.eqb_eq in E. subst k0.
      destruct (String.eqb k' k) eqn:E'; [|reflexivity].
      apply String.eqb_eq in E'. congruence.
    + now rewrite IH.
Qed.

Lemma assoc_del_same k m : assoc k (assoc_del k m) = None.
Proof.
  induction m as [|[k' v'] m IH]; cbn; [reflexivity|].
  destruct (String.eqb k k') eqn:E; cbn; [assumption|].
  now rewrite E.
Qed.

Lemma assoc_del_other k k' m :
  k <> k' -> assoc k' (assoc_del k m) = assoc k' m.
Proof.
  intros Hne. induction m as [|[k0 v0] m IH]; cbn; [reflexivity|].
  destruct (String.eqb k k0) eqn:E; cbn.
  - apply String.eqb_eq in E. subst k0.
    destruct (String.eqb k' k) eqn:E'; [|assumption].
    apply String.eqb_eq in E'. congruence.
  - now rewrite IH.
Qed.

Lemma assoc_del_absent k m : assoc k m = None -> assoc_del k m = m.
Proof.
  induction m as [|[k' v'] m IH]; cbn; [reflexivity|].
  destruct (String.eqb k k'); [discriminate|].
  intros H. now rewrite (IH H).
Qed.

Lemma assoc_del_set_absent k v m :
  assoc k m = None -> assoc_del k (assoc_set k v m) = m.
Proof.
  induction m as [|[k' v'] m IH]; cbn.
  - now rewrite String.eqb_refl.
  - destruct (String.eqb k k') eqn:E; [discriminate|].
    intros H. cbn. now rewrite E, (IH H).
Qed.

Lemma assoc_set_set k v v' m :
  assoc_set k v (assoc_set k v' m) = assoc_set k v m.
Proof.
  induction m as [|[k0 v0] m IH]; cbn.
  - now rewrite String.eqb_refl.
  - destruct (String.eqb k k0) eqn:E; cbn.
    + now rewrite String.eqb_refl.
    + now rewrite E, IH.
Qed.

Lemma assoc_set_id k v m : assoc k m = Some v -> assoc_set k v m = m.
Proof.
  induction m as [|[k0 v0] m IH]; cbn; [discriminate|].
  destruct (String.eqb k k0) eqn:E.
  - apply String.eqb_eq in E. now intros [= ->]; subst.
  - intros H. now rewrite (IH H).
Qed.

End Assoc.

(** ** Entries of a directory *)

Lemma peek_nil (root : node) : peek root [] = Some (kind_of root).
Proof. reflexivity. Qed.

Lemma peek_cons (m : Z) (es : list (string * node)) (c : string) (q : location) :
  peek (Dir m es) (c :: q) =
  match assoc c es with
  | Some ch => peek ch q
  | None => None
  end.
Proof. unfold peek. cbn. now destruct (assoc c es). Qed.

Lemma peek_cons_nondir (root : node) (c : string) (q : location) :
  kind_of root <> KDir -> peek root (c :: q) = None.
Proof. destruct root; cbn; congruence. Qed.

Lemma extends_refl (root : node) : extends root root.
Proof. intros q k H. exact H. Qed.

Lemma extends_trans (a b c : node) : extends a b -> extends b c -> extends a c.
Proof. intros H1 H2 q k H. apply H2, H1, H. Qed.

Lemma extends_put (d : location) (n : string) (x root : node) :
  peek root (d ++ [n]) = None -> extends root (put d n x root).
Proof.
  revert root. induction d as [|c d IH]; intros root Hn q k Hq.
  - destruct root as [| |m es]; try exact Hq.
    cbn in Hn. rewrite peek_cons in Hn.
    unfold put. cbn. destruct q as [|c q]; [exact Hq|].
    rewrite peek_cons in *.
    destruct (string_dec n c) as [->|Hne].
    + destruct (assoc c es); [|discriminate].
      destruct q; discriminate.
    + now rewrite assoc_set_other.
  - destruct root as [| |m es]; try exact Hq.
    unfold put. cbn.
    destruct (assoc c es) as [ch|] eqn:Ec; [|exact Hq].
    cbn in Hn. rewrite peek_cons, Ec in Hn.
    destruct q as [|c' q]; [exact Hq|].
    rewrite peek_cons in *.
    destruct (string_dec c c') as [<-|Hne].
    + rewrite assoc_set_same. rewrite Ec in Hq. exact (IH ch Hn q k Hq).
    + now rewrite assoc_set_other.
Qed.

Lemma extends_del (d : location) (n : string) (root : node) :
  extends (del d n root) root.
Proof.
  revert root. induction d as [|c d IH]; intros root q k Hq.
  - destruct root as [| |m es]; try exact Hq.
    unfold del in Hq. cbn in Hq. destruct q as [|c q]; [exact Hq|].
    rewrite peek_cons in *.
    destruct (string_dec n c) as [->|Hne].
    + now rewrite assoc_del_same in Hq.
    + now rewrite assoc_del_other in Hq.
  - destruct root as [| |m es]; try exact Hq.
    unfold del in Hq. cbn in Hq.
    destruct (assoc c es) as [ch|] eqn:Ec; [|exact Hq].
    destruct q as [|c' q]; [exact Hq|].
    rewrite peek_cons in *.
    destruct (string_dec c c') as [<-|Hne].
    + rewrite assoc_set_same in Hq. rewrite Ec. exact (IH ch q k Hq).
    + now rewrite assoc_set_other in Hq.
Qed.

Lemma get_put_same (d : location) (n : string) (x root : node) :
  peek root d = Some KDir -> get (d ++ [n]) (put d n x root) = Some x.
Proof.
  revert root. induction d as [|c d IH]; intros root Hd.
  - destruct root as [| |m es]; try discriminate.
    unfold put. cbn. now rewrite assoc_set_same.
  - destruct root as [| |m es]; try discriminate.
    rewrite peek_cons in Hd. unfold put. cbn.
    destruct (assoc c es) as [ch|] eqn:Ec; [|discriminate].
    cbn. rewrite assoc_set_same. exact (IH ch Hd).
Qed.

Lemma peek_put_same (d : location) (n : string) (x root : node) :
  peek root d = Some KDir ->
  peek (put d n x root) (d ++ [n]) = Some (kind_of x).
Proof. intros H. unfold peek. now rewrite get_put_same. Qed.

Lemma peek_del_same (d : location) (n : string) (root : node) :
  peek (del d n root) (d ++ [n]) = None.
Proof.
  revert root. induction d as [|c d IH]; intros root.
  - destruct root as [| |m es]; try reflexivity.
    unfold del. cbn. rewrite peek_cons. now rewrite assoc_del_same.
  - destruct root as [| |m es]; try reflexivity.
    unfold del. cbn.
    destruct (assoc c es) as [ch|] eqn:Ec.
    + cbn. rewrite peek_cons, assoc_set_same. apply IH.
    + cbn. rewrite peek_cons. now rewrite Ec.
Qed.

Lemma alter_put (d : location) (n : string) (f : node -> node) (x root : node) :
  alter (d ++ [n]) f (put d n x root) = put d n (f x) root.
Proof.
  revert root. induction d as [|c d IH]; intros root.
  - destruct root as [| |m es]; try reflexivity.
    unfold put. cbn. rewrite assoc_set_same. cbn.
    now rewrite assoc_set_set.
  - destruct root as [| |m es]; try reflexivity.
    unfold put. cbn.
    destruct (assoc c es) as [ch|] eqn:Ec.
    + cbn. rewrite assoc_set_same. cbn.
      rewrite assoc_set_set. f_equal. f_equal. apply IH.
    + cbn. now rewrite Ec.
Qed.

Lemma del_put (d : location) (n : string) (x root : node) :
  peek root (d ++ [n]) = None -> del d n (put d n x root) = root.
Proof.
  revert root. induction d as [|c d IH]; intros root Hn.
  - destruct root as [| |m es]; try reflexivity.
    cbn in Hn. rewrite peek_cons in Hn.
    unfold del, put. cbn. f_equal. apply assoc_del_set_absent.
    destruct (assoc n es); [discriminate|reflexivity].
  - destruct root as [| |m es]; try reflexivity.
    cbn in Hn. rewrite peek_cons in Hn.
    unfold del, put. cbn.
    destruct (assoc c es) as [ch|] eqn:Ec.
    + cbn. rewrite assoc_set_same. cbn. rewrite assoc_set_set.
      f_equal. fold (put d n x ch). fold (del d n (put d n x ch)).
      rewrite (IH ch Hn). now apply assoc_set_id.
    + cbn. now rewrite Ec.
Qed.

(** ** Resolution is monotone *)

Lemma walk1_mono (root root' : node) (cur : location) (cs : list string) :
  extends root root' ->
  (forall e, walk1 root cur cs <> Fail e) ->
  walk1 root' cur cs = walk1 root cur cs.
Proof.
  intros Hx. revert cur. induction cs as [|c cs IH]; intros cur Hok;
    [reflexivity|].
  cbn in *.
  destruct (String.eqb c "."); [now apply IH|].
  destruct (String.eqb c ".."); [now apply IH|].
  destruct (peek root (cur ++ [c])) as [k|] eqn:E.
  - rewrite (Hx _ _ E). destruct k; [reflexivity|reflexivity|now apply IH].
  - exfalso. exact (Hok ENOENT eq_refl).
Qed.

Lemma walk_mono (links : nat) (root root' : node) (cur : location)
    (cs : list string) (l : location) :
  extends root root' ->
  walk links root cur cs = Ok l ->
  walk links root' cur cs = Ok l.
Proof.
  intros Hx. revert cur cs.
  induction links as [|links IH]; intros cur cs H; cbn in *.
  - rewrite (walk1_mono _ _ cur cs Hx).
    + exact H.
    + intros e E. rewrite E in H. discriminate.
  - rewrite (walk1_mono _ _ cur cs Hx).
    + destruct (walk1 root cur cs); try exact H. now apply IH.
    + intros e E. rewrite E in H. discriminate.
Qed.

Lemma walk1_app_done (root : node) (cur : location) (cs rest : list string)
    (l : location) :
  walk1 root cur cs = Done l ->
  peek root l = Some KDir ->
  walk1 root cur (cs ++ rest) = walk1 root l rest.
Proof.
  revert cur. induction cs as [|c cs IH]; intros cur H Hd; cbn in *.
  - now injection H as ->.
  - destruct (String.eqb c "."); [now apply IH|].
    destruct (String.eqb c ".."); [now apply IH|].
    destruct (peek root (cur ++ [c])) as [[| |]|] eqn:E; try discriminate.
    + destruct cs; [|discriminate]. injection H as <-. congruence.
    + now apply IH.
Qed.

Lemma walk1_app_follow (root : node) (cur : location) (cs rest : list string)
    (cur' : location) (cs' : list string) :
  walk1 root cur cs = Follow cur' cs' ->
  walk1 root cur (cs ++ rest) = Follow cur' (cs' ++ rest).
Proof.
  revert cur. induction cs as [|c cs IH]; intros cur H; cbn in *;
    [discriminate|].
  destruct (String.eqb c "."); [now apply IH|].
  destruct (String.eqb c ".."); [now apply IH|].
  destruct (peek root (cur ++ [c])) as [[| |]|] eqn:E; try discriminate.
  - destruct cs; discriminate.
  - injection H as <- <-. now rewrite app_assoc.
  - now apply IH.
Qed.

Lemma walk_app (links : nat) (root : node) (cur : location)
    (cs rest : list string) (l l' : location) :
  walk links root cur cs = Ok l ->
  peek root l = Some KDir ->
  walk1 root l rest = Done l' ->
  walk links root cur (cs ++ rest) = Ok l'.
Proof.
  revert cur cs. induction links as [|links IH]; intros cur cs H Hd Hr;
    cbn in *.
  - destruct (walk1 root cur cs) eqn:E; try discriminate.
    injection H as ->. now rewrite (walk1_app_done _ _ _ rest _ E Hd), Hr.
  - destruct (walk1 root cur cs) eqn:E; try discriminate.
    + injection H as ->. now rewrite (walk1_app_done _ _ _ rest _ E Hd), Hr.
    + rewrite (walk1_app_follow _ _ _ rest _ _ E). now apply IH.
Qed.

Lemma walk_snoc (links : nat) (root : node) (cur : location)
    (cs : list string) (l : location) (n : string) (k : kind) :
  walk links root cur cs = Ok l ->
  peek root l = Some KDir ->
  is_dots n = false ->
  peek root (l ++ [n]) = Some k ->
  (forall t, k <> KLink t) ->
  walk links root cur (cs ++ [n]) = Ok (l ++ [n]).
Proof.
  intros H Hd Hn Hk Hl. apply (walk_app _ _ _ _ [n] _ _ H Hd).
  unfold is_dots in Hn. apply orb_false_iff in Hn. destruct Hn as [E1 E2].
  cbn. rewrite E1, E2, Hk.
  destruct k; try reflexivity. now destruct (Hl target).
Qed.

Lemma walk1_fail (root : node) (cur : location) (cs : list string) (e : errno) :
  walk1 root cur cs = Fail e -> e = ENOENT \/ e = ENOTDIR.
Proof.
  revert cur. induction cs as [|c cs IH]; intros cur H; cbn in *;
    [discriminate|].
  destruct (String.eqb c "."); [now apply (IH cur)|].
  destruct (String.eqb c ".."); [now apply (IH (removelast cur))|].
  destruct (peek root (cur ++ [c])) as [[| |]|] eqn:E; try discriminate.
  - destruct cs; [discriminate|]. injection H as <-. now right.
  - now apply (IH (cur ++ [c])).
  - injection H as <-. now left.
Qed.

Lemma walk_err (links : nat) (root : node) (cur : location)
    (cs : list string) (e : errno) :
  walk links root cur cs = Err e -> e = ENOENT \/ e = ENOTDIR \/ e = ELOOP.
Proof.
  revert cur cs. induction links as [|links IH]; intros cur cs H; cbn in *.
  - destruct (walk1 root cur cs) eqn:E; try discriminate.
    + injection H as <-. destruct (walk1_fail _ _ _ _ E); auto.
    + injection H as <-. auto.
  - destruct (walk1 root cur cs) eqn:E; try discriminate.
    + injection H as <-. destruct (walk1_fail _ _ _ _ E); auto.
    + eapply IH. eassumption.
Qed.

(** ** Paths that name an entry of a directory *)

Lemma parent_loc_inv (root : node) (path : string) (d : location) (n : string) :
  parent_loc root path = Ok (d, n) ->
  exists rinit,
    rev (components path) = n :: rinit
    /\ is_dots n = false
    /\ walk MAXSYMLINKS root [] (rev rinit) = Ok d
    /\ peek root d = Some KDir.
Proof.
  unfold parent_loc.
  destruct (rev (components path)) as [|c rinit]; [discriminate|].
  destruct (is_dots c) eqn:Ed; [discriminate|].
  destruct (walk MAXSYMLINKS root [] (rev rinit)) as [d'|] eqn:Ew;
    [|discriminate].
  cbn. destruct (peek root d') as [[| |]|] eqn:Ep; try discriminate.
  intros [= <- <-]. now exists rinit.
Qed.

Lemma parent_loc_mono (root root' : node) (path : string)
    (d : location) (n : string) :
  extends root root' ->
  parent_loc root path = Ok (d, n) ->
  parent_loc root' path = Ok (d, n).
Proof.
  intros Hx H. destruct (parent_loc_inv _ _ _ _ H) as (rinit & Hr & Hn & Hw & Hd).
  unfold parent_loc. rewrite Hr, Hn, (walk_mono _ _ _ _ _ _ Hx Hw). cbn.
  now rewrite (Hx _ _ Hd).
Qed.

Lemma lstat_loc_entry (root : node) (path : string) (d : location) (n : string) :
  parent_loc root path = Ok (d, n) ->
  lstat_loc root path =
  match peek root (d ++ [n]) with
  | Some _ => Ok (d ++ [n])
  | None => Err ENOENT
  end.
Proof.
  intros H. destruct (parent_loc_inv _ _ _ _ H) as (rinit & Hr & Hn & _).
  unfold lstat_loc. now rewrite Hr, Hn, H.
Qed.

Lemma path_nonempty (path : string) (c : string) (cs : list string) :
  rev (components path) = c :: cs -> String.eqb path "" = false.
Proof. now destruct path. Qed.

Lemma stat_loc_entry (root : node) (path : string) (d : location)
    (n : string) (k : kind) :
  parent_loc root path = Ok (d, n) ->
  peek root (d ++ [n]) = Some k ->
  (forall t, k <> KLink t) ->
  stat_loc root path = Ok (d ++ [n]).
Proof.
  intros H Hk Hl.
  destruct (parent_loc_inv _ _ _ _ H) as (rinit & Hr & Hn & Hw & Hd).
  unfold stat_loc. rewrite (path_nonempty _ _ _ Hr).
  replace (components path) with (rev rinit ++ [n]).
  - exact (walk_snoc _ _ _ _ _ _ _ Hw Hd Hn Hk Hl).
  - rewrite <- (rev_involutive (components path)), Hr. reflexivity.
Qed.

Lemma removelast_snoc {A} (l : list A) (a : A) : removelast (l ++ [a]) = l.
Proof. now rewrite removelast_app, app_nil_r. Qed.

Lemma last_snoc {A} (l : list A) (a d : A) : last (l ++ [a]) d = a.
Proof. now rewrite last_last. Qed.

End FSLaws.

(* ================================================================== *)
(** * More laws of path resolution *)

Module ResolveLaws.
Import FS FSLaws PathLaws.

Lemma walk1_app_fail (root : node) (cur : location) (cs rest : list string)
    (e : errno) :
  walk1 root cur cs = Fail e -> exists e', walk1 root cur (cs ++ rest) = Fail e'.
Proof.
  revert cur. induction cs as [|c cs IH]; intros cur H; cbn in *;
    [discriminate|].
  destruct (String.eqb c "."); [now apply IH|].
  destruct (String.eqb c ".."); [now apply IH|].
  destruct (peek root (cur ++ [c])) as [[| |]|] eqn:E; try discriminate.
  - destruct cs; [discriminate|]. cbn. now exists ENOTDIR.
  - now apply IH.
  - now exists ENOENT.
Qed.

(** A path that resolves has a prefix that resolves. *)
Lemma walk_prefix (links : nat) (root : node) (cur : location)
    (cs rest : list string) (l : location) :
  walk links root cur (cs ++ rest) = Ok l ->
  exists l0, walk links root cur cs = Ok l0.
Proof.
  revert cur cs. induction links as [|links IH]; intros cur cs H; cbn in *.
  - destruct (walk1 root cur cs) as [l0|e|c' cs'] eqn:E.
    + now exists l0.
    + destruct (walk1_app_fail _ _ _ rest _ E) as [e' E']. now rewrite E' in H.
    + now rewrite (walk1_app_follow _ _ _ rest _ _ E) in H.
  - destruct (walk1 root cur cs) as [l0|e|c' cs'] eqn:E.
    + now exists l0.
    + destruct (walk1_app_fail _ _ _ rest _ E) as [e' E']. now rewrite E' in H.
    + rewrite (walk1_app_follow _ _ _ rest _ _ E) in H. now apply IH in H.
Qed.

Lemma walk_app_fail (links : nat) (root : node) (cur : location)
    (cs rest : list string) (l : location) (e : errno) :
  walk links root cur cs = Ok l ->
  peek root l = Some KDir ->
  walk1 root l rest = Fail e ->
  walk links root cur (cs ++ rest) = Err e.
Proof.
  revert cur cs. induction links as [|links IH]; intros cur cs H Hd Hr;
    cbn in *.
  - destruct (walk1 root cur cs) eqn:E; try discriminate.
    injection H as ->. now rewrite (walk1_app_done _ _ _ rest _ E Hd), Hr.
  - destruct (walk1 root cur cs) eqn:E; try discriminate.
    + injection H as ->. now rewrite (walk1_app_done _ _ _ rest _ E Hd), Hr.
    + rewrite (walk1_app_follow _ _ _ rest _ _ E). now apply IH.
Qed.

(** A path that [stat] resolves names an entry that is there. *)
Lemma stat_loc_present (root : node) (path : string) (l : location)
    (d : location) (n : string) :
  stat_loc root path = Ok l ->
  parent_loc root path = Ok (d, n) ->
  peek root (d ++ [n]) <> None.
Proof.
  intros Hs Hp Habs.
  destruct (parent_loc_inv _ _ _ _ Hp) as (rinit & Hr & Hn & Hw & Hd).
  unfold stat_loc in Hs. rewrite (path_nonempty _ _ _ Hr) in Hs.
  replace (components path) with (rev rinit ++ [n]) in Hs
    by (rewrite <- (rev_involutive (components path)), Hr; reflexivity).
  rewrite (walk_app_fail _ _ _ _ [n] _ ENOENT Hw Hd) in Hs; [discriminate|].
  unfold is_dots in Hn. apply orb_false_iff in Hn. destruct Hn as [E1 E2].
  cbn. now rewrite E1, E2, Habs.
Qed.

Lemma components_dirname_slash (p : string) :
  os_path_basename p = "" ->
  components (os_path_dirname p) = components p.
Proof.
  unfold os_path_basename, os_path_dirname. intros Hb.
  destruct (rsplit_spec p) as (Hp & _ & _). rewrite Hb, PathLaws.app_nil_r in Hp.
  rewrite <- Hp.
  destruct (negb (String.eqb p "") && negb (all_slashes p))%bool;
    [apply components_rstrip | reflexivity].
Qed.

(** The directory part [os.makedirs] looks at before it creates the
    leaf exists when the whole path resolves. *)
Lemma makedirs_head_exists (root : node) (name : string) (l : location) :
  stat_loc root name = Ok l ->
  let head0 := os_path_dirname name in
  let tail0 := os_path_basename name in
  let head := if String.eqb tail0 "" then os_path_dirname head0 else head0 in
  let tail := if String.eqb tail0 "" then os_path_basename head0 else tail0 in
  (negb (String.eqb head "") && negb (String.eqb tail "")
   && negb (exists_ head root))%bool = false.
Proof.
  intros Hs head0 tail0 head tail.
  destruct (String.eqb head "") eqn:Eh; [reflexivity|].
  destruct (String.eqb tail "") eqn:Et; [reflexivity|].
  cbn [negb andb]. apply negb_false_iff.
  assert (C : components name = components head ++ [tail]).
  { subst head tail. destruct (String.eqb tail0 "") eqn:E0.
    - apply String.eqb_eq in E0. apply String.eqb_neq in Et.
      rewrite <- (components_dirname_slash name E0).
      now apply components_dirname_basename.
    - apply String.eqb_neq in E0. now apply components_dirname_basename. }
  unfold stat_loc in Hs. destruct (String.eqb name ""); [discriminate|].
  rewrite C in Hs. destruct (walk_prefix _ _ _ _ _ _ Hs) as [l0 H0].
  unfold exists_, stat_loc. now rewrite Eh, H0.
Qed.

Lemma components_join_relative (a b : string) :
  os_path_isabs b = false ->
  components (os_path_join a b) = components a ++ components b.
Proof.
  intros Hb. unfold os_path_join. rewrite Hb.
  destruct (String.eqb a "") eqn:Ea.
  - apply String.eqb_eq in Ea. now subst a.
  - cbn [orb]. destruct (endswith_slash a) eqn:Es.
    + destruct (endswith_slash_inv _ Es) as [a' ->].
      rewrite app_assoc. change ("/" ++ b)%string with (String slash b).
      now rewrite components_app, components_snoc_slash.
    + change ("/" ++ b)%string with (String slash b).
      apply components_app.
Qed.

End ResolveLaws.

(* ================================================================== *)
(** * Entries below an entry *)

Module StagingLaws.
Import FS FSLaws.

(** ** What lies below an entry that was put *)

Lemma get_put_under (d : location) (n : string) (x root : node) (q : location) :
  peek root d = Some KDir ->
  get ((d ++ [n]) ++ q) (put d n x root) = get q x.
Proof.
  revert root. induction d as [|c d IH]; intros root Hd.
  - destruct root as [| |m es]; try discriminate.
    unfold put. cbn. now rewrite assoc_set_same.
  - destruct root as [| |m es]; try discriminate.
    rewrite peek_cons in Hd. unfold put. cbn.
    destruct (assoc c es) as [ch|] eqn:Ec; [|discriminate].
    cbn. rewrite assoc_set_same. exact (IH ch Hd).
Qed.

Lemma peek_put_under (d : location) (n : string) (x root : node) (q : location) :
  peek root d = Some KDir ->
  peek (put d n x root) ((d ++ [n]) ++ q) = peek x q.
Proof. intros H. unfold peek. now rewrite get_put_under. Qed.

Lemma alter_put_under (d : location) (n : string) (f : node -> node)
    (x root : node) (q : location) :
  alter ((d ++ [n]) ++ q) f (put d n x root) = put d n (alter q f x) root.
Proof.
  revert root. induction d as [|c d IH]; intros root.
  - destruct root as [| |m es]; try reflexivity.
    unfold put. cbn. rewrite assoc_set_same. cbn.
    now rewrite assoc_set_set.
  - destruct root as [| |m es]; try reflexivity.
    unfold put. cbn.
    destruct (assoc c es) as [ch|] eqn:Ec.
    + cbn. rewrite assoc_set_same. cbn.
      rewrite assoc_set_set. f_equal. f_equal. apply IH.
    + cbn. now rewrite Ec.
Qed.

Lemma put_put_under (d : location) (n : string) (x root : node)
    (q : location) (c : string) (y : node) :
  put ((d ++ [n]) ++ q) c y (put d n x root) = put d n (put q c y x) root.
Proof. unfold put at 1 3. apply alter_put_under. Qed.

(** ** Kinds and links under [alter] *)

Lemma alter_kind (q : location) (f : node -> node) (x : node) :
  kind_of x = KDir ->
  (forall y, kind_of y = KDir -> kind_of (f y) = KDir) ->
  kind_of (alter q f x) = KDir.
Proof.
  intros Hx Hf. destruct q as [|c q]; [now apply Hf|].
  destruct x as [| |m es]; try discriminate. cbn.
  now destruct (assoc c es).
Qed.

Lemma put_entry_kind (c : string) (y x : node) :
  kind_of x = KDir -> kind_of (put_entry c y x) = KDir.
Proof. now destruct x. Qed.

Lemma put_kind (q : location) (c : string) (y x : node) :
  kind_of x = KDir -> kind_of (put q c y x) = KDir.
Proof.
  intros Hx. apply alter_kind; [exact Hx|]. intros z. apply put_entry_kind.
Qed.

Lemma peek_alter_mode (q : location) (mode : Z) (x : node) (q' : location) :
  peek (alter q (set_mode mode) x) q' = peek x q'.
Proof.
  revert x q'. induction q as [|c q IH]; intros x q'.
  - destruct x as [| |m es]; destruct q'; reflexivity.
  - destruct x as [| |m es]; try reflexivity. cbn.
    destruct (assoc c es) as [ch|] eqn:Ec; [|reflexivity].
    destruct q' as [|c' q']; [reflexivity|].
    rewrite !peek_cons.
    destruct (string_dec c c') as [<-|Hne].
    + rewrite assoc_set_same, Ec. apply IH.
    + now rewrite assoc_set_other.
Qed.

Lemma linkfree_alter_mode (q : location) (mode : Z) (x : node) :
  linkfree x -> linkfree (alter q (set_mode mode) x).
Proof. intros H q' t. rewrite peek_alter_mode. apply H. Qed.

Lemma linkfree_child (m : Z) (es : list (string * node)) (c : string)
    (ch : node) :
  linkfree (Dir m es) -> assoc c es = Some ch -> linkfree ch.
Proof.
  intros H Hc q t. specialize (H (c :: q) t).
  now rewrite peek_cons, Hc in H.
Qed.

Lemma linkfree_put (q : location) (c : string) (y x : node) :
  linkfree x -> linkfree y -> linkfree (put q c y x).
Proof.
  intros Hx Hy. revert x Hx. induction q as [|a q IH]; intros x Hx q' t.
  - destruct x as [| |m es]; try apply Hx.
    unfold put. cbn. destruct q' as [|c' q']; [discriminate|].
    rewrite peek_cons.
    destruct (string_dec c c') as [<-|Hne].
    + rewrite assoc_set_same. apply Hy.
    + rewrite assoc_set_other by exact Hne.
      specialize (Hx (c' :: q') t). now rewrite peek_cons in Hx.
  - destruct x as [| |m es]; try apply Hx.
    unfold put. cbn.
    destruct (assoc a es) as [ch|] eqn:Ea; [|apply Hx].
    destruct q' as [|c' q']; [discriminate|].
    rewrite peek_cons.
    destruct (string_dec a c') as [<-|Hne].
    + rewrite assoc_set_same.
      exact (IH ch (linkfree_child _ _ _ _ Hx Ea) q' t).
    + rewrite assoc_set_other by exact Hne.
      specialize (Hx (c' :: q') t). now rewrite peek_cons in Hx.
Qed.

Lemma linkfree_empty (m : Z) : linkfree (Dir m []).
Proof. intros [|c q] t; discriminate. Qed.

Lemma linkfree_file (c : string) (t : Q) (m : Z) : linkfree (File c t m).
Proof. intros [|a q] t'; discriminate. Qed.

End StagingLaws.

(* ================================================================== *)
(** * Directories that stay in place *)

Module SpineLaws.
Import FS FSLaws.

Lemma is_prefix_length (l q : location) :
  is_prefix l q = true -> (length l <= length q)%nat.
Proof.
  revert q. induction l as [|a l IH]; intros q H; cbn; [lia|].
  destruct q as [|b q]; [discriminate|]. cbn in H.
  apply andb_true_iff in H. destruct H as [_ H].
  specialize (IH q H). cbn. lia.
Qed.

Lemma is_prefix_refl (l : location) : is_prefix l l = true.
Proof.
  induction l as [|a l IH]; [reflexivity|].
  cbn. now rewrite String.eqb_refl.
Qed.

Lemma is_prefix_antisym (l q : location) :
  is_prefix l q = true -> is_prefix q l = true -> l = q.
Proof.
  revert q. induction l as [|a l IH]; intros [|b q] H1 H2;
    try reflexivity; try discriminate.
  cbn in H1, H2.
  apply andb_true_iff in H1, H2. destruct H1 as [E H1], H2 as [_ H2].
  apply String.eqb_eq in E. subst b. now rewrite (IH q H1 H2).
Qed.

Lemma location_eqb_eq (l q : location) : location_eqb l q = true <-> l = q.
Proof.
  unfold location_eqb. split.
  - intros H. apply andb_true_iff in H. destruct H as [H1 H2].
    now apply is_prefix_antisym.
  - intros ->. now rewrite is_prefix_refl.
Qed.

Lemma is_prefix_snoc_snoc (p : location) (a b : string) :
  is_prefix (p ++ [a]) (p ++ [b]) = String.eqb a b.
Proof.
  induction p as [|c p IH]; cbn.
  - apply andb_true_r.
  - now rewrite String.eqb_refl, IH.
Qed.

(** A location that has something below it is a directory. *)
Lemma prefix_is_dir (root : node) (l q : location) (k : kind) :
  is_prefix l q = true ->
  peek root q = Some k ->
  l = q \/ peek root l = Some KDir.
Proof.
  revert root q. induction l as [|a l IH]; intros root q Hp Hq.
  - destruct q as [|c q]; [now left|]. right.
    destruct root; try discriminate. reflexivity.
  - destruct q as [|b q]; [discriminate|]. cbn in Hp.
    apply andb_true_iff in Hp. destruct Hp as [E Hp].
    apply String.eqb_eq in E. subst b.
    destruct root as [| |m es]; try discriminate.
    rewrite peek_cons in Hq |- *.
    destruct (assoc a es) as [ch|]; [|discriminate].
    destruct (IH ch q Hp Hq) as [->|H]; [now left|now right].
Qed.

Lemma peek_put_other (d : location) (n : string) (x root : node) (q : location) :
  is_prefix (d ++ [n]) q = false ->
  peek (put d n x root) q = peek root q.
Proof.
  revert root q. induction d as [|a d IH]; intros root q H.
  - destruct root as [| |m es]; try reflexivity.
    destruct q as [|c q]; [reflexivity|].
    unfold put. cbn [alter put_entry]. rewrite !peek_cons.
    cbn in H. rewrite andb_true_r in H. apply String.eqb_neq in H.
    now rewrite assoc_set_other.
  - destruct root as [| |m es]; try reflexivity.
    unfold put. cbn [alter].
    destruct (assoc a es) as [ch|] eqn:Ea; [|reflexivity].
    destruct q as [|c q]; [reflexivity|].
    rewrite !peek_cons. cbn in H.
    destruct (String.eqb a c) eqn:E.
    + apply String.eqb_eq in E. subst c. rewrite assoc_set_same, Ea.
      apply IH. exact H.
    + apply String.eqb_neq in E. now rewrite assoc_set_other.
Qed.

Lemma peek_del_other (d : location) (n : string) (root : node) (q : location) :
  is_prefix (d ++ [n]) q = false ->
  peek (del d n root) q = peek root q.
Proof.
  revert root q. induction d as [|a d IH]; intros root q H.
  - destruct root as [| |m es]; try reflexivity.
    destruct q as [|c q]; [reflexivity|].
    unfold del. cbn [alter del_entry]. rewrite !peek_cons.
    cbn in H. rewrite andb_true_r in H. apply String.eqb_neq in H.
    now rewrite assoc_del_other.
  - destruct root as [| |m es]; try reflexivity.
    unfold del. cbn [alter].
    destruct (assoc a es) as [ch|] eqn:Ea; [|reflexivity].
    destruct q as [|c q]; [reflexivity|].
    rewrite !peek_cons. cbn in H.
    destruct (String.eqb a c) eqn:E.
    + apply String.eqb_eq in E. subst c. rewrite assoc_set_same, Ea.
      apply IH. exact H.
    + apply String.eqb_neq in E. now rewrite assoc_set_other.
Qed.

(** ** Spines *)

Lemma spine_extends (root root' : node) (e : location) :
  extends root root' -> spine root e -> spine root' e.
Proof. intros Hx H i. apply Hx, H. Qed.

Lemma spine_self (root : node) (e : location) :
  spine root e -> peek root e = Some KDir.
Proof. intros H. specialize (H (length e)). now rewrite firstn_all in H. Qed.

Lemma spine_app (root : node) (p q : location) :
  spine root (p ++ q) -> spine root p.
Proof.
  intros H i. destruct (Nat.le_gt_cases i (length p)) as [Hi|Hi].
  - specialize (H i). rewrite firstn_app in H.
    replace (i - length p)%nat with 0%nat in H by lia.
    cbn in H. now rewrite List.app_nil_r in H.
  - rewrite firstn_all2 by lia.
    specialize (H (length p)). rewrite firstn_app, firstn_all in H.
    replace (length p - length p)%nat with 0%nat in H by lia.
    cbn in H. now rewrite List.app_nil_r in H.
Qed.

Lemma spine_snoc (root : node) (p : location) (n : string) :
  spine root p -> peek root (p ++ [n]) = Some KDir -> spine root (p ++ [n]).
Proof.
  intros H Hn i. destruct (Nat.le_gt_cases i (length p)) as [Hi|Hi].
  - rewrite firstn_app. replace (i - length p)%nat with 0%nat by lia.
    cbn. rewrite List.app_nil_r. apply H.
  - rewrite firstn_all2; [exact Hn|]. rewrite length_app. cbn. lia.
Qed.

(** Changing an entry that is no directory of the spine, and is not
    above one, leaves the spine alone. *)
Lemma spine_put_aside (root : node) (e d : location) (n : string) (x : node) :
  spine root e ->
  (forall i, is_prefix (d ++ [n]) (firstn i e) = false) ->
  spine (put d n x root) e.
Proof. intros H Ha i. rewrite peek_put_other by apply Ha. apply H. Qed.

Lemma spine_del_aside (root : node) (e d : location) (n : string) :
  spine root e ->
  (forall i, is_prefix (d ++ [n]) (firstn i e) = false) ->
  spine (del d n root) e.
Proof. intros H Ha i. rewrite peek_del_other by apply Ha. apply H. Qed.

Lemma aside_of_nondir (root : node) (e l : location) :
  spine root e ->
  peek root l <> Some KDir ->
  forall i, is_prefix l (firstn i e) = false.
Proof.
  intros H Hl i. destruct (is_prefix l (firstn i e)) eqn:E; [|reflexivity].
  exfalso. destruct (prefix_is_dir root l (firstn i e) KDir E (H i)) as [->|Hd].
  - apply Hl, H.
  - exact (Hl Hd).
Qed.

Lemma aside_of_sibling (p : location) (a b : string) :
  a <> b ->
  forall i, is_prefix (p ++ [a]) (firstn i (p ++ [b])) = false.
Proof.
  intros Hne i. destruct (Nat.le_gt_cases i (length p)) as [Hi|Hi].
  - destruct (is_prefix (p ++ [a]) (firstn i (p ++ [b]))) eqn:E;
      [|reflexivity].
    apply is_prefix_length in E.
    rewrite length_app, length_firstn, length_app in E. cbn in E. lia.
  - rewrite firstn_all2 by (rewrite length_app; cbn; lia).
    rewrite is_prefix_snoc_snoc. now apply String.eqb_neq.
Qed.

(** ** Resolution along a spine *)

Lemma walk1_spine (root : node) (cs : list string) (cur : location) :
  no_dots cs = true ->
  (forall i, peek root (cur ++ firstn i cs) = Some KDir) ->
  walk1 root cur cs = Done (cur ++ cs).
Proof.
  revert cur. induction cs as [|c cs IH]; intros cur Hd H.
  - cbn. now rewrite List.app_nil_r.
  - cbn in Hd. apply andb_true_iff in Hd. destruct Hd as [Hc Hd].
    unfold is_dots in Hc. apply negb_true_iff, orb_false_iff in Hc.
    destruct Hc as [E1 E2]. cbn [walk1]. rewrite E1, E2.
    pose proof (H 1%nat) as H1. cbn in H1. rewrite H1.
    rewrite (IH (cur ++ [c]) Hd).
    + now rewrite <- List.app_assoc.
    + intros i. specialize (H (S i)). cbn in H.
      now rewrite <- List.app_assoc.
Qed.

Lemma walk_spine (links : nat) (root : node) (e : location) :
  no_dots e = true -> spine root e -> walk links root [] e = Ok e.
Proof.
  intros Hd H.
  assert (W : walk1 root [] e = Done e) by (now apply (walk1_spine root e [])).
  destruct links; cbn; now rewrite W.
Qed.

Lemma parent_loc_spine (root : node) (path : string) (p : location) (n : string) :
  no_dots p = true -> spine root p ->
  components path = p ++ [n] ->
  is_dots n = false ->
  parent_loc root path = Ok (p, n).
Proof.
  intros Hd H Hc Hn. unfold parent_loc.
  rewrite Hc, rev_app_distr. cbn [rev List.app]. rewrite Hn, rev_involutive.
  rewrite (walk_spine _ root p Hd H). cbn. now rewrite (spine_self root p H).
Qed.

Lemma stat_loc_spine (root : node) (path : string) (e : location) :
  no_dots e = true -> spine root e ->
  components path = e -> String.eqb path "" = false ->
  stat_loc root path = Ok e.
Proof.
  intros Hd H Hc Hp. unfold stat_loc. rewrite Hp, Hc.
  now apply walk_spine.
Qed.

End SpineLaws.

(* ================================================================== *)
(** * Properties *)

Local Open Scope Q_scope.

Lemma Qltb_lt (a b : Q) : a < b -> Qltb a b = true.
Proof.
  intros H. unfold Qltb.
  destruct (Qle_bool b a) eqn:E; [|reflexivity].
  apply Qle_bool_iff in E. exfalso. exact (Qlt_not_le _ _ H E).
Qed.

Lemma Qltb_ge (a b : Q) : b <= a -> Qltb a b = false.
Proof.
  intros H. unfold Qltb. apply Qle_bool_iff in H. now rewrite H.
Qed.

Local Close Scope Q_scope.

(** ** The metadata cache *)

(** C4.  A cache file that can be opened, whose modification time is
    less than 24 hours away from the clock in either direction, and
    whose text parses, is returned as parsed; the world is left as it
    was, so no request is issued. *)
Theorem C4_fresh_cache_no_network
    (RT : string) (jl : string -> option json) (w : world)
    (text : string) (mtime : Q) (d : json) :
  FS.open_read (latest_release_json_path RT) (fs w) = Ok (text, mtime) ->
  (Qabs (clock w - mtime) < inject_Z 86400)%Q ->
  jl text = Some d ->
  _download_latest_release_json RT jl w = (Return d, w).
Proof.
  intros Hopen Hage Hparse.
  unfold _download_latest_release_json, read_cache_if_fresh, try_except,
    py_open_r, sys_read, time_time, json_load, bind, ret.
  rewrite Hopen. cbn [fst snd file_text file_mtime].
  unfold _CACHE_TIME. rewrite (Qltb_lt _ _ Hage).
  now rewrite Hparse.
Qed.

Lemma C4_fresh_cache_no_network_witness :
  let w := Demo.world_with Demo.offline
             [("latest.json", File Demo.release_text (inject_Z 103600) 420)] in
  _download_latest_release_json Demo.RUNTIME_DIR Demo.json_loads w
  = (Return Demo.release_doc, w).
Proof.
  intro w.
  apply (@C4_fresh_cache_no_network Demo.RUNTIME_DIR Demo.json_loads w
           Demo.release_text (inject_Z 103600) Demo.release_doc).
  - reflexivity.
  - reflexivity.
  - reflexivity.
Defined.

Lemma read_cache_if_fresh_unopened (jl : string -> option json)
    (lp : string) (w : world) (e : errno) :
  FS.open_read lp (fs w) = Err e ->
  read_cache_if_fresh jl lp w = (Return None, w).
Proof.
  intros H.
  unfold read_cache_if_fresh, try_except, py_open_r, sys_read, bind.
  rewrite H. now destruct e.
Qed.

Lemma read_stale_cache_eq (jl : string -> option json)
    (lp : string) (exception : exn) (w : world) :
  read_stale_cache jl lp exception w =
  match FS.open_read lp (fs w) with
  | Ok (text, _) =>
      match jl text with
      | Some d => (Return d, w)
      | None => (Raise (mkExn JSONDecodeError "Expecting value"), w)
      end
  | Err _ => (Raise exception, w)
  end.
Proof.
  unfold read_stale_cache, try_except, py_open_r, sys_read, json_load, bind, ret.
  destruct (FS.open_read lp (fs w)) as [[text mt]|e].
  - cbn [fst snd file_text]. now destruct (jl text).
  - now destruct e.
Qed.

(** C3, as the code has it.  When the fetch, the validation or the
    write of the cache file fails with [e], the cached file decides: if
    it opens and parses, its parsed content is returned; if it cannot be
    opened, whether because it is absent or for any other [OSError], [e]
    is raised; if it opens and does not parse, the parser's error is
    raised. *)
Theorem C3_stale_fallback
    (RT : string) (jl : string -> option json) (w w1 w2 : world) (e : exn) :
  read_cache_if_fresh jl (latest_release_json_path RT) w = (Return None, w) ->
  os_makedirs (os_path_dirname (latest_release_json_path RT)) w
    = (Return tt, w1) ->
  fetch_validate_store jl (latest_release_json_path RT) w1 = (Raise e, w2) ->
  _download_latest_release_json RT jl w =
  match FS.open_read (latest_release_json_path RT) (fs w2) with
  | Ok (text, _) =>
      match jl text with
      | Some d => (Return d, w2)
      | None => (Raise (mkExn JSONDecodeError "Expecting value"), w2)
      end
  | Err _ => (Raise e, w2)
  end.
Proof.
  intros Hc Hm Hf.
  unfold _download_latest_release_json, bind, try_except.
  rewrite Hc, Hm, Hf. apply read_stale_cache_eq.
Qed.

Lemma C3_stale_fallback_witness :
  let w := Demo.world_with Demo.offline
             [("latest.json", File Demo.release_text 0 420)] in
  _download_latest_release_json Demo.RUNTIME_DIR Demo.json_loads w
  = (Return Demo.release_doc, add_event (EvGet latest_release_url) w).
Proof.
  intro w.
  exact (@C3_stale_fallback Demo.RUNTIME_DIR Demo.json_loads w w
           (add_event (EvGet latest_release_url) w)
           (mkExn HTTPError latest_release_url)
           eq_refl eq_refl eq_refl).
Defined.

(** C3 as stated fails: the cached file exists but cannot be read, the
    release API cannot be reached, and the failure of the fetch is
    raised although a cached file exists. *)
Lemma C3_counterexample :
  let w := Demo.world_with Demo.offline
             [("latest.json", File Demo.release_text 0 0)] in
  ~ (fst (_download_latest_release_json Demo.RUNTIME_DIR Demo.json_loads w)
       = Raise (mkExn HTTPError latest_release_url)
     <-> FS.lstat (fs w) (latest_release_json_path Demo.RUNTIME_DIR)
         = Err ENOENT).
Proof.
  intros w [H _].
  assert (E : FS.lstat (fs w) (latest_release_json_path Demo.RUNTIME_DIR)
              = Ok KFile) by reflexivity.
  rewrite H in E; [discriminate | reflexivity].
Qed.

(** ** Validation *)

Lemma find_asset_url_matches (l : list json) (u : json) :
  find_asset_url l = Return u -> existsb asset_matches l = true.
Proof.
  induction l as [|a l IH]; cbn [find_asset_url existsb]; [discriminate|].
  unfold rbind. intros H.
  destruct (py_getitem a "name") as [n|] eqn:En; [|discriminate].
  destruct n; cbn [re_fullmatch] in H; try discriminate.
  destruct (Regex.fullmatch _ASSET_NAME_REGEX s) eqn:Em.
  - assert (Ha : asset_matches a = true)
      by (unfold asset_matches; now rewrite En).
    now rewrite Ha.
  - rewrite (IH H). apply orb_true_r.
Qed.

Lemma validate_accepts (data : json) :
  is_raise (_validate_release_info data) = false ->
  _validate_release_info data = Return JNull
  /\ is_raise (py_getitem data "tag_name") = false
  /\ has_matching_asset data = true.
Proof.
  unfold _validate_release_info, _get_download_url_from_json,
    has_matching_asset, rbind.
  destruct (py_getitem data "tag_name"); [|discriminate].
  destruct (py_getitem data "assets") as [assets|]; [|discriminate].
  destruct (py_iter assets) as [l|]; [|discriminate].
  destruct (find_asset_url l) eqn:E; [|discriminate].
  intros _. repeat split. exact (find_asset_url_matches _ _ E).
Qed.

(** C9, as the code has it.  A release info without the key [tag_name],
    or without an asset whose name matches the pattern, is rejected; when
    such a document is fetched, the [try] body raises before anything is
    written, so the document is neither returned nor cached.  (An empty
    tag is not looked at.) *)
Theorem C9_invalid_release_info_rejected
    (jl : string -> option json) (data : json) :
  is_raise (py_getitem data "tag_name") = true
  \/ has_matching_asset data = false ->
  is_raise (_validate_release_info data) = true
  /\ forall (local_path : string) (w : world) (content : string),
       remote w latest_release_url = Some content ->
       jl content = Some data ->
       exists e,
         fetch_validate_store jl local_path w
         = (Raise e, add_event (EvGet latest_release_url) w).
Proof.
  intros H.
  assert (R : is_raise (_validate_release_info data) = true).
  { destruct (is_raise (_validate_release_info data)) eqn:E; [reflexivity|].
    destruct (validate_accepts _ E) as (_ & Ht & Ha).
    destruct H as [H|H]; congruence. }
  split; [exact R|].
  intros lp w content Hr Hj.
  unfold fetch_validate_store, request_get, request_json, lift, bind.
  rewrite Hr, Hj. unfold ret.
  destruct (_validate_release_info data) as [x|e]; [discriminate|].
  now exists e.
Qed.

Lemma C9_invalid_release_info_rejected_witness :
  is_raise (_validate_release_info Demo.scenario_doc) = true
  /\ forall (local_path : string) (w : world) (content : string),
       remote w latest_release_url = Some content ->
       Demo.json_loads content = Some Demo.scenario_doc ->
       exists e,
         fetch_validate_store Demo.json_loads local_path w
         = (Raise e, add_event (EvGet latest_release_url) w).
Proof.
  apply (@C9_invalid_release_info_rejected Demo.json_loads Demo.scenario_doc).
  right. reflexivity.
Defined.

(** C9 as stated fails: a release info with an empty tag passes the
    validation, and a fetch of it is written to the cache file. *)
Lemma C9_counterexample :
  let w := Demo.world_with (Demo.online Demo.empty_tag_text) [] in
  py_getitem Demo.empty_tag_doc "tag_name" = Return (JStr "")
  /\ ~ is_raise (_validate_release_info Demo.empty_tag_doc) = true
  /\ FS.open_read (latest_release_json_path Demo.RUNTIME_DIR)
       (fs (snd (_download_latest_release_json
                   Demo.RUNTIME_DIR Demo.json_loads w)))
     = Ok (Demo.empty_tag_text, clock w).
Proof.
  intro w. split; [reflexivity|]. split; [|reflexivity].
  vm_compute. discriminate.
Qed.

(** ** The fresh fetch *)

(** C2 fails on the code.  When the cache is not used, the fetch
    succeeds, the document passes the validation and the cache file is
    written, the function returns [None], the value of
    [_validate_release_info], and not the parsed document. *)
Theorem C2_fresh_fetch_returns_None
    (RT : string) (jl : string -> option json) (w w1 w2 : world)
    (content : string) (parsed : json) :
  read_cache_if_fresh jl (latest_release_json_path RT) w = (Return None, w) ->
  os_makedirs (os_path_dirname (latest_release_json_path RT)) w
    = (Return tt, w1) ->
  remote w1 latest_release_url = Some content ->
  jl content = Some parsed ->
  is_raise (_validate_release_info parsed) = false ->
  safe_write_file (latest_release_json_path RT) content
    (add_event (EvGet latest_release_url) w1) = (Return tt, w2) ->
  _download_latest_release_json RT jl w = (Return JNull, w2)
  /\ JNull <> parsed.
Proof.
  intros Hc Hm Hr Hj Hv Hs.
  destruct (validate_accepts _ Hv) as (Hval & Htag & _).
  split.
  - unfold _download_latest_release_json, bind, try_except.
    rewrite Hc, Hm.
    unfold fetch_validate_store, request_get, request_json, lift, bind, ret.
    now rewrite Hr, Hj, Hval, Hs.
  - intros <-. discriminate.
Qed.

Lemma C2_fresh_fetch_returns_None_witness :
  let w := Demo.world_with (Demo.online Demo.release_text) [] in
  exists w2,
    (_download_latest_release_json Demo.RUNTIME_DIR Demo.json_loads w
     = (Return JNull, w2)
     /\ JNull <> Demo.release_doc)
    /\ FS.open_read (latest_release_json_path Demo.RUNTIME_DIR) (fs w2)
       = Ok (Demo.release_text, clock w).
Proof.
  intro w.
  eexists. split.
  - apply (@C2_fresh_fetch_returns_None Demo.RUNTIME_DIR Demo.json_loads
             w w _ Demo.release_text Demo.release_doc);
      vm_compute; reflexivity.
  - vm_compute. reflexivity.
Defined.

(** Line 190 of [download] parses the value of
    [_download_latest_release_json] with [json.loads]: a value that is
    not a string, as the parsed document of the cache or the [None] of
    the fresh fetch, raises [TypeError] there. *)
Lemma download_needs_text
    (RT : string) (jl : string -> option json) (td : string -> option archive)
    (w w1 : world) (d : json) :
  _download_latest_release_json RT jl w = (Return d, w1) ->
  (forall s, d <> JStr s) ->
  download RT jl td w
  = (Raise (mkExn TypeError "the JSON object must be str, bytes or bytearray"),
     w1).
Proof.
  intros H Hd. unfold download, bind. rewrite H.
  destruct d; try reflexivity. now destruct (Hd s).
Qed.

(** ** The scenario of the specification *)

(** C1, as the code has it.  The asset name
    [winestreamproxy-x86_64.tar.gz] does not match the pattern, which
    asks for [.x86_64.tar] after the prefix, so the lookup of the
    download URL raises.  With the runtime directory in place, no cached
    file and the release API answering the scenario document, [download]
    raises that error having only issued the request: nothing is
    installed. *)
Theorem C1_scenario_asset_rejected
    (RT : string) (jl : string -> option json) (td : string -> option archive)
    (w : world) (content : string) :
  FS.open_read (latest_release_json_path RT) (fs w) = Err ENOENT ->
  os_makedirs (os_path_dirname (latest_release_json_path RT)) w
    = (Return tt, w) ->
  remote w latest_release_url = Some content ->
  jl content = Some Demo.scenario_doc ->
  _get_download_url_from_json Demo.scenario_doc
    = Raise (mkExn ValueError "Could not find download url in release info")
  /\ download RT jl td w
     = (Raise (mkExn ValueError "Could not find download url in release info"),
        add_event (EvGet latest_release_url) w).
Proof.
  intros Ho Hm Hr Hj. split; [reflexivity|].
  unfold download, bind.
  unfold _download_latest_release_json, bind, try_except.
  rewrite (read_cache_if_fresh_unopened jl _ _ _ Ho), Hm.
  unfold fetch_validate_store, request_get, request_json, lift, bind, ret.
  rewrite Hr, Hj.
  replace (_validate_release_info Demo.scenario_doc)
    with (@Raise json (mkExn ValueError
                         "Could not find download url in release info"))
    by reflexivity.
  rewrite read_stale_cache_eq. cbn [fs add_event]. now rewrite Ho.
Qed.

Lemma C1_scenario_asset_rejected_witness :
  let w := Demo.world_with (Demo.online Demo.scenario_text) [] in
  _get_download_url_from_json Demo.scenario_doc
    = Raise (mkExn ValueError "Could not find download url in release info")
  /\ download Demo.RUNTIME_DIR Demo.json_loads Demo.tar_decode w
     = (Raise (mkExn ValueError "Could not find download url in release info"),
        add_event (EvGet latest_release_url) w).
Proof.
  intro w.
  apply (@C1_scenario_asset_rejected Demo.RUNTIME_DIR Demo.json_loads
           Demo.tar_decode w Demo.scenario_text);
    vm_compute; reflexivity.
Defined.

(** C1 as stated fails: on a machine with an empty runtime directory and
    the release API answering the scenario document, [download] does
    not succeed. *)
Lemma C1_counterexample :
  let w := Demo.world_with (Demo.online Demo.scenario_text) [] in
  ~ exists w',
      download Demo.RUNTIME_DIR Demo.json_loads Demo.tar_decode w
      = (Return tt, w')
      /\ FS.isdir (Demo.subdir "extracted.v1.2.0") (fs w') = true
      /\ FS.readlink (Demo.subdir "latest") (fs w')
         = Ok (Demo.subdir "extracted.v1.2.0")
      /\ FS.lstat (fs w') (Demo.subdir "latest.v1.2.0") = Err ENOENT.
Proof.
  intros w (w' & H & _).
  vm_compute in H. discriminate.
Qed.

(* ================================================================== *)
(** * The archive installer *)

Import FSLaws.

Lemma tmp_loop_mkdir_inv (tries : nat) (dir pre : string) (w : world)
    (r : result (unit * string)) (w' : world) :
  tmp_loop tries dir pre
    (fun file root =>
       match FS.mkdir file 448 root with
       | Ok r => Ok (tt, r)
       | Err e => Err e
       end) w = (r, w') ->
  log w' = log w
  /\ match r with
     | Return (_, file) =>
         exists d n,
           FS.parent_loc (fs w) file = Ok (d, n)
           /\ FS.peek (fs w) (d ++ [n]) = None
           /\ fs w' = FS.put d n (Dir 448 []) (fs w)
     | Raise _ => fs w' = fs w
     end.
Proof.
  revert w. induction tries as [|tries IH]; intros w H; cbn [tmp_loop] in H.
  - injection H as <- <-. now split.
  - destruct (rng w) as [|seed g]; [injection H as <- <-; now split|].
    unfold FS.mkdir in H.
    destruct (FS.parent_loc (fs w)
                (os_path_join dir (pre ++ tmp_name seed)%string))
      as [[d n]|e] eqn:Ep; cbn [sbind fst snd] in H.
    + destruct (FS.peek (fs w) (d ++ [n])) eqn:Ek.
      * destruct (IH _ H) as [Hl Hr]. split; [exact Hl|].
        destruct r as [[u file]|]; exact Hr.
      * injection H as <- <-. split; [reflexivity|].
        exists d, n. now repeat split.
    + destruct e; try (injection H as <- <-; now split).
      destruct (IH _ H) as [Hl Hr]. split; [exact Hl|].
      destruct r as [[u file]|]; exact Hr.
Qed.

Lemma tempfile_mkdtemp_inv (dir pre : string) (w : world)
    (r : result string) (w' : world) :
  tempfile_mkdtemp dir pre w = (r, w') ->
  match r with
  | Return temp_dir =>
      exists d n,
        FS.parent_loc (fs w) temp_dir = Ok (d, n)
        /\ FS.peek (fs w) (d ++ [n]) = None
        /\ fs w' = FS.put d n (Dir 448 []) (fs w)
  | Raise _ => fs w' = fs w
  end.
Proof.
  unfold tempfile_mkdtemp, bind, ret.
  destruct (tmp_loop _ _ _ _ w) as [[[u file]|e] w1] eqn:E;
    intros [= <- <-]; exact (proj2 (tmp_loop_mkdir_inv _ _ _ _ _ _ E)).
Qed.

(** A path that names a directory just put where nothing was. *)
Lemma staged_resolves (root : node) (path : string) (d : location)
    (n : string) (x : node) :
  FS.parent_loc root path = Ok (d, n) ->
  FS.peek root (d ++ [n]) = None ->
  kind_of x = KDir ->
  FS.stat_loc (FS.put d n x root) path = Ok (d ++ [n])
  /\ FS.lstat_loc (FS.put d n x root) path = Ok (d ++ [n])
  /\ FS.peek (FS.put d n x root) (d ++ [n]) = Some KDir.
Proof.
  intros Hp Hn Hx.
  destruct (parent_loc_inv _ _ _ _ Hp) as (_ & _ & _ & _ & Hd).
  pose proof (parent_loc_mono _ _ _ _ _ (extends_put d n x root Hn) Hp) as Hp'.
  pose proof (peek_put_same d n x root Hd) as Hk. rewrite Hx in Hk.
  split; [|split; [|exact Hk]].
  - apply (stat_loc_entry _ _ _ _ KDir Hp' Hk). discriminate.
  - now rewrite (lstat_loc_entry _ _ _ _ Hp'), Hk.
Qed.

Lemma set_mode_kind (mode : Z) (x : node) :
  kind_of (FS.set_mode mode x) = kind_of x.
Proof. now destruct x. Qed.

Lemma tmp_loop_frame {A : Type} (tries : nat) (dir pre : string)
    (create : string -> node -> sys (A * node)) (w : world) :
  log (snd (tmp_loop tries dir pre create w)) = log w
  /\ remote (snd (tmp_loop tries dir pre create w)) = remote w
  /\ clock (snd (tmp_loop tries dir pre create w)) = clock w.
Proof.
  revert w. induction tries as [|tries IH]; intros w; cbn [tmp_loop].
  - now repeat split.
  - destruct (rng w) as [|seed g]; [now repeat split|].
    destruct (create _ (fs w)) as [[a r]|e]; [now repeat split|].
    destruct e; try (now repeat split).
    destruct (IH (set_rng g w)) as (H1 & H2 & H3). now repeat split.
Qed.

Lemma tempfile_mkdtemp_frame (dir pre : string) (w : world) :
  log (snd (tempfile_mkdtemp dir pre w)) = log w
  /\ remote (snd (tempfile_mkdtemp dir pre w)) = remote w.
Proof.
  unfold tempfile_mkdtemp, bind, ret.
  pose proof (tmp_loop_frame TMP_MAX dir pre
                (fun file root =>
                   match FS.mkdir file 448 root with
                   | Ok r => Ok (tt, r)
                   | Err e => Err e
                   end) w) as (H1 & H2 & _).
  destruct (tmp_loop _ _ _ _ w) as [[[u file]|e] w1]; now split.
Qed.

(** The two parts [os.makedirs] splits a name into. *)
Lemma components_makedirs_split (name : string) :
  let head0 := os_path_dirname name in
  let tail0 := os_path_basename name in
  let head := if String.eqb tail0 "" then os_path_dirname head0 else head0 in
  let tail := if String.eqb tail0 "" then os_path_basename head0 else tail0 in
  String.eqb tail "" = false ->
  components name = components head ++ [tail].
Proof.
  intros head0 tail0 head tail Et. apply String.eqb_neq in Et.
  subst head tail. destruct (String.eqb tail0 "") eqn:E0.
  - apply String.eqb_eq in E0.
    rewrite <- (ResolveLaws.components_dirname_slash name E0).
    now apply PathLaws.components_dirname_basename.
  - now apply PathLaws.components_dirname_basename.
Qed.

Section Staging.
Import FS ResolveLaws StagingLaws.

(** The staging directory [T] is the entry [n] of the directory at [d],
    and [root] is the file system without it. *)
Variables (root : node) (T : string) (d : location) (n : string).
Hypothesis Hp : parent_loc root T = Ok (d, n).
Hypothesis Hn : peek root (d ++ [n]) = None.

Lemma staging_parent : peek root d = Some KDir.
Proof. now destruct (parent_loc_inv _ _ _ _ Hp) as (_ & _ & _ & _ & H). Qed.

Lemma staging_walk (x : node) :
  kind_of x = KDir ->
  walk MAXSYMLINKS (put d n x root) [] (components T) = Ok (d ++ [n])
  /\ peek (put d n x root) (d ++ [n]) = Some KDir.
Proof.
  intros Hx. destruct (staged_resolves _ _ _ _ x Hp Hn Hx) as (Hs & _ & Hk).
  split; [|exact Hk].
  destruct (parent_loc_inv _ _ _ _ Hp) as (rinit & Hr & _).
  unfold stat_loc in Hs. now rewrite (path_nonempty _ _ _ Hr) in Hs.
Qed.

Lemma walk1_inside (x : node) (cs : list string) (q0 : location) :
  linkfree x -> no_dotdot cs = true ->
  (exists q, walk1 (put d n x root) ((d ++ [n]) ++ q0) cs
             = Done ((d ++ [n]) ++ q))
  \/ exists e, walk1 (put d n x root) ((d ++ [n]) ++ q0) cs = Fail e.
Proof.
  intros Hl. revert q0. induction cs as [|c cs IH]; intros q0 Hc.
  - left. now exists q0.
  - cbn in Hc. apply andb_true_iff in Hc. destruct Hc as [Hc Hcs].
    apply negb_true_iff in Hc. cbn [walk1]. rewrite Hc.
    destruct (String.eqb c "."); [now apply IH|].
    rewrite <- (app_assoc (d ++ [n]) q0 [c]).
    rewrite (peek_put_under _ _ _ _ _ staging_parent).
    destruct (peek x (q0 ++ [c])) as [[| |]|] eqn:E.
    + destruct cs; [left; now exists (q0 ++ [c])|right; now exists ENOTDIR].
    + now destruct (Hl _ _ E).
    + now apply IH.
    + right. now exists ENOENT.
Qed.

Lemma walk_inside (x : node) (cs : list string) (l : location) :
  kind_of x = KDir -> linkfree x -> no_dotdot cs = true ->
  walk MAXSYMLINKS (put d n x root) [] (components T ++ cs) = Ok l ->
  exists q, l = (d ++ [n]) ++ q.
Proof.
  intros Hx Hl Hc H. destruct (staging_walk x Hx) as [Hw Hk].
  destruct (walk1_inside x cs [] Hl Hc) as [[q E]|[e E]];
    rewrite app_nil_r in E.
  - rewrite (walk_app _ _ _ _ _ _ _ Hw Hk E) in H. injection H as <-.
    now exists q.
  - rewrite (walk_app_fail _ _ _ _ _ _ _ Hw Hk E) in H. discriminate.
Qed.

Lemma stat_inside (x : node) (path : string) (l : location) :
  kind_of x = KDir -> linkfree x -> inside T path ->
  stat_loc (put d n x root) path = Ok l ->
  exists q, l = (d ++ [n]) ++ q.
Proof.
  intros Hx Hl (cs & Hc & Hcs) H. unfold stat_loc in H.
  destruct (String.eqb path ""); [discriminate|]. rewrite Hc in H.
  exact (walk_inside x cs l Hx Hl Hcs H).
Qed.

Lemma no_dotdot_app (a b : list string) :
  no_dotdot (a ++ b) = (no_dotdot a && no_dotdot b)%bool.
Proof. apply forallb_app. Qed.

Lemma snoc_cases {A} (l : list A) : l = [] \/ exists l0 a, l = l0 ++ [a].
Proof.
  destruct l as [|a l] using rev_ind; [now left|]. right. now exists l, a.
Qed.

(** The directory in which the last component of such a path is looked
    up: the directory of the staging directory, for the staging
    directory itself, and a directory below the staging directory
    otherwise. *)
Lemma last_inside (x : node) (path : string) (c : string) (rinit : list string)
    (dd : location) :
  kind_of x = KDir -> linkfree x -> inside T path ->
  rev (components path) = c :: rinit ->
  walk MAXSYMLINKS (put d n x root) [] (rev rinit) = Ok dd ->
  (dd = d /\ c = n) \/ exists q, dd = (d ++ [n]) ++ q.
Proof.
  intros Hx Hl (cs & Hc & Hcs) Hr Hw.
  assert (Hcp : components path = rev rinit ++ [c])
    by (rewrite <- (rev_involutive (components path)), Hr; reflexivity).
  destruct (snoc_cases cs) as [->|(cs0 & a & ->)].
  - left. rewrite app_nil_r in Hc.
    destruct (parent_loc_inv _ _ _ _ Hp) as (ri & Hri & _ & Hwi & _).
    rewrite Hc, Hri in Hr. injection Hr as <- <-.
    rewrite (walk_mono _ _ _ _ _ _ (extends_put d n x root Hn) Hwi) in Hw.
    injection Hw as <-. now split.
  - right. rewrite Hcp, app_assoc in Hc. apply app_inj_tail in Hc.
    destruct Hc as [Hc _]. rewrite Hc in Hw.
    rewrite no_dotdot_app in Hcs. apply andb_true_iff in Hcs.
    exact (walk_inside x cs0 dd Hx Hl (proj1 Hcs) Hw).
Qed.

Lemma parent_inside (x : node) (path : string) (dd : location) (nn : string) :
  kind_of x = KDir -> linkfree x -> inside T path ->
  parent_loc (put d n x root) path = Ok (dd, nn) ->
  (dd = d /\ nn = n) \/ exists q, dd = (d ++ [n]) ++ q.
Proof.
  intros Hx Hl Hi H.
  destruct (parent_loc_inv _ _ _ _ H) as (rinit & Hr & _ & Hw & _).
  exact (last_inside x path nn rinit dd Hx Hl Hi Hr Hw).
Qed.

Lemma creat_inside (x : node) (path : string) (dd : location) (nn : string) :
  kind_of x = KDir -> linkfree x -> inside T path ->
  creat_loc MAXSYMLINKS (put d n x root) [] (components path) = Ok (dd, nn) ->
  (dd = d /\ nn = n) \/ exists q, dd = (d ++ [n]) ++ q.
Proof.
  intros Hx Hl Hi. unfold MAXSYMLINKS at 1. cbn [creat_loc].
  destruct (rev (components path)) as [|c rinit] eqn:Hr; [discriminate|].
  destruct (is_dots c).
  { destruct (walk _ _ _ _); discriminate. }
  destruct (walk MAXSYMLINKS (put d n x root) [] (rev rinit)) as [d0|] eqn:Hw;
    [|discriminate].
  cbn [sbind].
  destruct (last_inside x path c rinit d0 Hx Hl Hi Hr Hw) as [[-> ->]|[q ->]].
  - rewrite (extends_put d n x root Hn _ _ staging_parent).
    rewrite (proj2 (staging_walk x Hx)). intros [= <- <-]. now left.
  - destruct (peek (put d n x root) ((d ++ [n]) ++ q)) as [[| |]|];
      try discriminate.
    rewrite <- (app_assoc (d ++ [n]) q [c]).
    rewrite (peek_put_under _ _ _ _ _ staging_parent).
    destruct (peek x (q ++ [c])) as [[| |]|] eqn:E;
      try (intros [= <- <-]; right; now exists q).
    now destruct (Hl _ _ E).
Qed.

(** ** System calls on such paths stay in the staging directory *)

Lemma mkdir_inside (path : string) (mode : Z) (r r' : node) :
  staging root d n r -> inside T path ->
  mkdir path mode r = Ok r' -> staging root d n r'.
Proof.
  intros (x & Hx & Hl & ->) Hi. unfold mkdir.
  destruct (parent_loc (put d n x root) path) as [[dd nn]|] eqn:E;
    [|discriminate].
  cbn [sbind fst snd].
  destruct (peek (put d n x root) (dd ++ [nn])) eqn:Ek; [discriminate|].
  intros [= <-].
  destruct (parent_inside x path dd nn Hx Hl Hi E) as [[-> ->]|[q ->]].
  - rewrite (proj2 (staging_walk x Hx)) in Ek. discriminate.
  - rewrite put_put_under. exists (put q nn (Dir mode []) x).
    split; [now apply put_kind|]. split; [|reflexivity].
    apply linkfree_put; [exact Hl|apply linkfree_empty].
Qed.

Lemma write_file_inside (path content : string) (mtime : Q) (mode : Z)
    (r r' : node) :
  staging root d n r -> inside T path ->
  write_file path content mtime mode r = Ok r' -> staging root d n r'.
Proof.
  intros (x & Hx & Hl & ->) Hi. unfold write_file.
  destruct (String.eqb path ""); [discriminate|].
  destruct (creat_loc MAXSYMLINKS (put d n x root) [] (components path))
    as [[dd nn]|] eqn:E; [|discriminate].
  cbn [sbind fst snd].
  assert (G : exists q, dd = (d ++ [n]) ++ q
              \/ get (dd ++ [nn]) (put d n x root) = Some x).
  { destruct (creat_inside x path dd nn Hx Hl Hi E) as [[-> ->]|[q ->]].
    - exists []. right. apply get_put_same, staging_parent.
    - exists q. now left. }
  destruct G as [q [->|G]].
  - assert (S : staging root d n (put ((d ++ [n]) ++ q) nn (File content mtime mode)
                           (put d n x root))).
    { rewrite put_put_under. exists (put q nn (File content mtime mode) x).
      split; [now apply put_kind|]. split; [|reflexivity].
      apply linkfree_put; [exact Hl|apply linkfree_file]. }
    destruct (get _ _) as [[c t m| |m es]|]; try discriminate;
      try (now intros [= <-]).
    destruct (Z.eqb _ _); [discriminate|now intros [= <-]].
  - rewrite G. destruct x; discriminate.
Qed.

Lemma chmod_inside (path : string) (mode : Z) (r r' : node) :
  staging root d n r -> inside T path ->
  chmod path mode r = Ok r' -> staging root d n r'.
Proof.
  intros (x & Hx & Hl & ->) Hi. unfold chmod.
  destruct (stat_loc (put d n x root) path) as [l|] eqn:E; [|discriminate].
  cbn [sbind]. intros [= <-].
  destruct (stat_inside x path l Hx Hl Hi E) as [q ->].
  rewrite alter_put_under. exists (alter q (set_mode mode) x).
  split; [|split; [now apply linkfree_alter_mode|reflexivity]].
  apply alter_kind; [exact Hx|]. intros y Hy. now rewrite set_mode_kind.
Qed.

(** The directory part of such a path leads into the staging directory
    too, unless it is there already. *)
Lemma inside_head (r : node) (path head tail : string) :
  staging root d n r -> inside T path ->
  components path = components head ++ [tail] ->
  String.eqb head "" = false ->
  exists_ head r = false ->
  inside T head.
Proof.
  intros (x & Hx & Hl & ->) (cs & Hc & Hcs) Hh Hne Hex.
  destruct (snoc_cases cs) as [->|(cs0 & a & ->)].
  - exfalso. rewrite app_nil_r in Hc. rewrite Hc in Hh.
    destruct (staging_walk x Hx) as [Hw _]. rewrite Hh in Hw.
    destruct (walk_prefix _ _ _ _ _ _ Hw) as [l0 H0].
    unfold exists_, stat_loc in Hex. now rewrite Hne, H0 in Hex.
  - rewrite Hh, app_assoc in Hc. apply app_inj_tail in Hc.
    destruct Hc as [Hc _]. exists cs0. split; [exact Hc|].
    rewrite no_dotdot_app in Hcs. apply andb_true_iff in Hcs. apply Hcs.
Qed.

(** ** The steps of an extraction *)

Lemma ks_pure {A} (m : M A) : (forall w, snd (m w) = w) -> keeps_staging root d n m.
Proof. intros H w Hs. now rewrite H. Qed.

Lemma ks_bind {A B} (m : M A) (k : A -> M B) :
  keeps_staging root d n m -> (forall a, keeps_staging root d n (k a)) ->
  keeps_staging root d n (bind m k).
Proof.
  intros Hm Hk w Hs. unfold bind. specialize (Hm w Hs).
  destruct (m w) as [[a|e] w1]; cbn [snd] in *; [now apply Hk|exact Hm].
Qed.

Lemma ks_try_except {A} (body : M A) (handler : exn -> M A) :
  keeps_staging root d n body -> (forall e, keeps_staging root d n (handler e)) ->
  keeps_staging root d n (try_except body handler).
Proof.
  intros Hb Hh w Hs. unfold try_except. specialize (Hb w Hs).
  destruct (body w) as [[a|e] w1]; cbn [snd] in *; [exact Hb|now apply Hh].
Qed.

Lemma ks_sys_write (call : node -> sys node) (path : string) :
  (forall r r', staging root d n r -> call r = Ok r' -> staging root d n r') ->
  keeps_staging root d n (sys_write call path).
Proof.
  intros H w Hs. unfold sys_write.
  destruct (call (fs w)) as [r'|] eqn:E; [|exact Hs].
  exact (H _ _ Hs E).
Qed.

Lemma ks_catch_exists {A} (a : A) (e : exn) :
  keeps_staging root d n (if issubclass (exn_class e) FileExistsError
                 then ret a else raise e).
Proof. destruct (issubclass _ _); now apply ks_pure. Qed.

Lemma ks_tar_mkdir (path : string) (mode : Z) :
  inside T path -> keeps_staging root d n (tar_mkdir path mode).
Proof.
  intros Hi. unfold tar_mkdir. apply ks_bind; [now apply ks_pure|].
  intros there. destruct there; [now apply ks_pure|].
  apply ks_sys_write. intros r r' Hs. now apply (mkdir_inside).
Qed.

Lemma ks_tar_makedirs (fuel : nat) (name : string) :
  inside T name -> keeps_staging root d n (tar_makedirs_fuel fuel name).
Proof.
  revert name. induction fuel as [|fuel IH]; intros name Hi w Hs;
    cbn [tar_makedirs_fuel]; cbv zeta; unfold bind at 1, os_path_exists;
    pose proof (components_makedirs_split name) as Hc; cbv zeta in Hc;
    match goal with
    | |- context [(negb (String.eqb ?h "") && negb (String.eqb ?t "")
                   && negb (exists_ ?h _))%bool] =>
        set (head := h) in *; set (tail := t) in *
    end;
    destruct (negb (String.eqb head "") && negb (String.eqb tail "")
              && negb (exists_ head (fs w)))%bool eqn:E;
    try (now apply ks_tar_mkdir).
  - exact Hs.
  - apply andb_true_iff in E. destruct E as [E E3].
    apply andb_true_iff in E. destruct E as [E1 E2].
    apply negb_true_iff in E1, E2, E3.
    assert (Hh : inside T head)
      by exact (inside_head _ _ _ _ Hs Hi (Hc E2) E1 E3).
    revert w Hs E3. fold (@keeps_staging root d n unit
      (bind (try_except (tar_makedirs_fuel fuel head)
               (fun e => if issubclass (exn_class e) FileExistsError
                         then ret tt else raise e))
         (fun _ => if String.eqb tail "." then ret tt
                   else tar_mkdir name 511))).
    intros w Hs _. revert w Hs. apply ks_bind.
    + apply ks_try_except; [now apply IH|]. intros e. apply ks_catch_exists.
    + intros _. destruct (String.eqb tail ".");
        [now apply ks_pure|now apply ks_tar_mkdir].
Qed.

(** The path of a member with a confined name. *)
Lemma inside_join (name : string) :
  confined_name name = true -> inside T (os_path_join T name).
Proof.
  unfold confined_name. intros H. apply andb_true_iff in H.
  destruct H as [Ha Hc]. apply negb_true_iff in Ha.
  exists (components name). split; [|exact Hc].
  now apply components_join_relative.
Qed.

Lemma inside_target (name : string) :
  confined_name name = true ->
  inside T (rstrip_slashes (os_path_join T name)).
Proof.
  intros H. destruct (inside_join name H) as (cs & Hc & Hcs).
  exists cs. split; [|exact Hcs]. now rewrite PathLaws.components_rstrip.
Qed.

Lemma ks_extract_member (m : tar_member) :
  confined_name (tar_name m) = true ->
  keeps_staging root d n (tar_extract_member T m).
Proof.
  intros Hm w Hs. pose proof (inside_target _ Hm) as Hi.
  unfold tar_extract_member. cbv zeta.
  set (tp := rstrip_slashes (os_path_join T (tar_name m))) in *.
  unfold bind at 1, os_path_exists.
  assert (Hup : (negb (String.eqb (os_path_dirname tp) "")
                 && negb (exists_ (os_path_dirname tp) (fs w)))%bool = true ->
                inside T (os_path_dirname tp)).
  { intros E. apply andb_true_iff in E. destruct E as [E1 E2].
    apply negb_true_iff in E1, E2.
    destruct (String.eqb (os_path_basename tp) "") eqn:Eb.
    - apply String.eqb_eq in Eb. destruct Hi as (cs & Hc & Hcs).
      exists cs. split; [|exact Hcs].
      now rewrite (components_dirname_slash tp Eb).
    - apply String.eqb_neq in Eb.
      exact (inside_head _ _ _ _ Hs Hi
               (PathLaws.components_dirname_basename tp Eb) E1 E2). }
  revert Hup.
  generalize (negb (String.eqb (os_path_dirname tp) "")
              && negb (exists_ (os_path_dirname tp) (fs w)))%bool.
  intros b Hup. revert w Hs.
  change (keeps_staging root d n
    (bind (if b then tar_makedirs (os_path_dirname tp) else ret tt)
       (fun _ =>
          match m with
          | TarFile _ content mtime mode =>
              sys_write (write_file tp content mtime mode) tp
          | TarDir _ _ =>
              try_except (tar_mkdir tp 448)
                (fun e => if issubclass (exn_class e) FileExistsError
                          then ret tt else raise e)
          end))).
  apply ks_bind.
  - destruct b; [|now apply ks_pure]. apply ks_tar_makedirs. now apply Hup.
  - intros _. destruct m as [nm content mtime mode|nm mode].
    + apply ks_sys_write. intros r r' Hr.
      now apply (write_file_inside).
    + apply ks_try_except; [now apply ks_tar_mkdir|].
      intros e. apply ks_catch_exists.
Qed.

Lemma ks_extract_members (ms : list tar_member) :
  forallb (fun m => confined_name (tar_name m)) ms = true ->
  keeps_staging root d n (tar_extract_members T ms).
Proof.
  induction ms as [|m ms IH]; intros H; cbn [tar_extract_members].
  - now apply ks_pure.
  - cbn in H. apply andb_true_iff in H. destruct H as [Hm Hms].
    apply ks_bind; [now apply ks_extract_member|]. intros _. now apply IH.
Qed.

Lemma ks_set_modes (dirs : list (string * Z)) :
  Forall (fun x => confined_name (fst x) = true) dirs ->
  keeps_staging root d n (tar_set_modes T dirs).
Proof.
  induction 1 as [|x dirs Hx _ IH]; cbn [tar_set_modes].
  - now apply ks_pure.
  - apply ks_bind; [|intros _; exact IH].
    apply ks_try_except; [|intros e; now apply ks_pure].
    apply ks_sys_write. intros r r' Hr.
    apply (chmod_inside); [exact Hr|].
    now apply inside_join.
Qed.

End Staging.

(** ** The directories of an archive, sorted *)

Section Sorted.
Variable P : string * Z -> Prop.

Lemma Forall_insert_by_name (x : string * Z) (l : list (string * Z)) :
  P x -> Forall P l -> Forall P (insert_by_name x l).
Proof.
  intros Hx Hl. induction Hl as [|y l Hy Hl IH]; cbn.
  - now constructor.
  - destruct (String.ltb (fst x) (fst y)); repeat constructor; assumption.
Qed.

Lemma Forall_sort_by_name (l : list (string * Z)) :
  Forall P l -> Forall P (sort_by_name l).
Proof.
  unfold sort_by_name. intros H.
  assert (G : forall acc, Forall P acc ->
                Forall P (fold_left (fun acc d => insert_by_name d acc) l acc)).
  { induction H as [|x l Hx Hl IH]; intros acc Ha; [exact Ha|].
    cbn. apply IH. now apply Forall_insert_by_name. }
  apply G. constructor.
Qed.

End Sorted.

Lemma tar_directories_confined (ms : list tar_member) :
  forallb (fun m => confined_name (tar_name m)) ms = true ->
  Forall (fun x => confined_name (fst x) = true) (tar_directories ms).
Proof.
  induction ms as [|[nm c t mo|nm mo] ms IH]; cbn; intros H.
  - constructor.
  - apply andb_true_iff in H. now apply IH.
  - apply andb_true_iff in H. destruct H as [H1 H2].
    constructor; [exact H1|now apply IH].
Qed.

Lemma ks_extractall (root : node) (T : string) (d : location) (n : string)
    (tar : archive) :
  FS.parent_loc root T = Ok (d, n) ->
  FS.peek root (d ++ [n]) = None ->
  confined tar = true ->
  keeps_staging root d n (tar_extractall tar T).
Proof.
  intros Hp Hn Hc w Hs. unfold tar_extractall.
  apply (ks_bind root d n); [now apply (ks_extract_members root T d n)| |exact Hs].
  intros _. destruct (intact tar); [|now apply ks_pure].
  apply (ks_set_modes root T d n Hp Hn). apply Forall_rev.
  apply Forall_sort_by_name. now apply tar_directories_confined.
Qed.

(** The body of [download_and_extract_tar_file], for an archive whose
    members stay below the staging directory, keeps the file system
    equal to the original one plus the staging directory, up to the
    final rename. *)
Lemma extract_body_inv (td : string -> option archive) (url : json)
    (extract_to temp_dir : string) (mode : Z) (root : node)
    (d : location) (n : string) (w : world) (r : result unit) (w' : world) :
  FS.parent_loc root temp_dir = Ok (d, n) ->
  FS.peek root (d ++ [n]) = None ->
  staging root d n (fs w) ->
  (forall u content tar,
     url = JStr u -> remote w u = Some content -> td content = Some tar ->
     confined tar = true) ->
  bind (request_get_py url) (fun content =>
  bind (tarfile_open td content) (fun tar =>
  bind (tar_extractall tar temp_dir) (fun _ =>
  bind (os_chmod temp_dir mode) (fun _ =>
  os_rename temp_dir extract_to)))) w = (r, w') ->
  exists x,
    kind_of x = KDir
    /\ match r with
       | Raise _ => fs w' = FS.put d n x root
       | Return _ =>
           FS.rename temp_dir extract_to (FS.put d n x root) = Ok (fs w')
       end.
Proof.
  intros Hp Hn Hs Hc H.
  assert (Stay : forall (e : exn) (w0 : world),
             staging root d n (fs w0) ->
             exists x, kind_of x = KDir /\ fs w0 = FS.put d n x root).
  { intros _ w0 (x & Hx & _ & E). now exists x. }
  unfold bind at 1 in H. unfold request_get_py, request_get, raise in H.
  destruct url as [| | |u| |];
    try (injection H as <- <-; exact (Stay (mkExn TypeError "") w Hs)).
  destruct (remote w u) as [content|] eqn:Eu.
  2:{ injection H as <- <-. exact (Stay (mkExn TypeError "") _ Hs). }
  unfold bind at 1 in H. unfold tarfile_open, ret, raise in H.
  destruct (td content) as [tar|] eqn:Et.
  2:{ injection H as <- <-. exact (Stay (mkExn TypeError "") _ Hs). }
  pose proof (ks_extractall root temp_dir d n tar Hp Hn
                (Hc u content tar eq_refl Eu Et)
                (add_event (EvGet u) w) Hs) as Hx.
  unfold bind at 1 in H.
  destruct (tar_extractall tar temp_dir (add_event (EvGet u) w))
    as [[[]|e] w1]; cbn [snd] in Hx.
  2:{ injection H as <- <-. exact (Stay e _ Hx). }
  destruct Hx as (x1 & Hx1 & _ & Hw1).
  unfold bind in H. unfold os_chmod, sys_write, FS.chmod in H.
  destruct (staged_resolves _ _ _ _ x1 Hp Hn Hx1) as (Hs1 & _ & _).
  rewrite Hw1, Hs1 in H. cbn [sbind] in H. rewrite alter_put in H.
  set (x2 := FS.set_mode mode x1) in H.
  assert (Hx2 : kind_of x2 = KDir) by (unfold x2; now rewrite set_mode_kind).
  unfold os_rename, sys_write in H. cbn [fs set_fs] in H.
  destruct (FS.rename temp_dir extract_to (FS.put d n x2 root)) eqn:Er;
    injection H as <- <-; now exists x2.
Qed.

Lemma remove_folder_staged (temp_dir : string) (root : node) (d : location)
    (n : string) (x : node) (w : world) :
  FS.parent_loc root temp_dir = Ok (d, n) ->
  FS.peek root (d ++ [n]) = None ->
  kind_of x = KDir ->
  fs w = FS.put d n x root ->
  exists w', remove_folder temp_dir w = (Return tt, w') /\ fs w' = root.
Proof.
  intros Hp Hn Hx Hw.
  destruct (staged_resolves _ _ _ _ x Hp Hn Hx) as (_ & Hl & Hk).
  unfold remove_folder. cbn [fs add_event]. rewrite Hw, Hl.
  destruct (d ++ [n]) as [|c l] eqn:E.
  - now destruct d.
  - rewrite Hk. rewrite <- E in Hn |- *.
    rewrite removelast_snoc, (last_snoc d n ""), (del_put _ _ _ _ Hn).
    eexists. split; reflexivity.
Qed.

(** C5, as the code has it.  For an archive of regular files and
    directories whose member names stay below the staging directory
    (relative names without [..]): whatever makes
    [download_and_extract_tar_file] fail -- no staging directory could be
    made, the request, the decoding or the unpacking failed, or the final
    rename was refused -- the file system afterwards is the one before
    the call: the staging directory is gone, and the final target name
    holds what it held before, nothing if it held nothing. *)
Theorem C5_failed_install_restores_fs
    (td : string -> option archive) (url : json) (extract_to : string)
    (w : world) (e : exn) (w' : world) :
  (forall u content tar,
     url = JStr u -> remote w u = Some content -> td content = Some tar ->
     confined tar = true) ->
  download_and_extract_tar_file td url extract_to w = (Raise e, w') ->
  fs w' = fs w.
Proof.
  intros Hc. unfold download_and_extract_tar_file. unfold bind at 1.
  pose proof (tempfile_mkdtemp_frame (os_path_dirname extract_to)
                ("." ++ os_path_basename extract_to)%string w) as [_ Hr1].
  destruct (tempfile_mkdtemp _ _ w) as [[temp_dir|e0] w1] eqn:Em;
    pose proof (tempfile_mkdtemp_inv _ _ _ _ _ Em) as Hm; cbn beta iota in Hm.
  2:{ now intros [= <- <-]. }
  cbn [snd] in Hr1. destruct Hm as (d & n & Hp & Hn & Hw1).
  unfold try_finally_unless_done.
  match goal with |- context [?body w1] =>
    match type of body with M unit => destruct (body w1) as [[[]|e1] w2] eqn:Eb end
  end; [discriminate|].
  assert (Hst : exists x, kind_of x = KDir /\ fs w2 = FS.put d n x (fs w)).
  { refine (extract_body_inv td url extract_to temp_dir _ (fs w) d n
              w1 (Raise e1) w2 Hp Hn _ _ Eb).
    - exists (Dir 448 []). split; [reflexivity|].
      split; [apply StagingLaws.linkfree_empty|exact Hw1].
    - intros u content tar Hu Hru. apply (Hc u content tar Hu).
      now rewrite <- Hr1. }
  destruct Hst as (x & Hx & Hw2).
  destruct (remove_folder_staged temp_dir (fs w) d n x w2 Hp Hn Hx Hw2)
    as (w3 & Hr & Hw3).
  rewrite Hr. now intros [= <- <-].
Qed.

Lemma C5_failed_install_restores_fs_witness :
  let w := mkWorld (Demo.root_with []) 100000
             (fun _ => Some "<truncated tarball>") [5%N] [] in
  fs (snd (download_and_extract_tar_file Demo.tar_decode
             (JStr Demo.archive_url) (Demo.subdir "extracted.v1.2.0") w))
  = fs w.
Proof.
  intro w.
  refine (@C5_failed_install_restores_fs Demo.tar_decode
            (JStr Demo.archive_url) (Demo.subdir "extracted.v1.2.0") w
            (mkExn TarError "unexpected end of data") _ _ _).
  - intros u content tar _ Hr Ht. injection Hr as <-.
    vm_compute in Ht. injection Ht as <-. reflexivity.
  - vm_compute. reflexivity.
Defined.

(** C5 as stated fails: the target name already holds a directory that
    is not empty (another process installed it), the final rename is
    refused, the call fails, and an entry exists at the target name. *)
Lemma C5_counterexample :
  let w := Demo.world_with (Demo.online Demo.release_text)
             [("extracted.v1.2.0", Dir 493 [("wrapper.sh", File "" 0 493)])] in
  let r := download_and_extract_tar_file Demo.tar_decode
             (JStr Demo.archive_url) (Demo.subdir "extracted.v1.2.0") w in
  ~ (is_raise (fst r) = true ->
     FS.lstat (fs (snd r)) (Demo.subdir ".extracted.v1.2.0faaaaaaa") = Err ENOENT
     /\ FS.lstat (fs (snd r)) (Demo.subdir "extracted.v1.2.0") = Err ENOENT).
Proof.
  intros w r H.
  assert (E : FS.lstat (fs (snd r)) (Demo.subdir "extracted.v1.2.0") = Ok KDir)
    by (vm_compute; reflexivity).
  destruct H as [_ H]; [vm_compute; reflexivity|].
  rewrite E in H. discriminate.
Qed.

(** Outside the range of C5: a member name with [..] is written where it
    leads.  The archive below ends after a member named
    [../extracted.v1.2.0/wrapper.sh]; the call fails, the staging
    directory is removed, and the target name, which held nothing, holds
    that file. *)
Example member_name_leaves_staging_directory :
  let w := mkWorld (Demo.root_with []) 100000
             (fun _ => Some "<truncated tarball with a name that leaves>")
             [5%N] [] in
  let r := download_and_extract_tar_file Demo.tar_decode
             (JStr Demo.archive_url) (Demo.subdir "extracted.v1.2.0") w in
  fst r = Raise (mkExn TarError "unexpected end of data")
  /\ fs (snd r)
     = Demo.root_with
         [("extracted.v1.2.0",
           Dir 511 [("wrapper.sh", File "#!/bin/sh" 0 493)])].
Proof. vm_compute. split; reflexivity. Qed.

(* ================================================================== *)
(** * Promotion and garbage collection *)

Lemma sys_read_world {A} (call : node -> sys A) (path : string) (w : world) :
  snd (sys_read call path w) = w.
Proof. unfold sys_read. now destruct (call (fs w)). Qed.

Lemma sys_write_log (call : node -> sys node) (path : string) (w : world) :
  log (snd (sys_write call path w)) = log w.
Proof. unfold sys_write. now destruct (call (fs w)). Qed.

Lemma try_readlink_world (path : string) (w : world) :
  snd (try_readlink path w) = w.
Proof.
  unfold try_readlink, try_except, os_readlink, bind, sys_read, ret, raise.
  destruct (FS.readlink path (fs w)); [reflexivity|].
  now destruct (issubclass _ _).
Qed.

Lemma remove_if_exists_log (path : string) (w : world) :
  log (snd (remove_if_exists path w)) = log w.
Proof.
  unfold remove_if_exists, try_except, os_remove, sys_write, ret, raise.
  destruct (FS.unlink path (fs w)); [reflexivity|].
  now destruct (issubclass _ _).
Qed.

Lemma remove_folder_log (path : string) (w : world) :
  log (snd (remove_folder path w)) = EvRemoveFolder path :: log w.
Proof.
  unfold remove_folder.
  destruct (FS.lstat_loc _ path) as [l|e].
  - destruct l; [reflexivity|].
    destruct (FS.peek _ _) as [[]|]; reflexivity.
  - now destruct e.
Qed.

(** What [download_collect] does to the world: nothing, or one call of
    [remove_folder] on a path that passed the three tests. *)
Lemma download_collect_guarded (RT : string) (old_dir : option string)
    (p extract_to : string) (w : world) :
  snd (download_collect RT old_dir p extract_to w) = w
  \/ (FS.samefile p extract_to (fs w) = Ok false
      /\ FS.samefile (os_path_dirname p) (runtime_subdir RT) (fs w) = Ok true
      /\ prefix "extracted." (os_path_basename p) = true
      /\ snd (download_collect RT old_dir p extract_to w)
         = snd (remove_folder p w)).
Proof.
  unfold download_collect, bind, os_path_samefile, sys_read, ret, try_except.
  destruct (truthy old_dir); [|now left].
  destruct (FS.samefile p extract_to (fs w)) as [[]|] eqn:E1;
    cbn [negb]; try (now left).
  destruct (FS.samefile (os_path_dirname p) (runtime_subdir RT) (fs w))
    as [[]|] eqn:E2; cbn [andb]; try (now left).
  destruct (prefix "extracted." (os_path_basename p)) eqn:E3; [|now left].
  right. repeat split.
  now destruct (remove_folder p w) as [[]].
Qed.

Lemma download_promote_guarded
    (RT tag_name extract_to : string) (w : world) :
  let w' := snd (download_promote RT tag_name extract_to w) in
  log w' = log w
  \/ exists (p : string) (w3 : world),
       log w' = EvRemoveFolder p :: log w
       /\ FS.samefile (os_path_dirname p) (runtime_subdir RT) (fs w3) = Ok true
       /\ prefix "extracted." (os_path_basename p) = true
       /\ FS.samefile p extract_to (fs w3) = Ok false
       /\ w' = snd (remove_folder p w3).
Proof.
  cbv zeta. unfold download_promote, bind.
  pose proof (try_readlink_world (latest_release_path RT) w) as H0.
  destruct (try_readlink (latest_release_path RT) w) as [[old|e] w0];
    cbn [snd] in H0; subst w0; [|now left].
  destruct (option_string_eqb old extract_to); [now left|].
  set (tl := (latest_release_path RT ++ "." ++ tag_name)%string).
  assert (Hr : exists p, (match old with
                          | Some d => if truthy old then os_path_realpath d
                                      else ret ""
                          | None => ret ""
                          end) w = (Return p, w)).
  { destruct old as [d|]; [|now exists ""].
    destruct (truthy (Some d)); [|now exists ""].
    now exists (FS.realpath d (fs w)). }
  destruct Hr as [p ->].
  pose proof (remove_if_exists_log tl w) as H1.
  destruct (remove_if_exists tl w) as [[[]|e] w1]; cbn [snd] in H1;
    [|now left].
  pose proof (sys_write_log (FS.symlink extract_to tl) tl w1) as H2.
  fold (os_symlink extract_to tl) in H2.
  destruct (os_symlink extract_to tl w1) as [[[]|e] w2]; cbn [snd] in H2;
    [|left; cbn [snd]; congruence].
  pose proof (sys_write_log (FS.rename tl (latest_release_path RT)) tl w2) as H3.
  fold (os_rename tl (latest_release_path RT)) in H3.
  destruct (os_rename tl (latest_release_path RT) w2) as [[[]|e] w3];
    cbn [snd] in H3; [|left; cbn [snd]; congruence].
  destruct (download_collect_guarded RT old p extract_to w3)
    as [E|(E1 & E2 & E3 & E)]; rewrite E.
  - left. congruence.
  - right. exists p, w3. rewrite remove_folder_log.
    repeat split; try assumption. congruence.
Qed.

(** C7 fails on the code.  When the link named a path that no longer
    resolves, the first test of the collection, [os.path.samefile],
    raises outside the [try], after the link has been repointed: the
    error reaches the caller. *)
Theorem C7_dangling_old_target_raises
    (RT tag_name extract_to old : string) (w w1 w2 w3 : world) (e : errno) :
  let temp_link := (latest_release_path RT ++ "." ++ tag_name)%string in
  try_readlink (latest_release_path RT) w = (Return (Some old), w) ->
  old <> extract_to ->
  old <> "" ->
  remove_if_exists temp_link w = (Return tt, w1) ->
  os_symlink extract_to temp_link w1 = (Return tt, w2) ->
  os_rename temp_link (latest_release_path RT) w2 = (Return tt, w3) ->
  FS.stat_loc (fs w3) (FS.realpath old (fs w)) = Err e ->
  download_promote RT tag_name extract_to w
  = (Raise (os_error e (FS.realpath old (fs w))), w3).
Proof.
  intros tl Hl Hne Hnz H1 H2 H3 Hs.
  unfold download_promote, bind. rewrite Hl.
  cbn [option_string_eqb truthy].
  apply String.eqb_neq in Hne, Hnz. rewrite Hne, Hnz. cbn [negb].
  unfold os_path_realpath. fold tl. rewrite H1, H2, H3.
  unfold download_collect, bind, os_path_samefile, sys_read, FS.samefile.
  cbn [truthy]. rewrite Hnz. cbn [negb]. now rewrite Hs.
Qed.

Lemma C7_dangling_old_target_raises_witness :
  let w := Demo.world_with Demo.offline
             [("latest", Symlink "extracted.v1.0");
              ("extracted.v1.2.0", Dir 493 [])] in
  let w3 := Demo.world_with Demo.offline
              [("latest", Symlink (Demo.subdir "extracted.v1.2.0"));
               ("extracted.v1.2.0", Dir 493 [])] in
  download_promote Demo.RUNTIME_DIR "v1.2.0" (Demo.subdir "extracted.v1.2.0") w
  = (Raise (mkExn FileNotFoundError (Demo.subdir "extracted.v1.0")), w3).
Proof.
  intros w w3.
  refine (@C7_dangling_old_target_raises Demo.RUNTIME_DIR "v1.2.0"
            (Demo.subdir "extracted.v1.2.0") (Demo.subdir "extracted.v1.0")
            w w _ w3 ENOENT _ _ _ _ _ _ _);
    try (vm_compute; reflexivity); try discriminate.
Defined.

(* ================================================================== *)
(** * The temporary link *)

Lemma lstat_nondir_inv (root : node) (path : string) (k : kind) :
  FS.lstat root path = Ok k ->
  k <> KDir ->
  exists d n,
    FS.parent_loc root path = Ok (d, n)
    /\ FS.peek root (d ++ [n]) = Some k
    /\ FS.lstat_loc root path = Ok (d ++ [n]).
Proof.
  unfold FS.lstat, FS.lstat_loc, FS.stat_dir. intros H Hk.
  destruct (rev (components path)) as [|c rinit].
  - exfalso. destruct (FS.stat_loc root path) as [l|]; [|discriminate].
    cbn in H. destruct (FS.peek root l) as [[| |]|] eqn:E; try discriminate.
    cbn in H. rewrite E in H. congruence.
  - destruct (FS.is_dots c).
    + exfalso. destruct (FS.stat_loc root path) as [l|]; [|discriminate].
      cbn in H. destruct (FS.peek root l) as [[| |]|] eqn:E; try discriminate.
      cbn in H. rewrite E in H. congruence.
    + destruct (FS.parent_loc root path) as [[d n]|]; [|discriminate].
      cbn in H |- *.
      destruct (FS.peek root (d ++ [n])) as [k'|] eqn:E; [|discriminate].
      cbn in H. rewrite E in H. injection H as ->.
      now exists d, n.
Qed.

Lemma lstat_no_component (root : node) (path : string) :
  rev (components path) = [] ->
  String.eqb path "" = false ->
  FS.lstat root path = Ok KDir \/ FS.lstat root path = Err ENOTDIR.
Proof.
  intros Hc Hp.
  assert (Hcs : components path = [])
    by (rewrite <- (rev_involutive (components path)), Hc; reflexivity).
  unfold FS.lstat, FS.lstat_loc, FS.stat_dir, FS.stat_loc.
  rewrite Hc, Hp, Hcs. cbn.
  destruct root; cbn; auto.
Qed.

Lemma symlink_eexist_inv (target path : string) (root : node) :
  FS.symlink target path root = Err EEXIST ->
  (rev (components path) = [] /\ String.eqb path "" = false)
  \/ exists d n k,
       FS.parent_loc root path = Ok (d, n)
       /\ FS.peek root (d ++ [n]) = Some k.
Proof.
  unfold FS.symlink.
  destruct (FS.parent_loc root path) as [[d n]|e] eqn:Ep; cbn.
  - destruct (FS.peek root (d ++ [n])) as [k|] eqn:Ek; [|discriminate].
    intros _. right. now exists d, n, k.
  - intros [= ->]. left. unfold FS.parent_loc in Ep.
    destruct (rev (components path)) as [|c rinit].
    + split; [reflexivity|]. now destruct (String.eqb path "").
    + exfalso. destruct (FS.is_dots c); [discriminate|].
      destruct (FS.walk FS.MAXSYMLINKS root [] (rev rinit)) as [d|e] eqn:Ew.
      * cbn in Ep. destruct (FS.peek root d) as [[| |]|]; discriminate.
      * cbn in Ep. injection Ep as ->.
        destruct (walk_err _ _ _ _ _ Ew) as [|[|]]; discriminate.
Qed.

(** What [remove_if_exists] does at a name that holds nothing, a file or
    a symbolic link: it returns, nothing is found at the name
    afterwards, and [symlink] cannot answer that the name is taken. *)
Lemma remove_if_exists_clears (path : string) (w : world) :
  FS.lstat (fs w) path = Err ENOENT
  \/ FS.lstat (fs w) path = Ok KFile
  \/ (exists t, FS.lstat (fs w) path = Ok (KLink t)) ->
  exists w',
    remove_if_exists path w = (Return tt, w')
    /\ (exists e, FS.lstat (fs w') path = Err e)
    /\ forall target, FS.symlink target path (fs w') <> Err EEXIST.
Proof.
  intros H.
  assert (C : FS.lstat (fs w) path = Err ENOENT
              \/ exists k, FS.lstat (fs w) path = Ok k /\ k <> KDir).
  { destruct H as [H|[H|[t H]]]; [now left| |]; right; eexists;
      (split; [exact H|discriminate]). }
  clear H. destruct C as [H|(k & H & Hk)].
  - (* nothing there *)
    exists w.
    assert (U : FS.unlink path (fs w) = Err ENOENT).
    { unfold FS.lstat in H. unfold FS.unlink.
      destruct (FS.lstat_loc (fs w) path) as [l|e]; cbn in H |- *;
        [|congruence].
      destruct l as [|c l]; [discriminate|].
      destruct (FS.peek (fs w) (c :: l)); [discriminate|reflexivity]. }
    split; [|split].
    + unfold remove_if_exists, try_except, os_remove, sys_write.
      now rewrite U.
    + now exists ENOENT.
    + intros target E.
      destruct (symlink_eexist_inv _ _ _ E) as [[Hc Hp]|(d & n & k & Hp & Hk)].
      * destruct (lstat_no_component (fs w) path Hc Hp); congruence.
      * unfold FS.lstat in H. rewrite (lstat_loc_entry _ _ _ _ Hp), Hk in H.
        cbn in H. now rewrite Hk in H.
  - (* a file or a symbolic link *)
    destruct (lstat_nondir_inv _ _ _ H Hk) as (d & n & Hp & Hpk & Hl).
    exists (set_fs (FS.del d n (fs w)) w).
    assert (U : FS.unlink path (fs w) = Ok (FS.del d n (fs w))).
    { unfold FS.unlink. rewrite Hl. cbn [sbind].
      destruct (d ++ [n]) as [|c l] eqn:E; [now destruct d|].
      rewrite Hpk. rewrite <- E, removelast_snoc, (last_snoc d n "").
      now destruct k. }
    assert (After : forall d' n',
               FS.parent_loc (FS.del d n (fs w)) path = Ok (d', n') ->
               FS.peek (FS.del d n (fs w)) (d' ++ [n']) = None).
    { intros d' n' Hp'.
      pose proof (parent_loc_mono _ _ _ _ _ (extends_del d n (fs w)) Hp') as E.
      rewrite Hp in E. injection E as <- <-. apply peek_del_same. }
    split; [|split].
    + unfold remove_if_exists, try_except, os_remove, sys_write.
      now rewrite U.
    + cbn [fs set_fs]. unfold FS.lstat.
      destruct (parent_loc_inv _ _ _ _ Hp) as (rinit & Hr & Hn & _).
      unfold FS.lstat_loc. rewrite Hr, Hn.
      destruct (FS.parent_loc (FS.del d n (fs w)) path) as [[d' n']|e] eqn:Ep.
      * cbn. rewrite (After _ _ eq_refl). now exists ENOENT.
      * now exists e.
    + cbn [fs set_fs]. intros target E.
      destruct (symlink_eexist_inv _ _ _ E) as [[Hc _]|(d' & n' & k' & Hp' & Hk')].
      * destruct (parent_loc_inv _ _ _ _ Hp) as (rinit & Hr & _). congruence.
      * rewrite (After _ _ Hp') in Hk'. discriminate.
Qed.

(** C10, as the code has it.  When the name of the temporary link holds
    nothing, a file or a symbolic link (such as the leftover of a run
    that stopped before the rename), the removal of line 207 returns
    normally, nothing is found at that name afterwards, the creation of
    the symbolic link cannot fail because the name is taken, and the
    promotion goes on from there: unless it stopped before line 207
    (the link [latest] cannot be read, or names [extract_to] already),
    it is the creation of the link, the rename and the collection run
    in the state the removal left.  (A directory at that name is not
    covered: [os.remove] raises [IsADirectoryError], which is not
    caught.) *)
Theorem C10_leftover_temp_link_removed
    (RT tag_name extract_to : string) (w : world) :
  let latest := latest_release_path RT in
  let temp_link := (latest ++ "." ++ tag_name)%string in
  FS.lstat (fs w) temp_link = Err ENOENT
  \/ FS.lstat (fs w) temp_link = Ok KFile
  \/ (exists t, FS.lstat (fs w) temp_link = Ok (KLink t)) ->
  exists w1,
    remove_if_exists temp_link w = (Return tt, w1)
    /\ (exists e, FS.lstat (fs w1) temp_link = Err e)
    /\ (forall target, FS.symlink target temp_link (fs w1) <> Err EEXIST)
    /\ download_promote RT tag_name extract_to w
       = match try_readlink latest w with
         | (Return old_dir, _) =>
             if option_string_eqb old_dir extract_to then (Return tt, w)
             else
               bind (os_symlink extract_to temp_link) (fun _ =>
               bind (os_rename temp_link latest) (fun _ =>
               download_collect RT old_dir
                 (match old_dir with
                  | Some o =>
                      if truthy old_dir then FS.realpath o (fs w) else ""
                  | None => ""
                  end) extract_to)) w1
         | (Raise e, _) => (Raise e, w)
         end.
Proof.
  intros latest temp_link H.
  destruct (remove_if_exists_clears temp_link w H) as (w1 & H1 & H2 & H3).
  exists w1. repeat split; try assumption.
  unfold download_promote. fold latest. fold temp_link. unfold bind at 1.
  pose proof (try_readlink_world latest w) as H0.
  destruct (try_readlink latest w) as [[old|e] w0]; cbn [snd] in H0; subst w0;
    [|reflexivity].
  destruct (option_string_eqb old extract_to); [reflexivity|].
  unfold bind at 1.
  assert (Hr : (match old with
                | Some d => if truthy old then os_path_realpath d else ret ""
                | None => ret ""
                end) w
               = (Return (match old with
                          | Some o =>
                              if truthy old then FS.realpath o (fs w) else ""
                          | None => ""
                          end), w)).
  { destruct old as [o|]; [|reflexivity].
    now destruct (truthy (Some o)). }
  rewrite Hr. unfold bind at 1. now rewrite H1.
Qed.

Lemma C10_leftover_temp_link_removed_witness :
  let w := Demo.world_with Demo.offline
             [("latest.v1.2.0", Symlink (Demo.subdir "extracted.v1.2.0"));
              ("extracted.v1.2.0", Dir 493 [])] in
  (exists e, FS.lstat
               (fs (snd (remove_if_exists (Demo.subdir "latest.v1.2.0") w)))
               (Demo.subdir "latest.v1.2.0") = Err e)
  /\ download_promote Demo.RUNTIME_DIR "v1.2.0"
       (Demo.subdir "extracted.v1.2.0") w
     = (Return tt,
        Demo.world_with Demo.offline
          [("extracted.v1.2.0", Dir 493 []);
           ("latest", Symlink (Demo.subdir "extracted.v1.2.0"))]).
Proof.
  intro w.
  destruct (C10_leftover_temp_link_removed Demo.RUNTIME_DIR "v1.2.0"
              (Demo.subdir "extracted.v1.2.0") w)
    as (w1 & H1 & H2 & _ & H4).
  - right. right. exists (Demo.subdir "extracted.v1.2.0"). reflexivity.
  - change (latest_release_path Demo.RUNTIME_DIR ++ "." ++ "v1.2.0")%string
      with (Demo.subdir "latest.v1.2.0") in H1, H2, H4.
    rewrite H1. cbn [snd]. split; [exact H2|].
    rewrite H4. vm_compute in H1. injection H1 as <-.
    vm_compute. reflexivity.
Defined.

(** C10 as stated fails: a directory at the name of the temporary link
    is not removed, and promotion fails because of it. *)
Lemma C10_counterexample :
  let w := Demo.world_with Demo.offline
             [("latest.v1.2.0", Dir 493 []);
              ("extracted.v1.2.0", Dir 493 [])] in
  ~ exists w',
      download_promote Demo.RUNTIME_DIR "v1.2.0"
        (Demo.subdir "extracted.v1.2.0") w = (Return tt, w').
Proof.
  intros w (w' & H). vm_compute in H. discriminate.
Qed.

(* ================================================================== *)
(** * What the operations of a promotion leave in place *)

Import SpineLaws.

Lemma keeps_dirs_refl (root : node) : keeps_dirs root root.
Proof. intros q H. exact H. Qed.

Lemma keeps_dirs_trans (a b c : node) :
  keeps_dirs a b -> keeps_dirs b c -> keeps_dirs a c.
Proof. intros H1 H2 q H. apply H2, H1, H. Qed.

Lemma keeps_dirs_extends (root root' : node) :
  extends root root' -> keeps_dirs root root'.
Proof. intros H q Hq. apply H, Hq. Qed.

Lemma spine_keeps (root root' : node) (e : location) :
  keeps_dirs root root' -> spine root e -> spine root' e.
Proof. intros Hk H i. apply Hk, H. Qed.

(** An entry that is no directory is not above a directory. *)
Lemma nondir_aside (root : node) (l q : location) :
  FS.peek root l <> Some KDir ->
  FS.peek root q = Some KDir ->
  FS.is_prefix l q = false.
Proof.
  intros Hl Hq. destruct (FS.is_prefix l q) eqn:E; [|reflexivity].
  exfalso. destruct (prefix_is_dir root l q KDir E Hq) as [->|Hd];
    [exact (Hl Hq)|exact (Hl Hd)].
Qed.

Lemma del_nondir_keeps_dirs (root : node) (d : location) (n : string) :
  FS.peek root (d ++ [n]) <> Some KDir ->
  keeps_dirs root (FS.del d n root).
Proof.
  intros Hl q Hq. rewrite peek_del_other; [exact Hq|].
  exact (nondir_aside root _ q Hl Hq).
Qed.

Lemma put_nondir_keeps_dirs (root : node) (d : location) (n : string) (x : node) :
  FS.peek root (d ++ [n]) <> Some KDir ->
  keeps_dirs root (FS.put d n x root).
Proof.
  intros Hl q Hq. rewrite peek_put_other; [exact Hq|].
  exact (nondir_aside root _ q Hl Hq).
Qed.

Lemma unlink_keeps_dirs (path : string) (root root' : node) :
  FS.unlink path root = Ok root' -> keeps_dirs root root'.
Proof.
  unfold FS.unlink. destruct (FS.lstat_loc root path) as [l|]; [|discriminate].
  cbn [sbind].
  destruct l as [|c l]; [destruct (FS.peek root []) as [[]|]; discriminate|].
  destruct (FS.peek root (c :: l)) as [k|] eqn:Ek; [|discriminate].
  intros H.
  assert (Hk : FS.peek root (c :: l) <> Some KDir)
    by (rewrite Ek; destruct k; [discriminate|discriminate|discriminate H]).
  assert (root' = FS.del (removelast (c :: l)) (last (c :: l) "") root)
    by (destruct k; congruence).
  subst root'. apply del_nondir_keeps_dirs.
  now rewrite <- app_removelast_last by discriminate.
Qed.

Lemma symlink_keeps_dirs (target path : string) (root root' : node) :
  FS.symlink target path root = Ok root' -> keeps_dirs root root'.
Proof.
  unfold FS.symlink. destruct (FS.parent_loc root path) as [[d n]|];
    [|discriminate].
  cbn. destruct (FS.peek root (d ++ [n])) eqn:Ek; [discriminate|].
  intros [= <-]. apply keeps_dirs_extends. now apply extends_put.
Qed.

Lemma rename_nondir_keeps_dirs (src dst : string) (root root' : node)
    (k : kind) :
  FS.lstat root src = Ok k -> k <> KDir ->
  FS.rename src dst root = Ok root' ->
  keeps_dirs root root'.
Proof.
  intros Hl Hk H.
  destruct (lstat_nondir_inv _ _ _ Hl Hk) as (d & n & _ & Hpk & Hloc).
  unfold FS.rename in H. rewrite Hloc in H. cbn [sbind] in H.
  destruct (FS.parent_loc root dst) as [[pd nd]|]; [|discriminate].
  cbn [sbind fst snd] in H.
  assert (Hx : exists x, FS.get (d ++ [n]) root = Some x /\ kind_of x = k).
  { unfold FS.peek in Hpk. destruct (FS.get (d ++ [n]) root) as [x|];
      [|discriminate]. exists x. split; [reflexivity|]. now injection Hpk. }
  destruct Hx as (x & Hg & Hkx).
  destruct (d ++ [n]) as [|c l] eqn:E; [now destruct d|].
  rewrite Hg in H. rewrite <- E in H, Hpk, Hg. clear Hloc E c l.
  destruct (FS.location_eqb (d ++ [n]) (pd ++ [nd]));
    [injection H as <-; apply keeps_dirs_refl|].
  destruct (FS.is_prefix (d ++ [n]) (pd ++ [nd])) eqn:Ep; [discriminate|].
  rewrite removelast_snoc, (last_snoc d n "") in H.
  assert (Hdel : keeps_dirs root (FS.del d n root)).
  { apply del_nondir_keeps_dirs. rewrite Hpk. congruence. }
  assert (Hdst : FS.peek (FS.del d n root) (pd ++ [nd]) <> Some KDir
                 -> keeps_dirs root (FS.put pd nd x (FS.del d n root))).
  { intros Hd. eapply keeps_dirs_trans; [exact Hdel|].
    now apply put_nondir_keeps_dirs. }
  rewrite (peek_del_other d n root _ Ep) in Hdst. unfold FS.peek in Hdst.
  destruct x as [c t m|t|m es]; [| |now destruct Hk; rewrite <- Hkx].
  - destruct (FS.get (pd ++ [nd]) root) as [[| |m' [|]]|]; try discriminate;
      injection H as <-; apply Hdst; cbn; discriminate.
  - destruct (FS.get (pd ++ [nd]) root) as [[| |m' [|]]|]; try discriminate;
      injection H as <-; apply Hdst; cbn; discriminate.
Qed.

Lemma unlink_spine (path : string) (root root' : node) (e : location) :
  FS.unlink path root = Ok root' -> spine root e -> spine root' e.
Proof. intros H. apply spine_keeps. exact (unlink_keeps_dirs _ _ _ H). Qed.

Lemma symlink_spine (target path : string) (root root' : node) (e : location) :
  FS.symlink target path root = Ok root' -> spine root e -> spine root' e.
Proof. intros H. apply spine_keeps. exact (symlink_keeps_dirs _ _ _ _ H). Qed.

Lemma rename_nondir_spine (src dst : string) (root root' : node)
    (k : kind) (e : location) :
  FS.lstat root src = Ok k -> k <> KDir ->
  FS.rename src dst root = Ok root' ->
  spine root e -> spine root' e.
Proof.
  intros Hl Hk H. apply spine_keeps.
  exact (rename_nondir_keeps_dirs _ _ _ _ _ Hl Hk H).
Qed.

Lemma extracted_name_plain (b : string) :
  prefix "extracted." b = true -> b <> "" /\ FS.is_dots b = false.
Proof.
  intros H. split.
  - intros ->. discriminate.
  - destruct (FS.is_dots b) eqn:E; [|reflexivity].
    unfold FS.is_dots in E. apply orb_true_iff in E.
    destruct E as [E|E]; apply String.eqb_eq in E; subst b; discriminate.
Qed.

Lemma no_dots_snoc (p : location) (n : string) :
  no_dots p = true -> FS.is_dots n = false -> no_dots (p ++ [n]) = true.
Proof.
  intros Hp Hn. unfold no_dots in *. rewrite forallb_app, Hp. cbn.
  now rewrite Hn.
Qed.

Lemma samefile_inv (a b : string) (root : node) (r : bool) :
  FS.samefile a b root = Ok r ->
  exists la lb,
    FS.stat_loc root a = Ok la /\ FS.stat_loc root b = Ok lb
    /\ r = FS.location_eqb la lb.
Proof.
  unfold FS.samefile.
  destruct (FS.stat_loc root a) as [la|]; [|discriminate].
  destruct (FS.stat_loc root b) as [lb|]; [|discriminate].
  cbn. intros [= <-]. now exists la, lb.
Qed.

Lemma stat_loc_nonempty (root : node) (path : string) (l : location) :
  FS.stat_loc root path = Ok l -> String.eqb path "" = false.
Proof. unfold FS.stat_loc. now destruct (String.eqb path ""). Qed.

(** The collection removes a sibling of the installed directory, or
    nothing. *)
Lemma remove_folder_guarded_spine (rs extract_to path : string)
    (p : location) (ne : string) (w : world) :
  spine (fs w) (p ++ [ne]) ->
  no_dots p = true -> FS.is_dots ne = false ->
  components rs = p ->
  components extract_to = p ++ [ne] ->
  FS.samefile path extract_to (fs w) = Ok false ->
  FS.samefile (os_path_dirname path) rs (fs w) = Ok true ->
  prefix "extracted." (os_path_basename path) = true ->
  spine (fs (snd (remove_folder path w))) (p ++ [ne]).
Proof.
  intros He Hd Hne Hrs Hex G1 G2 G3.
  pose proof (spine_app _ _ _ He) as Hp.
  destruct (extracted_name_plain _ G3) as [Hb Hbd].
  set (b := os_path_basename path) in *.
  pose proof (PathLaws.components_dirname_basename path Hb) as Hc.
  fold b in Hc.
  (* the parent of [path] is the directory at [p] *)
  destruct (samefile_inv _ _ _ _ G2) as (la & lb & Sa & Sb & Eab).
  symmetry in Eab. apply location_eqb_eq in Eab. subst lb.
  rewrite (stat_loc_spine (fs w) rs p Hd Hp Hrs (stat_loc_nonempty _ _ _ Sb))
    in Sb. injection Sb as <-.
  assert (Hpar : FS.parent_loc (fs w) path = Ok (p, b)).
  { unfold FS.parent_loc. rewrite Hc, rev_app_distr. cbn [rev List.app].
    rewrite Hbd, rev_involutive.
    unfold FS.stat_loc in Sa. rewrite (stat_loc_nonempty _ _ _ Sa) in Sa.
    rewrite Sa. cbn. now rewrite (spine_self _ _ Hp). }
  unfold remove_folder. cbn [fs add_event].
  rewrite (lstat_loc_entry _ _ _ _ Hpar).
  destruct (FS.peek (fs w) (p ++ [b])) as [k|] eqn:Ek; [|exact He].
  destruct (p ++ [b]) as [|c l] eqn:E; [now destruct p|].
  rewrite Ek. rewrite <- E in Ek |- *. clear E c l.
  destruct k; try exact He.
  rewrite removelast_snoc, (last_snoc p b ""). cbn [snd fs set_fs].
  (* and it is not the installed directory *)
  destruct (samefile_inv _ _ _ _ G1) as (l1 & l2 & S1 & S2 & E12).
  rewrite (stat_loc_entry _ _ _ _ KDir Hpar Ek) in S1 by discriminate.
  rewrite (stat_loc_spine (fs w) extract_to (p ++ [ne])
             (no_dots_snoc p ne Hd Hne) He Hex (stat_loc_nonempty _ _ _ S2))
    in S2.
  injection S1 as <-. injection S2 as <-.
  apply spine_del_aside; [exact He|]. apply aside_of_sibling.
  intros ->. now rewrite (proj2 (location_eqb_eq _ _) eq_refl) in E12.
Qed.

(** ** The log only grows *)

Lemma grows_same {A} (m : M A) :
  (forall w, log (snd (m w)) = log w) -> grows m.
Proof. intros H w. exists []. exact (H w). Qed.

Lemma grows_bind {A B} (m : M A) (k : A -> M B) :
  grows m -> (forall a, grows (k a)) -> grows (bind m k).
Proof.
  intros Hm Hk w. unfold bind. destruct (Hm w) as [e1 E1].
  unfold new_events in *.
  destruct (m w) as [[a|e] w1]; cbn [snd] in *.
  - destruct (Hk a w1) as [e2 E2]. exists (e2 ++ e1).
    rewrite E2, E1. apply List.app_assoc.
  - now exists e1.
Qed.

Lemma grows_try_except {A} (body : M A) (handler : exn -> M A) :
  grows body -> (forall e, grows (handler e)) -> grows (try_except body handler).
Proof.
  intros Hb Hh w. unfold try_except. destruct (Hb w) as [e1 E1].
  unfold new_events in *.
  destruct (body w) as [[a|e] w1]; cbn [snd] in *.
  - now exists e1.
  - destruct (Hh e w1) as [e2 E2]. exists (e2 ++ e1).
    rewrite E2, E1. apply List.app_assoc.
Qed.

Lemma grows_try_finally (body cleanup : M unit) :
  grows body -> grows cleanup -> grows (try_finally_unless_done body cleanup).
Proof.
  intros Hb Hc w. unfold try_finally_unless_done. destruct (Hb w) as [e1 E1].
  unfold new_events in *.
  destruct (body w) as [[a|e] w1]; cbn [snd] in *.
  - now exists e1.
  - destruct (Hc w1) as [e2 E2]. exists (e2 ++ e1).
    destruct (cleanup w1) as [[|] w2]; cbn [snd] in *;
      rewrite E2, E1; apply List.app_assoc.
Qed.

Lemma grows_ret {A} (a : A) : grows (ret a).
Proof. now apply grows_same. Qed.

Lemma grows_raise {A} (e : exn) : grows (@raise A e).
Proof. now apply grows_same. Qed.

Lemma grows_lift {A} (r : result A) : grows (lift r).
Proof. now apply grows_same. Qed.

Lemma grows_sys_read {A} (call : node -> sys A) (path : string) :
  grows (sys_read call path).
Proof. apply grows_same. intros w. now rewrite sys_read_world. Qed.

Lemma grows_sys_write (call : node -> sys node) (path : string) :
  grows (sys_write call path).
Proof. apply grows_same. intros w. apply sys_write_log. Qed.

Lemma grows_remove_folder (path : string) : grows (remove_folder path).
Proof. intros w. exists [EvRemoveFolder path]. apply remove_folder_log. Qed.

Lemma grows_request_get_py (url : json) : grows (request_get_py url).
Proof.
  destruct url; try apply grows_raise.
  intros w. unfold request_get_py, request_get.
  exists [EvGet s]. now destruct (remote w s).
Qed.

Lemma grows_tarfile_open (td : string -> option archive) (content : string) :
  grows (tarfile_open td content).
Proof.
  unfold tarfile_open. destruct (td content); [apply grows_ret|apply grows_raise].
Qed.

Lemma grows_tempfile_mkdtemp (dir pre : string) :
  grows (tempfile_mkdtemp dir pre).
Proof.
  apply grows_same. intros w. unfold tempfile_mkdtemp, bind, ret.
  destruct (tmp_loop _ _ _ _ w) as [[[u file]|e] w1] eqn:E;
    exact (proj1 (tmp_loop_mkdir_inv _ _ _ _ _ _ E)).
Qed.

(** ** [os.makedirs] only adds directories *)

Lemma makedirs_leaf_extends (name : string) (w : world) :
  let r := try_except (os_mkdir name 511)
             (fun e =>
                if issubclass (exn_class e) OSError
                then bind (os_path_isdir name)
                          (fun isd => if isd then ret tt else raise e)
                else raise e) w in
  extends (fs w) (fs (snd r)) /\ log (snd r) = log w.
Proof.
  cbv zeta. unfold try_except, os_mkdir, sys_write, FS.mkdir.
  destruct (FS.parent_loc (fs w) name) as [[d n]|e]; cbn [sbind].
  - cbn [fst snd]. destruct (FS.peek (fs w) (d ++ [n])) eqn:Ek.
    + cbn. unfold bind, os_path_isdir, ret, raise.
      destruct (FS.isdir name (fs w)); split; try reflexivity;
        apply FSLaws.extends_refl.
    + cbn. split; [now apply extends_put|reflexivity].
  - unfold os_error, bind, os_path_isdir, ret, raise. cbn [exn_class].
    destruct (issubclass (errno_class e) OSError);
      [destruct (FS.isdir name (fs w))|]; split; try reflexivity;
      apply FSLaws.extends_refl.
Qed.

Lemma makedirs_fuel_extends (fuel : nat) (name : string) (w : world) :
  extends (fs w) (fs (snd (os_makedirs_fuel fuel name w)))
  /\ log (snd (os_makedirs_fuel fuel name w)) = log w.
Proof.
  revert name w. induction fuel as [|fuel IH]; intros name w;
    set (P := fun r : result unit * world =>
                extends (fs w) (fs (snd r)) /\ log (snd r) = log w);
    match goal with |- context [os_makedirs_fuel ?f name w] =>
      change (P (os_makedirs_fuel f name w)) end;
    cbn [os_makedirs_fuel]; unfold bind at 1; unfold os_path_exists;
    destruct (negb (_ =? "") && negb (_ =? "") && negb _)%bool;
    try (subst P; apply makedirs_leaf_extends).
  - subst P. cbn. split; [apply FSLaws.extends_refl|reflexivity].
  - unfold bind at 1, try_except at 1.
    match goal with |- context [os_makedirs_fuel fuel ?h w] =>
      destruct (IH h w) as [X L];
      destruct (os_makedirs_fuel fuel h w) as [[[]|e] w1]
    end; cbn [snd] in X, L.
    + destruct (_ =? ".")%string.
      * subst P. cbn. now split.
      * destruct (makedirs_leaf_extends name w1) as [X1 L1].
        cbv zeta in X1, L1. subst P. cbn beta. split.
        -- eapply FSLaws.extends_trans; [exact X|exact X1].
        -- now rewrite L1.
    + destruct (issubclass (exn_class e) FileExistsError).
      * unfold ret at 1.
        destruct (_ =? ".")%string.
        -- subst P. cbn. now split.
        -- destruct (makedirs_leaf_extends name w1) as [X1 L1].
           cbv zeta in X1, L1. subst P. cbn beta. split.
           ++ eapply FSLaws.extends_trans; [exact X|exact X1].
           ++ now rewrite L1.
      * subst P. cbn. now split.
Qed.

Lemma grows_makedirs (name : string) : grows (os_makedirs name).
Proof.
  apply grows_same. intros w. apply makedirs_fuel_extends.
Qed.

(* ================================================================== *)
(** * Idempotence of the installation *)

Lemma aside_of_child (p : location) (n : string) :
  forall i, FS.is_prefix (p ++ [n]) (firstn i p) = false.
Proof.
  intros i. destruct (FS.is_prefix (p ++ [n]) (firstn i p)) eqn:E;
    [|reflexivity].
  apply is_prefix_length in E. rewrite length_app, length_firstn in E.
  cbn in E. lia.
Qed.

(** The final rename of the staging directory puts a directory at the
    target. *)
Lemma rename_staged_spine (temp_dir extract_to : string) (root root' : node)
    (d : location) (n : string) (x : node) (p : location) (ne : string) :
  FS.parent_loc root temp_dir = Ok (d, n) ->
  FS.peek root (d ++ [n]) = None ->
  kind_of x = KDir ->
  no_dots p = true -> FS.is_dots ne = false ->
  components extract_to = p ++ [ne] ->
  spine root p ->
  FS.rename temp_dir extract_to (FS.put d n x root) = Ok root' ->
  spine root' (p ++ [ne]).
Proof.
  intros Hp Hn Hx Hd Hne Hc He H.
  destruct (parent_loc_inv _ _ _ _ Hp) as (_ & _ & _ & _ & Hdk).
  destruct (staged_resolves _ _ _ _ x Hp Hn Hx) as (_ & Hl & Hk).
  pose proof (spine_extends _ _ _ (extends_put d n x root Hn) He) as He3.
  pose proof (parent_loc_spine _ extract_to p ne Hd He3 Hc Hne) as Hpe.
  unfold FS.rename in H. rewrite Hl, Hpe in H. cbn [sbind fst snd] in H.
  pose proof (get_put_same d n x root Hdk) as Hg.
  destruct (d ++ [n]) as [|c l] eqn:E; [now destruct d|].
  rewrite Hg in H. rewrite <- E in H, Hg, Hk, Hn. clear Hl E c l.
  destruct (FS.location_eqb (d ++ [n]) (p ++ [ne])) eqn:Eq.
  - injection H as <-. apply location_eqb_eq in Eq.
    apply spine_snoc; [exact He3|]. now rewrite <- Eq.
  - destruct (FS.is_prefix (d ++ [n]) (p ++ [ne])); [discriminate|].
    rewrite removelast_snoc, (last_snoc d n ""), (del_put _ _ _ _ Hn) in H.
    assert (Hm : spine (FS.put p ne x root) (p ++ [ne])).
    { apply spine_snoc.
      - apply spine_put_aside; [exact He|apply aside_of_child].
      - rewrite (peek_put_same p ne x root (spine_self _ _ He)).
        now rewrite Hx. }
    destruct x as [| |m es]; try discriminate.
    destruct (FS.get (p ++ [ne]) (FS.put d n (Dir m es) root))
      as [[| |m' [|]]|]; try discriminate; now injection H as <-.
Qed.

Lemma remove_if_exists_spine (path : string) (w : world) (e : location) :
  spine (fs w) e -> spine (fs (snd (remove_if_exists path w))) e.
Proof.
  intros He. unfold remove_if_exists, try_except, os_remove, sys_write.
  destruct (FS.unlink path (fs w)) as [r|er] eqn:U.
  - cbn. exact (unlink_spine _ _ _ _ U He).
  - unfold ret, raise. now destruct (issubclass _ _).
Qed.

Lemma symlink_lstat (target path : string) (root root' : node) :
  FS.symlink target path root = Ok root' ->
  FS.lstat root' path = Ok (KLink target).
Proof.
  unfold FS.symlink.
  destruct (FS.parent_loc root path) as [[d n]|] eqn:Hp; [|discriminate].
  cbn [sbind fst snd].
  destruct (FS.peek root (d ++ [n])) eqn:Ek; [discriminate|].
  intros [= <-].
  destruct (parent_loc_inv _ _ _ _ Hp) as (_ & _ & _ & _ & Hd).
  pose proof (parent_loc_mono _ _ _ _ _
                (extends_put d n (Symlink target) root Ek) Hp) as Hp'.
  pose proof (peek_put_same d n (Symlink target) root Hd) as Hk.
  unfold FS.lstat. rewrite (lstat_loc_entry _ _ _ _ Hp'), Hk.
  cbn. now rewrite Hk.
Qed.

(** Promotion leaves the installed directory in place. *)
Lemma download_promote_spine (RT tag_name extract_to : string)
    (p : location) (ne : string) (w : world) :
  no_dots p = true -> FS.is_dots ne = false ->
  components (runtime_subdir RT) = p ->
  components extract_to = p ++ [ne] ->
  spine (fs w) (p ++ [ne]) ->
  spine (fs (snd (download_promote RT tag_name extract_to w))) (p ++ [ne]).
Proof.
  intros Hd Hne Hrs Hc He.
  unfold download_promote, bind.
  pose proof (try_readlink_world (latest_release_path RT) w) as H0.
  destruct (try_readlink (latest_release_path RT) w) as [[old|e] w0];
    cbn [snd] in H0; subst w0; [|exact He].
  destruct (option_string_eqb old extract_to); [exact He|].
  set (tl := (latest_release_path RT ++ "." ++ tag_name)%string).
  assert (Hr : exists q, (match old with
                          | Some d => if truthy old then os_path_realpath d
                                      else ret ""
                          | None => ret ""
                          end) w = (Return q, w)).
  { destruct old as [d|]; [|now exists ""].
    destruct (truthy (Some d)); [|now exists ""].
    now exists (FS.realpath d (fs w)). }
  destruct Hr as [q ->].
  pose proof (remove_if_exists_spine tl w _ He) as H1.
  destruct (remove_if_exists tl w) as [[[]|e] w1]; cbn [snd] in H1;
    [|exact H1].
  unfold os_symlink, sys_write at 1.
  destruct (FS.symlink extract_to tl (fs w1)) as [r2|] eqn:E2; [|exact H1].
  pose proof (symlink_spine _ _ _ _ _ E2 H1) as H2.
  pose proof (symlink_lstat _ _ _ _ E2) as L2.
  unfold os_rename, sys_write at 1. cbn [fs set_fs].
  destruct (FS.rename tl (latest_release_path RT) r2) as [r3|] eqn:E3;
    [|exact H2].
  assert (H3 : spine r3 (p ++ [ne])).
  { refine (rename_nondir_spine _ _ _ _ _ _ L2 _ E3 H2). discriminate. }
  set (w3 := set_fs r3 (set_fs r2 w1)).
  destruct (download_collect_guarded RT old q extract_to w3)
    as [E|(G1 & G2 & G3 & E)]; rewrite E; [exact H3|].
  exact (remove_folder_guarded_spine (runtime_subdir RT) extract_to q p ne w3
           H3 Hd Hne Hrs Hc G1 G2 G3).
Qed.

Lemma exists_of_spine (root : node) (path : string) (e : location) :
  no_dots e = true -> e <> [] -> components path = e -> spine root e ->
  FS.exists_ path root = true.
Proof.
  intros Hd Hn Hc He. unfold FS.exists_.
  rewrite (stat_loc_spine root path e Hd He Hc); [reflexivity|].
  destruct path; [|reflexivity]. cbn in Hc. congruence.
Qed.

Lemma grows_download_promote (RT tag_name extract_to : string) :
  grows (download_promote RT tag_name extract_to).
Proof.
  intros w. unfold new_events.
  destruct (download_promote_guarded RT tag_name extract_to w)
    as [E|(p & w3 & E & _)]; cbv zeta in E.
  - now exists [].
  - now exists [EvRemoveFolder p].
Qed.

Lemma download_from_eq (RT : string) (td : string -> option archive)
    (info : json) (tag : string) (w : world) :
  py_getitem info "tag_name" = Return (JStr tag) ->
  download_from RT td info w =
  bind (download_install RT td info
          (os_path_join (os_path_dirname (latest_release_path RT))
             ("extracted." ++ tag)%string))
       (fun _ => download_promote RT tag
                   (os_path_join (os_path_dirname (latest_release_path RT))
                      ("extracted." ++ tag)%string)) w.
Proof.
  intros H. unfold download_from, lift. unfold bind at 1. rewrite H.
  reflexivity.
Qed.

Lemma download_from_present (RT : string) (td : string -> option archive)
    (info : json) (tag : string) (w : world) :
  py_getitem info "tag_name" = Return (JStr tag) ->
  FS.exists_ (os_path_join (os_path_dirname (latest_release_path RT))
                ("extracted." ++ tag)%string) (fs w) = true ->
  download_from RT td info w =
  download_promote RT tag
    (os_path_join (os_path_dirname (latest_release_path RT))
       ("extracted." ++ tag)%string) w.
Proof.
  intros H Hex. rewrite (download_from_eq RT td info tag w H).
  unfold download_install, os_path_exists, bind. cbv beta.
  now rewrite Hex.
Qed.

Lemma download_from_present_quiet (RT : string)
    (td : string -> option archive) (info : json) (tag : string) (w : world) :
  py_getitem info "tag_name" = Return (JStr tag) ->
  FS.exists_ (os_path_join (os_path_dirname (latest_release_path RT))
                ("extracted." ++ tag)%string) (fs w) = true ->
  exists evs,
    new_events w (snd (download_from RT td info w)) evs
    /\ existsb is_network_or_extraction evs = false.
Proof.
  intros H Hex. rewrite (download_from_present RT td info tag w H Hex).
  unfold new_events.
  destruct (download_promote_guarded RT tag
              (os_path_join (os_path_dirname (latest_release_path RT))
                 ("extracted." ++ tag)%string) w)
    as [E|(p & w3 & E & _)]; cbv zeta in E.
  - now exists [].
  - now exists [EvRemoveFolder p].
Qed.

(** The paths of a release whose tag is a single name. *)
Lemma extract_to_components (RT tag : string) :
  no_slash tag = true ->
  components (os_path_join (os_path_dirname (latest_release_path RT))
                ("extracted." ++ tag)%string)
  = components (runtime_subdir RT) ++ [("extracted." ++ tag)%string]
  /\ FS.is_dots ("extracted." ++ tag)%string = false.
Proof.
  intros Ht.
  assert (Hn : no_slash ("extracted." ++ tag)%string = true) by exact Ht.
  assert (Hp : prefix "extracted." ("extracted." ++ tag)%string = true).
  { cbn [append prefix]. repeat (destruct (ascii_dec _ _); [|congruence]).
    now destruct tag. }
  destruct (extracted_name_plain _ Hp) as [Hne Hd].
  split; [|exact Hd].
  rewrite (PathLaws.components_join _ _ Hn Hne).
  unfold latest_release_path.
  now rewrite PathLaws.components_dirname_join.
Qed.

(** C8 fails on the code.  The second call of the scenario: the cache
    file is fresh and holds the release info, the directory of its tag
    exists and the link names it.  Lines 191-217, applied to the release
    info, return at once and leave the world as it is; but line 190
    passes the parsed release info to [json.loads], and [download]
    raises [TypeError] before it reaches them. *)
Theorem C8_second_call_raises_TypeError
    (RT : string) (jl : string -> option json) (td : string -> option archive)
    (w : world) (text : string) (mtime : Q) (info : json) (tag : string) :
  FS.open_read (latest_release_json_path RT) (fs w) = Ok (text, mtime) ->
  (Qabs (clock w - mtime) < inject_Z 86400)%Q ->
  jl text = Some info ->
  py_getitem info "tag_name" = Return (JStr tag) ->
  let extract_to :=
    os_path_join (os_path_dirname (latest_release_path RT))
      ("extracted." ++ tag)%string in
  FS.exists_ extract_to (fs w) = true ->
  try_readlink (latest_release_path RT) w = (Return (Some extract_to), w) ->
  download RT jl td w
  = (Raise (mkExn TypeError "the JSON object must be str, bytes or bytearray"),
     w)
  /\ download_from RT td info w = (Return tt, w).
Proof.
  intros Hopen Hage Hparse Htag extract_to Hex Hl. split.
  - apply (download_needs_text RT jl td w w info).
    + unfold _download_latest_release_json, read_cache_if_fresh, try_except,
        py_open_r, sys_read, time_time, json_load, bind, ret.
      rewrite Hopen. cbn [fst snd file_text file_mtime].
      unfold _CACHE_TIME. rewrite (Qltb_lt _ _ Hage).
      now rewrite Hparse.
    + intros s ->. discriminate.
  - rewrite (download_from_present RT td info tag w Htag Hex).
    fold extract_to. unfold download_promote, bind. rewrite Hl.
    cbn [option_string_eqb]. now rewrite String.eqb_refl.
Qed.

Lemma C8_second_call_raises_TypeError_witness :
  let w := Demo.world_with (Demo.online Demo.release_text)
             [("latest.json", File Demo.release_text (inject_Z 99000) 420);
              ("extracted.v1.2.0",
               Dir 493 [("wrapper.sh", File "#!/bin/sh" 0 493)]);
              ("latest", Symlink (Demo.subdir "extracted.v1.2.0"))] in
  download Demo.RUNTIME_DIR Demo.json_loads Demo.tar_decode w
  = (Raise (mkExn TypeError "the JSON object must be str, bytes or bytearray"),
     w)
  /\ download_from Demo.RUNTIME_DIR Demo.tar_decode Demo.release_doc w
     = (Return tt, w).
Proof.
  intro w.
  apply (@C8_second_call_raises_TypeError Demo.RUNTIME_DIR Demo.json_loads
           Demo.tar_decode w Demo.release_text (inject_Z 99000)
           Demo.release_doc "v1.2.0");
    reflexivity.
Defined.

(* ================================================================== *)
(** * Safety of the garbage collection *)

Lemma remove_if_exists_keeps (path : string) (w : world) :
  keeps_dirs (fs w) (fs (snd (remove_if_exists path w))).
Proof.
  unfold remove_if_exists, try_except, os_remove, sys_write.
  destruct (FS.unlink path (fs w)) as [r|er] eqn:U.
  - cbn. exact (unlink_keeps_dirs _ _ _ U).
  - unfold ret, raise. destruct (issubclass _ _); apply keeps_dirs_refl.
Qed.

(** What a removal that passed the tests of the collection does to the
    file system: nothing, or it removes the entry named by the last
    component of [path] from the directory the runtime subdirectory
    resolves to. *)
Lemma remove_folder_guarded_effect (rs path : string) (w : world) :
  FS.samefile (os_path_dirname path) rs (fs w) = Ok true ->
  prefix "extracted." (os_path_basename path) = true ->
  exists rt,
    FS.stat_loc (fs w) rs = Ok rt
    /\ (fs (snd (remove_folder path w)) = fs w
        \/ fs (snd (remove_folder path w))
           = FS.del rt (os_path_basename path) (fs w)).
Proof.
  intros G2 G3.
  destruct (extracted_name_plain _ G3) as [Hb Hbd].
  pose proof (PathLaws.components_dirname_basename path Hb) as Hc.
  set (b := os_path_basename path) in *.
  destruct (samefile_inv _ _ _ _ G2) as (la & lb & Sa & Sb & Eab).
  symmetry in Eab. apply location_eqb_eq in Eab. subst lb.
  exists la. split; [exact Sb|].
  unfold remove_folder. cbn [fs add_event].
  unfold FS.lstat_loc, FS.parent_loc.
  rewrite Hc, rev_app_distr. cbn [rev List.app]. rewrite Hbd, rev_involutive.
  unfold FS.stat_loc in Sa. rewrite (stat_loc_nonempty _ _ _ Sa) in Sa.
  rewrite Sa. cbn [sbind].
  destruct (FS.peek (fs w) la) as [[| |]|]; cbn [sbind fst snd];
    try (now left).
  destruct (FS.peek (fs w) (la ++ [b])) as [k|] eqn:Ek; [|now left].
  destruct (la ++ [b]) as [|c l] eqn:E; [now destruct la|].
  rewrite Ek. rewrite <- E. clear E Ek c l.
  destruct k; try (now left).
  right. cbn [snd fs set_fs]. now rewrite removelast_snoc, (last_snoc la b "").
Qed.

(** C6.  Promotion either leaves the log as it was and loses no
    directory of the file system, or it calls [remove_folder] exactly
    once, on a path [p], in a state [w3] that still has every directory
    the file system had; there the parent of [p] is the same directory
    as the runtime subdirectory, the name of [p] begins with
    [extracted.], [p] is not the new target, and all the removal can do
    is take the entry of that name out of the directory [rt] the runtime
    subdirectory resolves to.  This holds for every file system,
    whatever the old link pointed to. *)
Theorem C6_collects_only_versioned_dirs
    (RT tag_name extract_to : string) (w : world) :
  let w' := snd (download_promote RT tag_name extract_to w) in
  (log w' = log w /\ keeps_dirs (fs w) (fs w'))
  \/ exists (p : string) (w3 : world) (rt : location),
       log w' = EvRemoveFolder p :: log w
       /\ w' = snd (remove_folder p w3)
       /\ keeps_dirs (fs w) (fs w3)
       /\ FS.samefile p extract_to (fs w3) = Ok false
       /\ FS.samefile (os_path_dirname p) (runtime_subdir RT) (fs w3) = Ok true
       /\ prefix "extracted." (os_path_basename p) = true
       /\ FS.stat_loc (fs w3) (runtime_subdir RT) = Ok rt
       /\ (fs w' = fs w3
           \/ fs w' = FS.del rt (os_path_basename p) (fs w3)).
Proof.
  cbv zeta.
  set (P := fun r : result unit * world =>
    (log (snd r) = log w /\ keeps_dirs (fs w) (fs (snd r)))
    \/ exists (p : string) (w3 : world) (rt : location),
         log (snd r) = EvRemoveFolder p :: log w
         /\ snd r = snd (remove_folder p w3)
         /\ keeps_dirs (fs w) (fs w3)
         /\ FS.samefile p extract_to (fs w3) = Ok false
         /\ FS.samefile (os_path_dirname p) (runtime_subdir RT) (fs w3)
            = Ok true
         /\ prefix "extracted." (os_path_basename p) = true
         /\ FS.stat_loc (fs w3) (runtime_subdir RT) = Ok rt
         /\ (fs (snd r) = fs w3
             \/ fs (snd r) = FS.del rt (os_path_basename p) (fs w3))).
  change (P (download_promote RT tag_name extract_to w)).
  assert (Quiet : forall r w1,
             log w1 = log w -> keeps_dirs (fs w) (fs w1) -> P (r, w1)).
  { intros r w1 L K. left. now split. }
  unfold download_promote, bind.
  pose proof (try_readlink_world (latest_release_path RT) w) as H0.
  destruct (try_readlink (latest_release_path RT) w) as [[old|e] w0];
    cbn [snd] in H0; subst w0;
    [|apply Quiet; [reflexivity|apply keeps_dirs_refl]].
  destruct (option_string_eqb old extract_to);
    [apply Quiet; [reflexivity|apply keeps_dirs_refl]|].
  set (tl := (latest_release_path RT ++ "." ++ tag_name)%string).
  assert (Hr : exists q, (match old with
                          | Some d => if truthy old then os_path_realpath d
                                      else ret ""
                          | None => ret ""
                          end) w = (Return q, w)).
  { destruct old as [d|]; [|now exists ""].
    destruct (truthy (Some d)); [|now exists ""].
    now exists (FS.realpath d (fs w)). }
  destruct Hr as [q ->].
  pose proof (remove_if_exists_keeps tl w) as K1.
  pose proof (remove_if_exists_log tl w) as L1.
  destruct (remove_if_exists tl w) as [[[]|e] w1]; cbn [snd] in K1, L1;
    [|now apply Quiet].
  unfold os_symlink, sys_write at 1.
  destruct (FS.symlink extract_to tl (fs w1)) as [r2|] eqn:E2;
    [|now apply Quiet].
  pose proof (keeps_dirs_trans _ _ _ K1 (symlink_keeps_dirs _ _ _ _ E2)) as K2.
  pose proof (symlink_lstat _ _ _ _ E2) as S2.
  unfold os_rename, sys_write at 1. cbn [fs set_fs].
  destruct (FS.rename tl (latest_release_path RT) r2) as [r3|] eqn:E3;
    [|now apply Quiet].
  assert (K3 : keeps_dirs (fs w) r3).
  { eapply keeps_dirs_trans; [exact K2|].
    refine (rename_nondir_keeps_dirs _ _ _ _ _ S2 _ E3). discriminate. }
  set (w3 := set_fs r3 (set_fs r2 w1)).
  assert (L3 : log w3 = log w) by exact L1.
  destruct (download_collect_guarded RT old q extract_to w3)
    as [E|(G1 & G2 & G3 & E)].
  - destruct (download_collect RT old q extract_to w3) as [r w4].
    cbn [snd] in E. subst w4. now apply Quiet.
  - right. destruct (remove_folder_guarded_effect _ _ w3 G2 G3)
      as (rt & St & Ef).
    exists q, w3, rt. rewrite E, remove_folder_log, L3.
    now repeat split.
Qed.

(** The scenario of an update: the link named [extracted.v1.0], the
    release [v1.2.0] is in place; promotion repoints the link and removes
    the old directory. *)
Example promote_collects_old_version :
  let w := Demo.world_with Demo.offline
             [("latest", Symlink "extracted.v1.0");
              ("extracted.v1.0", Dir 493 [("wrapper.sh", File "" 0 493)]);
              ("extracted.v1.2.0", Dir 493 [])] in
  download_promote Demo.RUNTIME_DIR "v1.2.0" (Demo.subdir "extracted.v1.2.0") w
  = (Return tt,
     mkWorld
       (Demo.root_with
          [("latest", Symlink (Demo.subdir "extracted.v1.2.0"));
           ("extracted.v1.2.0", Dir 493 [])])
       (clock w) (remote w) (rng w)
       [EvRemoveFolder (Demo.subdir "extracted.v1.0")]).
Proof. vm_compute. reflexivity. Qed.
